(** * BlockBlaster: the game-state core, embedded and verified

    A shallow embedding of the logic of [blockblaster_game.c] and of the
    shape table of [blockblaster_shapes.h]: the grid engine (placement,
    clear mask, game-over detection), the bag randomizer and the tray, the
    scoring and combo state machine, the high-score table, and the files
    of the save directory: settings, high scores, player name and sound
    state, written and read back.

    Conventions of the embedding:
    - a C [int] or [long] is a [Z]; signed overflow is undefined in C, so
      the arithmetic on scores and combos, which a caller can make
      overflow, lives in the [option] monad and yields [None] where the C
      program has no defined behaviour; counters and indices bounded by
      the array sizes are plain integers;
    - a C [float] is an IEEE-754 binary32 number, a [spec_float] with
      precision 24 and maximal exponent 128;
    - a C array is a list, read and written by index; a two-dimensional
      array is a list of rows;
    - a [for] loop is a recursion over the number of remaining iterations;
    - the globals [GRID_W], [GRID_H] and [PIECES_PER_SET] are section
      variables, hence parameters of every function that reads them;
    - a C string is a [string]: a text without a NUL character, in memory
      and in the files;
    - the files of the save directory are a finite map from names to
      contents, and [rand()] is a function on an explicit generator state. *)

From Stdlib Require Import ZArith List Bool Lia Ascii String.
From Stdlib Require Import Floats.SpecFloat.
From stdpp Require Import base option list gmap strings.

Open Scope Z_scope.

(* ====================================================================== *)
(** * Part I: the embedding                                                *)
(* ====================================================================== *)

(** ** Loops *)

(** [for (i = lo; <n iterations>; i++) s = body i s]. *)
Fixpoint for_loop {S : Type} (n : nat) (i : Z) (body : Z -> S -> S) (s : S) : S :=
  match n with
  | O => s
  | S n' => for_loop n' (i + 1) body (body i s)
  end.

(** [for (i = lo; i < hi; i++) s = body i s]. *)
Definition for_range {S : Type} (lo hi : Z) (body : Z -> S -> S) (s : S) : S :=
  for_loop (Z.to_nat (hi - lo)) lo body s.

(** [for (i = hi; <n iterations>; i--) s = body i s]. *)
Fixpoint for_loop_down {S : Type} (n : nat) (i : Z) (body : Z -> S -> S) (s : S) : S :=
  match n with
  | O => s
  | S n' => for_loop_down n' (i - 1) body (body i s)
  end.

(** [for (i = hi; i > lo; i--) s = body i s]. *)
Definition for_down {S : Type} (hi lo : Z) (body : Z -> S -> S) (s : S) : S :=
  for_loop_down (Z.to_nat (hi - lo)) hi body s.

(** A loop whose body returns [false] from the enclosing function as soon
    as [ok i] fails, and that is followed by [return true]. *)
Fixpoint all_loop (n : nat) (i : Z) (ok : Z -> bool) : bool :=
  match n with
  | O => true
  | S n' => if ok i then all_loop n' (i + 1) ok else false
  end.

Definition all_range (lo hi : Z) (ok : Z -> bool) : bool :=
  all_loop (Z.to_nat (hi - lo)) lo ok.

(** A loop that leaves with the first index at which [hit i] holds
    ([break] or [return i]); [None] when the loop runs to its end. *)
Fixpoint find_loop (n : nat) (i : Z) (hit : Z -> bool) : option Z :=
  match n with
  | O => None
  | S n' => if hit i then Some i else find_loop n' (i + 1) hit
  end.

Definition find_range (lo hi : Z) (hit : Z -> bool) : option Z :=
  find_loop (Z.to_nat (hi - lo)) lo hit.

(** A loop whose body returns [true] from the enclosing function as soon
    as [hit i] holds, and that is followed by [return false]. *)
Fixpoint any_loop (n : nat) (i : Z) (hit : Z -> bool) : bool :=
  match n with
  | O => false
  | S n' => if hit i then true else any_loop n' (i + 1) hit
  end.

Definition any_range (lo hi : Z) (hit : Z -> bool) : bool :=
  any_loop (Z.to_nat (hi - lo)) lo hit.

(** ** Arrays *)

(** [a[i]] for a one-dimensional array; [d] stands for the value of a read
    the program never performs (an index outside the array). *)
Definition arr_get {A : Type} (d : A) (a : list A) (i : Z) : A :=
  if i <? 0 then d else default d (a !! Z.to_nat i).

(** [a[i] = v]. *)
Definition arr_set {A : Type} (a : list A) (i : Z) (v : A) : list A :=
  if i <? 0 then a else <[Z.to_nat i := v]> a.

(** [a[y][x]] for a two-dimensional array stored as a list of rows. *)
Definition arr2_get {A : Type} (d : A) (a : list (list A)) (y x : Z) : A :=
  arr_get d (arr_get [] a y) x.

(** [a[y][x] = v]. *)
Definition arr2_set {A : Type} (a : list (list A)) (y x : Z) (v : A) : list (list A) :=
  if (y <? 0) || (x <? 0) then a
  else alter (fun row => <[Z.to_nat x := v]> row) (Z.to_nat y) a.

(** An array of [n] copies of [v], and one of [h] rows and [w] columns. *)
Definition arr_make {A : Type} (n : Z) (v : A) : list A := replicate (Z.to_nat n) v.
Definition arr2_make {A : Type} (h w : Z) (v : A) : list (list A) :=
  arr_make h (arr_make w v).

(** The shape of a two-dimensional array: [h] rows of [w] elements. *)
Definition arr2_dims {A : Type} (h w : Z) (a : list (list A)) : Prop :=
  Z.of_nat (length a) = h /\ Forall (fun row => Z.of_nat (length row) = w) a.

(** ** Machine integers *)

Definition INT_MIN : Z := - 2147483648.
Definition INT_MAX : Z := 2147483647.
(** [long] as on the LP64 desktop build. *)
Definition LONG_MIN : Z := - 9223372036854775808.
Definition LONG_MAX : Z := 9223372036854775807.

Definition in_int (z : Z) : bool := (INT_MIN <=? z) && (z <=? INT_MAX).
Definition in_long (z : Z) : bool := (LONG_MIN <=? z) && (z <=? LONG_MAX).

(** The result of a signed operation: defined only when it fits. *)
Definition int_of (z : Z) : option Z := if in_int z then Some z else None.
Definition long_of (z : Z) : option Z := if in_long z then Some z else None.

(** The conversion of a [long] to an [int], made where a [long] is passed
    for an [int] parameter: the value itself when it fits; otherwise the
    result is implementation-defined, and the compilers of the desktop
    build reduce it modulo 2^32. *)
Definition long_to_int (z : Z) : Z := (z - INT_MIN) mod 4294967296 + INT_MIN.

Definition int_add (a b : Z) : option Z := int_of (a + b).
Definition int_sub (a b : Z) : option Z := int_of (a - b).
Definition int_mul (a b : Z) : option Z := int_of (a * b).
Definition long_add (a b : Z) : option Z := long_of (a + b).

(** ** Single-precision floats *)

Module F32.
Definition prec : Z := 24.
Definition emax : Z := 128.
Definition float : Type := spec_float.

Definition add : float -> float -> float := SFadd prec emax.
Definition sub : float -> float -> float := SFsub prec emax.
Definition mul : float -> float -> float := SFmul prec emax.
Definition div : float -> float -> float := SFdiv prec emax.
(** [a < b] and [a > b]; both are false when an operand is a NaN. *)
Definition lt (a b : float) : bool := SFltb a b.
Definition gt (a b : float) : bool := SFltb b a.

(** The conversion [(float) z] of an integer, to nearest even. *)
Definition of_Z (z : Z) : float := binary_normalize prec emax z 0 false.

Definition zero : float := S754_zero false.
Definition one : float := of_Z 1.

(** The integer nearest to [m * 2^e], halves away from zero. *)
Definition round_half_away (m : positive) (e : Z) : Z :=
  match e with
  | Zneg p =>
      let d := Z.pow_pos 2 p in
      let q := Z.pos m / d in
      if d <=? 2 * (Z.pos m mod d) then q + 1 else q
  | _ => Z.pos m * 2 ^ e
  end.

(** [roundf]. *)
Definition roundf (x : float) : float :=
  match x with
  | S754_finite s m e =>
      binary_normalize prec emax (cond_Zopp s (round_half_away m e)) 0 s
  | _ => x
  end.

(** The integer part of [m * 2^e]. *)
Definition trunc (m : positive) (e : Z) : Z :=
  match e with
  | Zneg p => Z.pos m / Z.pow_pos 2 p
  | _ => Z.pos m * 2 ^ e
  end.

(** The conversion [(int) x]: towards zero, and undefined for a NaN, an
    infinity or a value that does not fit an [int]. *)
Definition to_int (x : float) : option Z :=
  match x with
  | S754_zero _ => Some 0
  | S754_finite s m e => int_of (cond_Zopp s (trunc m e))
  | _ => None
  end.
End F32.

(** ** Shapes ([blockblaster_context.h]) *)

Definition SHAPE_MAX : Z := 5.

(** [cells] holds the rows of the initialiser; the cells the initialiser
    leaves out are zero-initialised in C, which the default of a read
    gives. *)
Record Shape : Type := mkShape {
  w : Z;
  h : Z;
  cells : list (list bool);
  name : string
}.

(** ** The grid ([blockblaster_context.h]) *)

Definition GRID_W_MAX : Z := 20.
Definition GRID_H_MAX : Z := 20.

(** Allegro's colour: red, green, blue and alpha. *)
Record ALLEGRO_COLOR : Type := mkColor {
  color_r : F32.float; color_g : F32.float; color_b : F32.float; color_a : F32.float
}.

Record Theme : Type := mkTheme { fill : ALLEGRO_COLOR; stroke : ALLEGRO_COLOR }.

Definition color_zero : ALLEGRO_COLOR := mkColor F32.zero F32.zero F32.zero F32.zero.
(** [(Theme) {0}]. *)
Definition theme_zero : Theme := mkTheme color_zero color_zero.

Record Grid : Type := mkGrid {
  occ : list (list bool);
  cell_theme : list (list Theme);
  has_theme : list (list bool)
}.

(** A grid whose three arrays have [GRID_H_MAX] rows of [GRID_W_MAX]
    cells. *)
Definition grid_storage (gr : Grid) : Prop :=
  arr2_dims GRID_H_MAX GRID_W_MAX (occ gr) /\
  arr2_dims GRID_H_MAX GRID_W_MAX (cell_theme gr) /\
  arr2_dims GRID_H_MAX GRID_W_MAX (has_theme gr).

(** ** The grid engine ([blockblaster_game.c]) *)

Definition blockblaster_shape_cell (s : Shape) (x y : Z) : bool :=
  if (x <? 0) || (y <? 0) || (x >=? w s) || (y >=? h s) then false
  else arr2_get false (cells s) y x.

Section GridEngine.
(** The runtime grid dimensions. *)
Variables GRID_W GRID_H : Z.

(** The body of the two loops of [blockblaster_can_place_at]: [false]
    stands for [return false], [true] for going on. *)
Definition can_place_cell (gr : Grid) (s : Shape) (gx gy sx sy : Z) : bool :=
  if negb (blockblaster_shape_cell s sx sy) then true
  else
    let x := gx + sx in
    let y := gy + sy in
    if (x <? 0) || (y <? 0) || (x >=? GRID_W) || (y >=? GRID_H) then false
    else if arr2_get false (occ gr) y x then false
    else true.

Definition blockblaster_can_place_at (gr : Grid) (s : Shape) (gx gy : Z) : bool :=
  all_range 0 (h s) (fun sy =>
    all_range 0 (w s) (fun sx => can_place_cell gr s gx gy sx sy)).

Definition blockblaster_any_valid_placement (gr : Grid) (s : Shape) : bool :=
  any_range 0 GRID_H (fun gy =>
    any_range 0 GRID_W (fun gx => blockblaster_can_place_at gr s gx gy)).

(** The body of the two loops of [blockblaster_place_shape]. *)
Definition place_cell (s : Shape) (gx gy : Z) (theme : Theme) (sy sx : Z)
    (gr : Grid) : Grid :=
  if negb (blockblaster_shape_cell s sx sy) then gr
  else
    let x := gx + sx in
    let y := gy + sy in
    if (x >=? 0) && (y >=? 0) && (x <? GRID_W) && (y <? GRID_H) then
      {| occ := arr2_set (occ gr) y x true;
         cell_theme := arr2_set (cell_theme gr) y x theme;
         has_theme := arr2_set (has_theme gr) y x true |}
    else gr.

Definition blockblaster_place_shape (gr : Grid) (s : Shape) (gx gy : Z)
    (theme : Theme) : Grid :=
  for_range 0 (h s) (fun sy =>
    for_range 0 (w s) (fun sx => place_cell s gx gy theme sy sx)) gr.

Definition blockblaster_grid_clear (gr : Grid) : Grid :=
  for_range 0 GRID_H (fun y =>
    for_range 0 GRID_W (fun x gr =>
      {| occ := arr2_set (occ gr) y x false;
         cell_theme := arr2_set (cell_theme gr) y x theme_zero;
         has_theme := arr2_set (has_theme gr) y x false |})) gr.

Definition is_row_full (grid : list (list bool)) (y : Z) : bool :=
  all_range 0 GRID_W (fun x => arr2_get false grid y x).

Definition is_col_full (grid : list (list bool)) (x : Z) : bool :=
  all_range 0 GRID_H (fun y => arr2_get false grid y x).

(** Returns the mask and the number of lines. *)
Definition blockblaster_build_clear_mask (gr : Grid) (out_mask : list (list bool))
    : list (list bool) * Z :=
  let full_row := arr_make GRID_H_MAX false in
  let full_col := arr_make GRID_W_MAX false in
  let full_row :=
    for_range 0 GRID_H (fun y fr => arr_set fr y (is_row_full (occ gr) y)) full_row in
  let full_col :=
    for_range 0 GRID_W (fun x fc => arr_set fc x (is_col_full (occ gr) x)) full_col in
  let lines := 0 in
  let lines :=
    for_range 0 GRID_H (fun y lines =>
      if arr_get false full_row y then lines + 1 else lines) lines in
  let lines :=
    for_range 0 GRID_W (fun x lines =>
      if arr_get false full_col x then lines + 1 else lines) lines in
  let out_mask :=
    for_range 0 GRID_H (fun y =>
      for_range 0 GRID_W (fun x m =>
        arr2_set m y x (arr_get false full_row y || arr_get false full_col x)))
      out_mask in
  (out_mask, lines).

Definition blockblaster_count_cells_in_mask (gr : Grid) (mask : list (list bool)) : Z :=
  for_range 0 GRID_H (fun y =>
    for_range 0 GRID_W (fun x c =>
      if arr2_get false mask y x && arr2_get false (occ gr) y x then c + 1 else c)) 0.

Definition blockblaster_apply_clear_mask (gr : Grid) (mask : list (list bool)) : Grid :=
  for_range 0 GRID_H (fun y =>
    for_range 0 GRID_W (fun x gr =>
      if arr2_get false mask y x then
        {| occ := arr2_set (occ gr) y x false;
           cell_theme := cell_theme gr;
           has_theme := arr2_set (has_theme gr) y x false |}
      else gr)) gr.
End GridEngine.

(** ** The shape table ([blockblaster_shapes.h]) *)

Definition SHAPES : list Shape :=
  [
    mkShape 1 1 [[true]] "1";
    mkShape 1 1 [[true]] "1";
    mkShape 1 1 [[true]] "1";
    mkShape 1 1 [[true]] "1";
    mkShape 2 1 [[true; true]] "I2";
    mkShape 2 1 [[true; true]] "I2";
    mkShape 2 1 [[true; true]] "I2";
    mkShape 2 1 [[true; true]] "I2";
    mkShape 1 2 [[true]; [true]] "V2";
    mkShape 1 2 [[true]; [true]] "V2";
    mkShape 1 2 [[true]; [true]] "V2";
    mkShape 1 2 [[true]; [true]] "V2";
    mkShape 3 1 [[true; true; true]] "I3";
    mkShape 3 1 [[true; true; true]] "I3";
    mkShape 3 1 [[true; true; true]] "I3";
    mkShape 3 1 [[true; true; true]] "I3";
    mkShape 1 3 [[true]; [true]; [true]] "V3";
    mkShape 1 3 [[true]; [true]; [true]] "V3";
    mkShape 1 3 [[true]; [true]; [true]] "V3";
    mkShape 1 3 [[true]; [true]; [true]] "V3";
    mkShape 2 2 [[true; false]; [false; true]] "D\2";
    mkShape 2 2 [[true; false]; [false; true]] "D\2";
    mkShape 2 2 [[false; true]; [true; false]] "D/2";
    mkShape 2 2 [[false; true]; [true; false]] "D/2";
    mkShape 2 2 [[true; false]; [true; true]] "L2";
    mkShape 2 2 [[false; true]; [true; true]] "J2";
    mkShape 2 2 [[true; true]; [true; true]] "O2";
    mkShape 3 2 [[true; false; false]; [true; true; true]] "L3a";
    mkShape 2 3 [[true; true]; [true; false]; [true; false]] "L3b";
    mkShape 3 2 [[false; false; true]; [true; true; true]] "J3a";
    mkShape 2 3 [[true; true]; [false; true]; [false; true]] "J3b";
    mkShape 3 2 [[true; true; true]; [false; true; false]] "T";
    mkShape 3 2 [[false; true; false]; [true; true; true]] "T_flip";
    mkShape 2 3 [[false; true]; [true; true]; [false; true]] "T_left";
    mkShape 2 3 [[true; false]; [true; true]; [true; false]] "T_right";
    mkShape 3 2 [[true; true; false]; [false; true; true]] "S";
    mkShape 2 3 [[false; true]; [true; true]; [true; false]] "SV";
    mkShape 3 2 [[false; true; true]; [true; true; false]] "Z";
    mkShape 2 3 [[true; false]; [true; true]; [false; true]] "ZV";
    mkShape 3 2 [[true; true; true]; [true; false; false]] "C3a";
    mkShape 3 2 [[true; true; true]; [false; false; true]] "C3c";
    mkShape 4 1 [[true; true; true; true]] "I4";
    mkShape 1 4 [[true]; [true]; [true]; [true]] "V4";
    mkShape 3 3 [[true; false; false]; [true; false; false]; [true; true; true]] "L4";
    mkShape 3 3 [[false; false; true]; [false; false; true]; [true; true; true]] "J4";
    mkShape 3 3 [[true; true; true]; [false; true; false]; [false; true; false]] "T4";
    mkShape 3 3 [[false; true; false]; [false; true; false]; [true; true; true]] "T4R";
    mkShape 3 2 [[true; false; true]; [true; true; true]] "U3x2";
    mkShape 3 2 [[true; true; true]; [true; false; true]] "U3x2_flip";
    mkShape 2 3 [[true; true]; [true; false]; [true; true]] "U2x3_right";
    mkShape 2 3 [[true; true]; [false; true]; [true; true]] "U2x3_left";
    mkShape 3 2 [[true; true; true]; [true; true; true]] "R3x2";
    mkShape 2 3 [[true; true]; [true; true]; [true; true]] "R2x3";
    mkShape 3 3 [[false; true; false]; [true; true; true]; [false; true; false]] "Plus";
    mkShape 3 3 [[true; true; true]; [true; true; true]; [true; true; true]] "O3";
    mkShape 3 3
      [[true; false; false]; [false; true; false]; [false; false; true]] "D\3";
    mkShape 3 3
      [[false; false; true]; [false; true; false]; [true; false; false]] "D/3";
    mkShape 5 1 [[true; true; true; true; true]] "I5";
    mkShape 1 5 [[true]; [true]; [true]; [true]; [true]] "V5";
    mkShape 4 4
      [[true; false; false; false]; [false; true; false; false];
       [false; false; true; false]; [false; false; false; true]] "D\4";
    mkShape 4 4
      [[false; false; false; true]; [false; false; true; false];
       [false; true; false; false]; [true; false; false; false]] "D/4"
  ].

Definition SHAPES_COUNT : Z := Eval cbv in Z.of_nat (length SHAPES).

(** [SHAPES[i]]. *)
Definition shape_at (i : Z) : Shape := arr_get (mkShape 0 0 [] "") SHAPES i.

(** The number of filled cells of a shape, counted as
    [blockblaster_try_drop] counts [placed_cells]. *)
Definition shape_filled_cells (s : Shape) : Z :=
  for_range 0 (h s) (fun sy =>
    for_range 0 (w s) (fun sx n =>
      if negb (blockblaster_shape_cell s sx sy) then n else n + 1)) 0.

(** ** Game constants ([blockblaster_context.h]) *)

Definition DIFFICULTY_MAX_SCORE : Z := 75000.
(** [0.01f] and [0.5f]: a correctly rounded quotient is the literal. *)
Definition MIN_DIFFICULTY_WEIGHT : F32.float := F32.div (F32.of_Z 1) (F32.of_Z 100).
Definition half : F32.float := F32.div (F32.of_Z 1) (F32.of_Z 2).
Definition BAG_SIZE : Z := 24.
Definition SCORE_PER_PLACED_CELL : Z := 1.
Definition SCORE_PER_CLEARED_CELL : Z := 10.
Definition SCORE_PER_LINE_BONUS : Z := 25.
Definition SCORE_MULTI_LINE_BONUS : Z := 50.
(** [20.0f]. *)
Definition MAX_MULTIPLIER : F32.float := F32.of_Z 20.
Definition MAX_HIGH_SCORES : Z := 5.
Definition MAX_PLAYER_NAME_LEN : Z := 5.
Definition PIECES_PER_SET_MAX : Z := 4.

(** ** The game context ([blockblaster_context.h]) *)

Record HighScoreEntry : Type := mkEntry {
  hs_grid_w : Z;
  hs_grid_h : Z;
  hs_tray_count : Z;
  hs_score : Z;
  hs_highest_combo : Z;
  hs_name : string
}.

(** An entry after [memset(.., 0, ..)]. *)
Definition entry_zero : HighScoreEntry := mkEntry 0 0 0 0 0 "".

(** The fields of [GameContext] that the embedded functions read or
    write; the grid is passed on its own, as the grid functions take it. *)
Record GameContext : Type := mkContext {
  score : Z;
  high_score : Z;
  combo : Z;
  highest_combo : Z;
  last_move_mult : F32.float;
  combo_miss : Z;
  high_scores : list HighScoreEntry;
  high_score_count : Z;
  bag : list Z;
  bag_len : Z;
  bag_pos : Z
}.

Definition set_score (gm : GameContext) (v : Z) : GameContext :=
  mkContext v (high_score gm) (combo gm) (highest_combo gm) (last_move_mult gm)
    (combo_miss gm) (high_scores gm) (high_score_count gm) (bag gm) (bag_len gm)
    (bag_pos gm).
Definition set_high_score (gm : GameContext) (v : Z) : GameContext :=
  mkContext (score gm) v (combo gm) (highest_combo gm) (last_move_mult gm)
    (combo_miss gm) (high_scores gm) (high_score_count gm) (bag gm) (bag_len gm)
    (bag_pos gm).
Definition set_combo (gm : GameContext) (v : Z) : GameContext :=
  mkContext (score gm) (high_score gm) v (highest_combo gm) (last_move_mult gm)
    (combo_miss gm) (high_scores gm) (high_score_count gm) (bag gm) (bag_len gm)
    (bag_pos gm).
Definition set_highest_combo (gm : GameContext) (v : Z) : GameContext :=
  mkContext (score gm) (high_score gm) (combo gm) v (last_move_mult gm)
    (combo_miss gm) (high_scores gm) (high_score_count gm) (bag gm) (bag_len gm)
    (bag_pos gm).
Definition set_last_move_mult (gm : GameContext) (v : F32.float) : GameContext :=
  mkContext (score gm) (high_score gm) (combo gm) (highest_combo gm) v
    (combo_miss gm) (high_scores gm) (high_score_count gm) (bag gm) (bag_len gm)
    (bag_pos gm).
Definition set_combo_miss (gm : GameContext) (v : Z) : GameContext :=
  mkContext (score gm) (high_score gm) (combo gm) (highest_combo gm)
    (last_move_mult gm) v (high_scores gm) (high_score_count gm) (bag gm)
    (bag_len gm) (bag_pos gm).
Definition set_high_scores (gm : GameContext) (v : list HighScoreEntry) : GameContext :=
  mkContext (score gm) (high_score gm) (combo gm) (highest_combo gm)
    (last_move_mult gm) (combo_miss gm) v (high_score_count gm) (bag gm)
    (bag_len gm) (bag_pos gm).
Definition set_high_score_count (gm : GameContext) (v : Z) : GameContext :=
  mkContext (score gm) (high_score gm) (combo gm) (highest_combo gm)
    (last_move_mult gm) (combo_miss gm) (high_scores gm) v (bag gm) (bag_len gm)
    (bag_pos gm).
Definition set_bag (gm : GameContext) (v : list Z) : GameContext :=
  mkContext (score gm) (high_score gm) (combo gm) (highest_combo gm)
    (last_move_mult gm) (combo_miss gm) (high_scores gm) (high_score_count gm) v
    (bag_len gm) (bag_pos gm).
Definition set_bag_len (gm : GameContext) (v : Z) : GameContext :=
  mkContext (score gm) (high_score gm) (combo gm) (highest_combo gm)
    (last_move_mult gm) (combo_miss gm) (high_scores gm) (high_score_count gm)
    (bag gm) v (bag_pos gm).
Definition set_bag_pos (gm : GameContext) (v : Z) : GameContext :=
  mkContext (score gm) (high_score gm) (combo gm) (highest_combo gm)
    (last_move_mult gm) (combo_miss gm) (high_scores gm) (high_score_count gm)
    (bag gm) (bag_len gm) v.

(** ** Scoring ([blockblaster_score_move]) *)

(** What a call hands back: the return value and the two out-parameters. *)
Record MoveResult : Type := mkMove {
  gained_total : Z;
  out_clear_gain : Z;
  out_mult : F32.float
}.

(** The branch taken when [lines_cleared > 0]; it yields the context, the
    new [gained_total], [clear_gain] and [mult]. *)
Definition score_clearing (gm : GameContext) (gained_total lines_cleared
    cleared_cells : Z) : option (GameContext * Z * Z * F32.float) :=
  c ← int_add (combo gm) lines_cleared;
  let gm := set_combo gm c in
  let gm := if combo gm >? highest_combo gm then set_highest_combo gm (combo gm)
            else gm in
  let gm := set_combo_miss gm 0 in
  let mult := F32.add F32.one (F32.of_Z (combo gm)) in
  let mult := if F32.gt mult MAX_MULTIPLIER then MAX_MULTIPLIER else mult in
  base_clear ← int_mul cleared_cells SCORE_PER_CLEARED_CELL;
  line_bonus ← int_mul lines_cleared SCORE_PER_LINE_BONUS;
  multi_bonus ← (if lines_cleared >? 1
                 then d ← int_sub lines_cleared 1; int_mul SCORE_MULTI_LINE_BONUS d
                 else Some 0);
  t ← int_add base_clear line_bonus;
  subtotal ← int_add t multi_bonus;
  clear_gain ← F32.to_int (F32.roundf (F32.mul (F32.of_Z subtotal) mult));
  gained_total ← int_add gained_total clear_gain;
  Some (gm, gained_total, clear_gain, mult).

(** The branch taken when no line was cleared. *)
Definition score_missing (gm : GameContext) (gained_total : Z)
    : option (GameContext * Z * Z * F32.float) :=
  if combo gm >? 0 then
    cm ← int_add (combo_miss gm) 1;
    let gm := set_combo_miss gm cm in
    if combo_miss gm >? 3 then
      let gm := set_combo gm 0 in
      let gm := set_combo_miss gm 0 in
      let gm := set_last_move_mult gm F32.one in
      Some (gm, gained_total, 0, F32.one)
    else
      Some (gm, gained_total, 0, last_move_mult gm)
  else
    let gm := set_last_move_mult gm F32.one in
    Some (gm, gained_total, 0, F32.one).

Definition blockblaster_score_move (gm : GameContext)
    (placed_cells lines_cleared cleared_cells : Z) : option (GameContext * MoveResult) :=
  let gained_total := 0 in
  place_gain ← int_mul placed_cells SCORE_PER_PLACED_CELL;
  gained_total ← int_add gained_total place_gain;
  '(gm, gained_total, clear_gain, mult) ←
    (if lines_cleared >? 0
     then score_clearing gm gained_total lines_cleared cleared_cells
     else score_missing gm gained_total);
  let gm := set_last_move_mult gm mult in
  s ← long_add (score gm) gained_total;
  let gm := set_score gm s in
  let gm := if score gm >? high_score gm then set_high_score gm (score gm) else gm in
  Some (gm, mkMove gained_total clear_gain mult).

(** ** Random numbers and the bag randomizer *)

Section Randomizer.
(** The state of the C library's generator, [rand()] and [RAND_MAX]. *)
Variable RNG : Type.
Variable rand : RNG -> Z * RNG.
Variable RAND_MAX : Z.

(** The width [b - a + 1] is an [int] in C: a call whose width does not
    fit one is undefined there and outside the model.  The program calls
    the function on widths bounded by the sizes of its arrays. *)
Definition blockblaster_irand (a b : Z) (rng : RNG) : Z * RNG :=
  if b <=? a then (a, rng)
  else let '(v, rng) := rand rng in (a + Z.rem v (b - a + 1), rng).

Definition blockblaster_frand01 (rng : RNG) : F32.float * RNG :=
  let '(v, rng) := rand rng in
  (F32.div (F32.of_Z v) (F32.of_Z RAND_MAX), rng).

Definition blockblaster_frand (a b : F32.float) (rng : RNG) : F32.float * RNG :=
  let '(u, rng) := blockblaster_frand01 rng in
  (F32.add a (F32.mul (F32.sub b a) u), rng).

Definition blockblaster_shuffle_ints (a : list Z) (n : Z) (rng : RNG) : list Z * RNG :=
  for_down (n - 1) 0 (fun i '(a, rng) =>
    let '(j, rng) := blockblaster_irand 0 i rng in
    let tmp := arr_get 0 a i in
    let a := arr_set a i (arr_get 0 a j) in
    let a := arr_set a j tmp in
    (a, rng)) (a, rng).

(** The weight of shape [i] at difficulty [t]. *)
Definition shape_weight (t : F32.float) (i : Z) : F32.float :=
  let d := if SHAPES_COUNT >? 1
           then F32.div (F32.of_Z i) (F32.of_Z (SHAPES_COUNT - 1))
           else half in
  F32.add MIN_DIFFICULTY_WEIGHT
    (F32.mul (F32.sub F32.one MIN_DIFFICULTY_WEIGHT)
       (F32.add (F32.mul (F32.sub F32.one d) (F32.sub F32.one t)) (F32.mul d t))).

(** The second loop of [weighted_shape_index]: [Some i] is [return i]. *)
Fixpoint pick_loop (n : nat) (i : Z) (weights : list F32.float)
    (r acc : F32.float) : option Z :=
  match n with
  | O => None
  | S n' =>
      let acc := F32.add acc (arr_get F32.zero weights i) in
      if F32.lt r acc then Some i else pick_loop n' (i + 1) weights r acc
  end.

(** [score] is the [int] parameter. *)
Definition weighted_shape_index (score : Z) (rng : RNG) : Z * RNG :=
  let t := F32.div (F32.of_Z score) (F32.of_Z DIFFICULTY_MAX_SCORE) in
  let t := if F32.lt t F32.zero then F32.zero else t in
  let t := if F32.gt t F32.one then F32.one else t in
  let weights := arr_make 128 F32.zero in
  let total := F32.zero in
  let '(weights, total) :=
    for_range 0 SHAPES_COUNT (fun i '(weights, total) =>
      let w := shape_weight t i in
      (arr_set weights i w, F32.add total w)) (weights, total) in
  let '(r, rng) := blockblaster_frand F32.zero total rng in
  match pick_loop (Z.to_nat SHAPES_COUNT) 0 weights r F32.zero with
  | Some i => (i, rng)
  | None => (SHAPES_COUNT - 1, rng)
  end.

(** [gm->score] is a [long], converted for the [int] parameter of
    [weighted_shape_index]. *)
Definition bag_refill (gm : GameContext) (rng : RNG) : GameContext * RNG :=
  let gm := set_bag_len gm BAG_SIZE in
  let '(gm, rng) :=
    for_range 0 (bag_len gm) (fun i '(gm, rng) =>
      let '(idx, rng) := weighted_shape_index (long_to_int (score gm)) rng in
      (set_bag gm (arr_set (bag gm) i idx), rng)) (gm, rng) in
  let '(shuffled, rng) := blockblaster_shuffle_ints (bag gm) (bag_len gm) rng in
  let gm := set_bag gm shuffled in
  let gm := set_bag_pos gm 0 in
  (gm, rng).

(** [return gm->bag[gm->bag_pos++]], after the refill if there is one. *)
Definition bag_draw (gm : GameContext) : Z * GameContext :=
  (arr_get 0 (bag gm) (bag_pos gm), set_bag_pos gm (bag_pos gm + 1)).

Definition bag_exhausted (gm : GameContext) : bool :=
  (bag_len gm <=? 0) || (bag_pos gm >=? bag_len gm).

Definition bag_next_shape_index (gm : GameContext) (rng : RNG)
    : Z * GameContext * RNG :=
  let '(gm, rng) := if bag_exhausted gm then bag_refill gm rng else (gm, rng) in
  let '(idx, gm) := bag_draw gm in
  (idx, gm, rng).

(** [n] draws in a row: the indices drawn, the context and the generator. *)
Fixpoint bag_draws (n : nat) (gm : GameContext) (rng : RNG)
    : list Z * GameContext * RNG :=
  match n with
  | O => ([], gm, rng)
  | S n' =>
      let '(idx, gm, rng) := bag_next_shape_index gm rng in
      let '(l, gm, rng) := bag_draws n' gm rng in
      (idx :: l, gm, rng)
  end.
End Randomizer.

(** ** The high-score table *)

(** [snprintf(dst, size, "%s", src)]: at most [size - 1] characters. *)
Definition snprintf_s (size : Z) (src : string) : string :=
  String.substring 0 (Z.to_nat (size - 1)) src.

Section HighScores.
Variables GRID_W GRID_H PIECES_PER_SET : Z.

Definition blockblaster_insert_high_score (gm : GameContext) (score combo : Z)
    (name : string) : GameContext :=
  let pos :=
    match find_range 0 (high_score_count gm) (fun i =>
            score >? hs_score (arr_get entry_zero (high_scores gm) i)) with
    | Some i => i
    | None => high_score_count gm
    end in
  if pos >=? MAX_HIGH_SCORES then gm
  else
    let new_count := high_score_count gm + 1 in
    let new_count := if new_count >? MAX_HIGH_SCORES then MAX_HIGH_SCORES
                     else new_count in
    let hs :=
      for_down (new_count - 1) pos (fun i hs =>
        arr_set hs i (arr_get entry_zero hs (i - 1))) (high_scores gm) in
    let hs :=
      arr_set hs pos
        (mkEntry GRID_W GRID_H PIECES_PER_SET score combo
           (snprintf_s (MAX_PLAYER_NAME_LEN + 1) name)) in
    let gm := set_high_scores gm hs in
    let gm := set_high_score_count gm new_count in
    set_high_score gm (hs_score (arr_get entry_zero (high_scores gm) 0)).
End HighScores.

(** The scores of the valid entries, in table order. *)
Definition table_scores (gm : GameContext) : list Z :=
  map hs_score (take (Z.to_nat (high_score_count gm)) (high_scores gm)).

(** ** Files and [fscanf] *)

Definition SAVE_DIR : string := "./DATA/".
Definition HIGHSCORE_FILENAME : string := "blockblaster_highscore.txt".
Definition SCORES_FILENAME : string := "blockblaster_scores.txt".
Definition SETTINGS_FILENAME : string := "blockblaster_settings.txt".

(** [fopen(path, "r")] on a save directory [fs]: the text still to read,
    or [None] when there is no such file. *)
Definition fopen_r (fs : gmap string string) (path : string) : option string :=
  fs !! path.

Definition is_space (c : ascii) : bool :=
  let n := Z.of_N (N_of_ascii c) in (n =? 32) || ((9 <=? n) && (n <=? 13)).

Definition digit_of (c : ascii) : option Z :=
  let n := Z.of_N (N_of_ascii c) in
  if (48 <=? n) && (n <=? 57) then Some (n - 48) else None.

Fixpoint skip_space (s : string) : string :=
  match s with
  | String c s' => if is_space c then skip_space s' else s
  | EmptyString => s
  end.

Fixpoint scan_digits (s : string) (acc : Z) : Z * string :=
  match s with
  | String c s' =>
      match digit_of c with
      | Some d => scan_digits s' (10 * acc + d)
      | None => (acc, s)
      end
  | EmptyString => (acc, s)
  end.

(** Digits, at least one. *)
Definition scan_unsigned (s : string) : option (Z * string) :=
  match s with
  | String c _ =>
      match digit_of c with
      | Some _ => Some (scan_digits s 0)
      | None => None
      end
  | EmptyString => None
  end.

(** The directives [%d] and [%ld]: blanks, a sign, digits.  The result is
    the number written.  For a number that does not fit the C type the
    conversion is undefined in C, and the value the program stores is
    outside the model: the properties that depend on a value read from a
    file take it in the range of its type, or hold for every value. *)
Definition scan_int (s : string) : option (Z * string) :=
  match skip_space s with
  | String "-"%char s' =>
      match scan_unsigned s' with
      | Some (v, rest) => Some (- v, rest)
      | None => None
      end
  | String "+"%char s' => scan_unsigned s'
  | s' => scan_unsigned s'
  end.

Fixpoint scan_word (width : nat) (s : string) : string * string :=
  match width, s with
  | S n, String c s' =>
      if is_space c then (EmptyString, s)
      else let '(word, rest) := scan_word n s' in (String c word, rest)
  | _, _ => (EmptyString, s)
  end.

(** The directive [%<width>s]: blanks, then up to [width] other characters. *)
Definition scan_str (width : nat) (s : string) : option (string * string) :=
  match skip_space s with
  | EmptyString => None
  | s' => Some (scan_word width s')
  end.

Inductive conv : Type := Cint | Cstr (width : nat).
Inductive value : Type := Vint (z : Z) | Vstr (s : string).

Definition scan_conv (c : conv) (s : string) : option (value * string) :=
  match c with
  | Cint => '(z, rest) ← scan_int s; Some (Vint z, rest)
  | Cstr width => '(word, rest) ← scan_str width s; Some (Vstr word, rest)
  end.

(** The conversions made, in order, up to the first that fails. *)
Fixpoint scan_convs (fmt : list conv) (s : string) : list value * string :=
  match fmt with
  | [] => ([], s)
  | c :: fmt' =>
      match scan_conv c s with
      | Some (v, rest) =>
          let '(vs, rest') := scan_convs fmt' rest in (v :: vs, rest')
      | None => ([], s)
      end
  end.

(** [fscanf]: its return value ([EOF] is [-1]), the values stored and the
    text left. *)
Definition fscanf (fmt : list conv) (s : string) : Z * list value * string :=
  let '(vs, rest) := scan_convs fmt s in
  let ret := match vs, skip_space s with
             | [], EmptyString => -1
             | _, _ => Z.of_nat (length vs)
             end in
  (ret, vs, rest).

(** The variable behind the [k]-th pointer after the call: the value
    stored there, or its old value when that conversion was not made. *)
Definition int_arg (k : nat) (vs : list value) (old : Z) : Z :=
  match vs !! k with Some (Vint z) => z | _ => old end.
Definition str_arg (k : nat) (vs : list value) (old : string) : string :=
  match vs !! k with Some (Vstr s) => s | _ => old end.

(** ** Settings ([blockblaster_load_settings], desktop branch) *)

Definition blockblaster_load_settings (fs : gmap string string) : Z * Z :=
  let tray_count := 4 in
  let grid_size := 10 in
  match fopen_r fs (SAVE_DIR +:+ SETTINGS_FILENAME) with
  | None => (tray_count, grid_size)
  | Some f =>
      let tc := 4 in
      let gs := 10 in
      let '(n, vs, _) := fscanf [Cint; Cint] f in
      let tc := int_arg 0 vs tc in
      let gs := int_arg 1 vs gs in
      let '(tray_count, grid_size) :=
        if n >=? 2 then (tc, gs) else (tray_count, grid_size) in
      let tray_count := if tray_count <? 1 then 1 else tray_count in
      let tray_count := if tray_count >? 4 then 4 else tray_count in
      let grid_size :=
        if negb (grid_size =? 10) && negb (grid_size =? 15) && negb (grid_size =? 20)
        then 10 else grid_size in
      (tray_count, grid_size)
  end.

(** ** High scores on disk ([blockblaster_load_high_scores], desktop branch) *)

Definition set_entry (hs : list HighScoreEntry) (i : Z)
    (f : HighScoreEntry -> HighScoreEntry) : list HighScoreEntry :=
  arr_set hs i (f (arr_get entry_zero hs i)).

Definition with_dims (gw gh tc : Z) (e : HighScoreEntry) : HighScoreEntry :=
  mkEntry gw gh tc (hs_score e) (hs_highest_combo e) (hs_name e).
Definition with_score (v : Z) (e : HighScoreEntry) : HighScoreEntry :=
  mkEntry (hs_grid_w e) (hs_grid_h e) (hs_tray_count e) v (hs_highest_combo e)
    (hs_name e).
Definition with_highest_combo (v : Z) (e : HighScoreEntry) : HighScoreEntry :=
  mkEntry (hs_grid_w e) (hs_grid_h e) (hs_tray_count e) (hs_score e) v (hs_name e).
Definition with_name (v : string) (e : HighScoreEntry) : HighScoreEntry :=
  mkEntry (hs_grid_w e) (hs_grid_h e) (hs_tray_count e) (hs_score e)
    (hs_highest_combo e) v.

(** The loop over the lines of the scores file; it stops at the first line
    that fits neither format. *)
Fixpoint load_entries (n : nat) (i : Z) (hs : list HighScoreEntry) (f : string)
    : list HighScoreEntry :=
  match n with
  | O => hs
  | S n' =>
      let name := EmptyString in
      let saved_pos := f in
      let '(k, vs, f) := fscanf [Cint; Cint; Cint; Cint; Cint; Cstr 5] f in
      let gw := int_arg 0 vs 10 in
      let gh := int_arg 1 vs 10 in
      let tc := int_arg 2 vs 4 in
      let hs := set_entry hs i (fun e => with_score (int_arg 3 vs (hs_score e)) e) in
      let hs := set_entry hs i (fun e =>
                  with_highest_combo (int_arg 4 vs (hs_highest_combo e)) e) in
      let name := str_arg 5 vs name in
      if k >=? 6 then
        let hs := set_entry hs i (with_dims gw gh tc) in
        let hs := set_entry hs i (with_name (snprintf_s (MAX_PLAYER_NAME_LEN + 1) name)) in
        load_entries n' (i + 1) hs f
      else
        let f := saved_pos in
        let '(k, vs, f) := fscanf [Cint; Cint; Cstr 5] f in
        let hs := set_entry hs i (fun e => with_score (int_arg 0 vs (hs_score e)) e) in
        let hs := set_entry hs i (fun e =>
                    with_highest_combo (int_arg 1 vs (hs_highest_combo e)) e) in
        let name := str_arg 2 vs name in
        if k <? 2 then hs
        else
          let hs := set_entry hs i (with_dims 10 10 4) in
          let hs := set_entry hs i (with_name (snprintf_s (MAX_PLAYER_NAME_LEN + 1) name)) in
          load_entries n' (i + 1) hs f
  end.

(** The code after the label [done]: the derived best score, then the
    clamping of every valid entry. *)
Definition load_done (gm : GameContext) : GameContext :=
  let gm := if high_score_count gm >? 0
            then set_high_score gm (hs_score (arr_get entry_zero (high_scores gm) 0))
            else gm in
  for_range 0 (high_score_count gm) (fun i gm =>
    let e := arr_get entry_zero (high_scores gm) i in
    let gm := if hs_score e <? 0
              then set_high_scores gm (set_entry (high_scores gm) i (with_score 0))
              else gm in
    let e := arr_get entry_zero (high_scores gm) i in
    let gm := if hs_highest_combo e <? 0
              then set_high_scores gm (set_entry (high_scores gm) i (with_highest_combo 0))
              else gm in
    let e := arr_get entry_zero (high_scores gm) i in
    if String.eqb (hs_name e) EmptyString
    then set_high_scores gm (set_entry (high_scores gm) i (with_name "PLAYR"))
    else gm) gm.

Definition blockblaster_load_high_scores (gm : GameContext) (fs : gmap string string)
    : GameContext :=
  let gm := set_high_score_count gm 0 in
  let gm := set_high_scores gm (arr_make MAX_HIGH_SCORES entry_zero) in
  let gm := set_high_score gm 0 in
  match fopen_r fs (SAVE_DIR +:+ SCORES_FILENAME) with
  | None =>
      (* the legacy single-score file *)
      match fopen_r fs (SAVE_DIR +:+ HIGHSCORE_FILENAME) with
      | None => gm
      | Some f =>
          let '(k, vs, _) := fscanf [Cint; Cint] f in
          let hs := int_arg 0 vs 0 in
          let hc := int_arg 1 vs 0 in
          let gm :=
            if k >=? 1 then
              let gm := set_high_score_count gm 1 in
              let gm := set_high_scores gm (set_entry (high_scores gm) 0 (with_score hs)) in
              let gm := set_high_scores gm
                          (set_entry (high_scores gm) 0 (with_highest_combo hc)) in
              set_high_scores gm
                (set_entry (high_scores gm) 0
                   (with_name (snprintf_s (MAX_PLAYER_NAME_LEN + 1) "PLAYR")))
            else gm in
          load_done gm
      end
  | Some f =>
      let '(k, vs, f) := fscanf [Cint] f in
      let count := int_arg 0 vs 0 in
      if negb (k =? 1) then gm
      else
        let count := if count <? 0 then 0 else count in
        let count := if count >? MAX_HIGH_SCORES then MAX_HIGH_SCORES else count in
        let gm := set_high_score_count gm count in
        let gm := set_high_scores gm
                    (load_entries (Z.to_nat count) 0 (high_scores gm) f) in
        load_done gm
  end.

(** ** Vocabulary of the grid properties *)

(** The cell [(x, y)] lies in the current grid. *)
Definition in_grid (GRID_W GRID_H x y : Z) : Prop :=
  0 <= x < GRID_W /\ 0 <= y < GRID_H.

(** The three arrays of a grid, read at column [x] of row [y]. *)
Definition occupied (gr : Grid) (x y : Z) : bool := arr2_get false (occ gr) y x.
Definition theme_at (gr : Grid) (x y : Z) : Theme :=
  arr2_get theme_zero (cell_theme gr) y x.
Definition themed (gr : Grid) (x y : Z) : bool := arr2_get false (has_theme gr) y x.

(** Every filled cell of [s], moved by [(gx, gy)], lies in the grid and on
    a free cell of [gr]. *)
Definition fits (GRID_W GRID_H : Z) (gr : Grid) (s : Shape) (gx gy : Z) : Prop :=
  forall sx sy, blockblaster_shape_cell s sx sy = true ->
    in_grid GRID_W GRID_H (gx + sx) (gy + sy) /\
    occupied gr (gx + sx) (gy + sy) = false.

(** [s] at [(gx, gy)] covers the cell [(x, y)] of the grid. *)
Definition covers (GRID_W GRID_H : Z) (s : Shape) (gx gy x y : Z) : Prop :=
  in_grid GRID_W GRID_H x y /\ blockblaster_shape_cell s (x - gx) (y - gy) = true.

(** What stamping [s] at [(gx, gy)] may do to a grid: each cell of each
    array is either as before or covered by the shape and stamped, and no
    array changes its dimensions. *)
Definition stamp_of (GRID_W GRID_H : Z) (s : Shape) (gx gy : Z) (theme : Theme)
    (gr gr' : Grid) : Prop :=
  (forall x y,
     (occupied gr' x y = occupied gr x y \/
      (covers GRID_W GRID_H s gx gy x y /\ occupied gr' x y = true)) /\
     (theme_at gr' x y = theme_at gr x y \/
      (covers GRID_W GRID_H s gx gy x y /\ theme_at gr' x y = theme)) /\
     (themed gr' x y = themed gr x y \/
      (covers GRID_W GRID_H s gx gy x y /\ themed gr' x y = true))) /\
  (forall hh ww, arr2_dims hh ww (occ gr) -> arr2_dims hh ww (occ gr')) /\
  (forall hh ww, arr2_dims hh ww (cell_theme gr) -> arr2_dims hh ww (cell_theme gr')) /\
  (forall hh ww, arr2_dims hh ww (has_theme gr) -> arr2_dims hh ww (has_theme gr')).

(** An empty grid and a theme, for the examples. *)
Definition grid_empty : Grid :=
  mkGrid (arr2_make GRID_H_MAX GRID_W_MAX false)
         (arr2_make GRID_H_MAX GRID_W_MAX theme_zero)
         (arr2_make GRID_H_MAX GRID_W_MAX false).
Definition theme_white : Theme :=
  let c := mkColor F32.one F32.one F32.one F32.one in mkTheme c c.

(** ** Vocabulary of the clear-mask properties *)

(** The integers [i], [i + 1], ... ([n] of them), and those of [lo, hi). *)
Fixpoint range_list (n : nat) (i : Z) : list Z :=
  match n with
  | O => []
  | S n' => i :: range_list n' (i + 1)
  end.
Definition zrange (lo hi : Z) : list Z := range_list (Z.to_nat (hi - lo)) lo.

(** Row [y], or column [x], of the current grid is fully occupied. *)
Definition row_full (GRID_W : Z) (gr : Grid) (y : Z) : Prop :=
  forall x, 0 <= x < GRID_W -> occupied gr x y = true.
Definition col_full (GRID_H : Z) (gr : Grid) (x : Z) : Prop :=
  forall y, 0 <= y < GRID_H -> occupied gr x y = true.

(** The fully occupied rows and columns of the current grid, in order. *)
Definition full_rows (GRID_W GRID_H : Z) (gr : Grid) : list Z :=
  List.filter (is_row_full GRID_W (occ gr)) (zrange 0 GRID_H).
Definition full_cols (GRID_W GRID_H : Z) (gr : Grid) : list Z :=
  List.filter (is_col_full GRID_H (occ gr)) (zrange 0 GRID_W).

(** [cells] marked occupied on a grid, for the examples. *)
Definition occupy (cells : list (Z * Z)) (gr : Grid) : Grid :=
  fold_left (fun gr '(x, y) =>
    mkGrid (arr2_set (occ gr) y x true) (cell_theme gr) (has_theme gr)) cells gr.

(** A 10 x 10 position in which rows 2 and 5 and column 3 are full. *)
Definition grid_two_rows_one_col : Grid :=
  occupy (map (fun x => (x, 2)) (zrange 0 10) ++
          map (fun x => (x, 5)) (zrange 0 10) ++
          map (fun y => (3, y)) (zrange 0 10)) grid_empty.

(** ** Vocabulary of the scoring properties *)

(** A float that is not below zero: a zero, a NaN, or a number or an
    infinity with a clear sign bit. *)
Definition not_negative (x : F32.float) : Prop :=
  match x with
  | S754_finite s _ _ => s = false
  | S754_infinity s => s = false
  | _ => True
  end.

Definition int_range (z : Z) : Prop := INT_MIN <= z <= INT_MAX.
Definition long_range (z : Z) : Prop := LONG_MIN <= z <= LONG_MAX.

(** A move: [placed_cells], [lines_cleared] and [cleared_cells]. *)
Record Move : Type := mkMoveArgs {
  placed_cells : Z;
  lines_cleared : Z;
  cleared_cells : Z
}.

Definition move_nonneg (m : Move) : Prop :=
  0 <= placed_cells m /\ 0 <= lines_cleared m /\ 0 <= cleared_cells m.

(** The contexts observed after each of a sequence of moves. *)
Fixpoint play (gm : GameContext) (moves : list Move) : option (list GameContext) :=
  match moves with
  | [] => Some []
  | m :: moves' =>
      '(gm', _) ← blockblaster_score_move gm (placed_cells m) (lines_cleared m)
                    (cleared_cells m);
      trace ← play gm' moves';
      Some (gm' :: trace)
  end.

(** The largest of [z] and the scores of a trace. *)
Definition max_score (z : Z) (trace : list GameContext) : Z :=
  fold_right Z.max z (map score trace).

(** The context of a new session ([blockblaster_start_game] resets these
    fields), with an empty high-score table and an empty bag. *)
Definition context_start : GameContext :=
  mkContext 0 0 0 0 F32.one 0 (arr_make MAX_HIGH_SCORES entry_zero) 0
    (arr_make BAG_SIZE 0) 0 0.

(** A session with a combo of 3, whose last multiplier was 4. *)
Definition context_combo3 : GameContext :=
  set_last_move_mult (set_combo context_start 3) (F32.of_Z 4).

(** Three moves of a session: a clear, a miss and a double clear. *)
Definition moves_example : list Move :=
  [mkMoveArgs 3 1 10; mkMoveArgs 4 0 0; mkMoveArgs 5 2 20].

(** Two floats with the same representation. *)
Definition float_same (x y : F32.float) : bool :=
  match x, y with
  | S754_zero s, S754_zero s' => Bool.eqb s s'
  | S754_infinity s, S754_infinity s' => Bool.eqb s s'
  | S754_nan, S754_nan => true
  | S754_finite s m e, S754_finite s' m' e' =>
      Bool.eqb s s' && Pos.eqb m m' && Z.eqb e e'
  | _, _ => false
  end.

(** [mult] as the clearing branch computes it from the new combo. *)
Definition clear_mult (combo : Z) : F32.float :=
  let mult := F32.add F32.one (F32.of_Z combo) in
  if F32.gt mult MAX_MULTIPLIER then MAX_MULTIPLIER else mult.

(** The multiplier and the clear gain of section 4.4 of the specification,
    over the integers: [min(1 + combo, MAX_MULT)] and the bonus sum times
    the multiplier. *)
Definition ideal_mult (combo : Z) : Z := Z.min (1 + combo) 20.
Definition ideal_subtotal (lines cleared : Z) : Z :=
  cleared * SCORE_PER_CLEARED_CELL + lines * SCORE_PER_LINE_BONUS +
  (if lines >? 1 then SCORE_MULTI_LINE_BONUS * (lines - 1) else 0).

(** The checks behind the exactness of the float computations on the
    values a game can reach. *)
Definition mult_exact_on (combo : Z) : bool :=
  float_same (clear_mult combo) (F32.of_Z (ideal_mult combo)).
Definition gain_exact_on (subtotal m : Z) : bool :=
  match F32.to_int (F32.roundf (F32.mul (F32.of_Z subtotal) (F32.of_Z m))) with
  | Some z => z =? subtotal * m
  | None => false
  end.

(** ** Vocabulary of the persistence properties *)

Definition settings_path : string := SAVE_DIR +:+ SETTINGS_FILENAME.
Definition scores_path : string := SAVE_DIR +:+ SCORES_FILENAME.
Definition legacy_path : string := SAVE_DIR +:+ HIGHSCORE_FILENAME.

(** The settings file holds two integers, [tc] and [gs]. *)
Definition settings_parsed (fs : gmap string string) (tc gs : Z) : Prop :=
  exists f rest, fs !! settings_path = Some f /\
                 scan_convs [Cint; Cint] f = ([Vint tc; Vint gs], rest).

Definition valid_tray_count (tc : Z) : Prop := 1 <= tc <= 4.
Definition valid_grid_size (gs : Z) : Prop := gs = 10 \/ gs = 15 \/ gs = 20.

(** The settings claim as the specification words it: a parsed pair with
    an invalid component yields the pair (4, 10). *)
Definition settings_default_pair : Prop :=
  forall (fs : gmap string string) (tc gs : Z),
    settings_parsed fs tc gs ->
    ~ valid_tray_count tc \/ ~ valid_grid_size gs ->
    blockblaster_load_settings fs = (4, 10).

(** A save directory with one file. *)
Definition one_file (path content : string) : gmap string string :=
  {[ path := content ]}.

(** The shape table sorted by filled cells, as its header asks. *)
Definition shapes_sorted : Prop :=
  forall i j, 0 <= i -> i < j -> j < SHAPES_COUNT ->
    shape_filled_cells (shape_at i) <= shape_filled_cells (shape_at j).

(** ** Vocabulary of the bag properties *)

(** A linear congruential generator and its bound, standing for the C
    library's [rand()] and [RAND_MAX] in the examples. *)
Definition lcg_rand (seed : Z) : Z * Z :=
  let next := (seed * 1103515245 + 12345) mod 2147483648 in (next, next).
Definition LCG_RAND_MAX : Z := 2147483647.

(** A bag right after a refill. *)
Definition bag_fresh (gm : GameContext) : Prop :=
  bag_len gm = BAG_SIZE /\ bag_pos gm = 0.

(** ** Vocabulary of the high-score table properties *)

(** [gm->high_scores[i]]. *)
Definition entry_at (gm : GameContext) (i : Z) : HighScoreEntry :=
  arr_get entry_zero (high_scores gm) i.

(** The table invariant: at most [MAX_HIGH_SCORES] valid entries, in an
    array of that size, sorted by descending score. *)
Definition table_ok (gm : GameContext) : Prop :=
  0 <= high_score_count gm <= MAX_HIGH_SCORES /\
  Z.of_nat (length (high_scores gm)) = MAX_HIGH_SCORES /\
  (forall i j, 0 <= i -> i <= j -> j < high_score_count gm ->
     hs_score (entry_at gm j) <= hs_score (entry_at gm i)).

(** The scores [scores] inserted one after the other. *)
Definition insert_scores (GRID_W GRID_H PIECES_PER_SET : Z) (scores : list Z)
    (gm : GameContext) : GameContext :=
  fold_left (fun gm s =>
    blockblaster_insert_high_score GRID_W GRID_H PIECES_PER_SET gm s 0 "PLAYR")
    scores gm.

(** The moves a game can make on a grid of at most 20 x 20 cells with
    shapes of at most 25 cells, and the states from which [n] more such
    moves cannot overflow. *)
Definition move_in_game (m : Move) : Prop :=
  0 <= placed_cells m <= 25 /\ 0 <= lines_cleared m <= 40 /\
  0 <= cleared_cells m <= 400.
Definition moves_left (gm : GameContext) (n : Z) : Prop :=
  0 <= combo gm <= 100000 - 40 * n /\ 0 <= combo_miss gm <= 3 /\
  0 <= score gm <= 1000000000000 - 140025 * n.

(** ** More of the grid engine and the tray *)

Definition THEMES_COUNT : Z := 8.

(** A tray slot ([Piece] of [blockblaster_context.h]). *)
Record Piece : Type := mkPiece {
  shape : Shape;
  used : bool;
  theme : Theme
}.

(** The fields of [GameContext] behind the tray: the slots, the theme
    mode, the theme shared by a set and the palette. *)
Record TrayContext : Type := mkTray {
  tray : list Piece;
  theme_mode : Z;
  set_theme : Theme;
  theme_table : list Theme
}.

(** The fields of [GameContext] that hold the predicted clear. *)
Record Predicted : Type := mkPredicted {
  has_predicted_clear : bool;
  pred_full_row : list bool;
  pred_full_col : list bool
}.

Definition piece_zero : Piece := mkPiece (mkShape 0 0 [] "") false theme_zero.

Section Tray.
Variables GRID_W GRID_H PIECES_PER_SET : Z.

Definition blockblaster_tray_all_used (tr : list Piece) : bool :=
  all_range 0 PIECES_PER_SET (fun i => used (arr_get piece_zero tr i)).

(** [gr] is [gm->grid] and [tr] is [gm->tray]. *)
Definition blockblaster_none_placeable (gr : Grid) (tr : list Piece) : bool :=
  all_range 0 PIECES_PER_SET (fun i =>
    if used (arr_get piece_zero tr i) then true
    else if blockblaster_any_valid_placement GRID_W GRID_H gr
              (shape (arr_get piece_zero tr i))
         then false
         else true).

(** [blockblaster_compute_predicted_clear]: [temp] is the local array as
    the function finds it and [pr] the highlight fields of the context. *)
Definition blockblaster_compute_predicted_clear (gr : Grid) (p : Piece) (gx gy : Z)
    (temp : list (list bool)) (pr : Predicted) : Predicted :=
  let temp :=
    for_range 0 GRID_H (fun y =>
      for_range 0 GRID_W (fun x t =>
        arr2_set t y x (arr2_get false (occ gr) y x))) temp in
  let temp :=
    for_range 0 (h (shape p)) (fun sy =>
      for_range 0 (w (shape p)) (fun sx t =>
        if negb (blockblaster_shape_cell (shape p) sx sy) then t
        else
          let x := gx + sx in
          let y := gy + sy in
          if (x >=? 0) && (y >=? 0) && (x <? GRID_W) && (y <? GRID_H)
          then arr2_set t y x true
          else t)) temp in
  let pr := mkPredicted true (pred_full_row pr) (pred_full_col pr) in
  let pr :=
    for_range 0 GRID_H (fun y pr =>
      mkPredicted (has_predicted_clear pr)
        (arr_set (pred_full_row pr) y (is_row_full GRID_W temp y))
        (pred_full_col pr)) pr in
  for_range 0 GRID_W (fun x pr =>
    mkPredicted (has_predicted_clear pr) (pred_full_row pr)
      (arr_set (pred_full_col pr) x (is_col_full GRID_H temp x))) pr.

(** [blockblaster_clear_predicted]. *)
Definition blockblaster_clear_predicted (pr : Predicted) : Predicted :=
  let pr := mkPredicted false (pred_full_row pr) (pred_full_col pr) in
  let pr :=
    for_range 0 GRID_H (fun y pr =>
      mkPredicted (has_predicted_clear pr) (arr_set (pred_full_row pr) y false)
        (pred_full_col pr)) pr in
  for_range 0 GRID_W (fun x pr =>
    mkPredicted (has_predicted_clear pr) (pred_full_row pr)
      (arr_set (pred_full_col pr) x false)) pr.
End Tray.

Section RandomGrid.
Variable RNG : Type.
Variable rand : RNG -> Z * RNG.
Variable RAND_MAX : Z.
Variables GRID_W GRID_H PIECES_PER_SET : Z.

(** The loop of [blockblaster_random_fill]; [left] is the number of tries
    still allowed, [5000 - tries]. *)
Fixpoint random_fill_loop (left : nat) (gr : Grid) (count : Z) (rng : RNG)
    : Grid * RNG :=
  match left with
  | O => (gr, rng)
  | S left' =>
      if count >? 0 then
        let '(x, rng) := blockblaster_irand RNG rand 0 (GRID_W - 1) rng in
        let '(y, rng) := blockblaster_irand RNG rand 0 (GRID_H - 1) rng in
        if negb (arr2_get false (occ gr) y x) then
          random_fill_loop left'
            (mkGrid (arr2_set (occ gr) y x true) (cell_theme gr) (has_theme gr))
            (count - 1) rng
        else random_fill_loop left' gr count rng
      else (gr, rng)
  end.

Definition blockblaster_random_fill (gr : Grid) (count : Z) (rng : RNG) : Grid * RNG :=
  random_fill_loop 5000 gr count rng.

Definition blockblaster_random_theme (tc : TrayContext) (rng : RNG) : Theme * RNG :=
  let '(idx, rng) := blockblaster_irand RNG rand 0 (THEMES_COUNT - 1) rng in
  (arr_get theme_zero (theme_table tc) idx, rng).

Definition set_tray (tc : TrayContext) (v : list Piece) : TrayContext :=
  mkTray v (theme_mode tc) (set_theme tc) (theme_table tc).

(** The body of the loop of [blockblaster_refill_tray]. *)
Definition refill_slot (i : Z) (st : GameContext * TrayContext * RNG)
    : GameContext * TrayContext * RNG :=
  let '(gm, tc, rng) := st in
  let tc := set_tray tc
              (arr_set (tray tc) i
                 (mkPiece (shape (arr_get piece_zero (tray tc) i)) false
                    (theme (arr_get piece_zero (tray tc) i)))) in
  let '(si, gm, rng) := bag_next_shape_index RNG rand RAND_MAX gm rng in
  let tc := set_tray tc
              (arr_set (tray tc) i
                 (mkPiece (shape_at si) (used (arr_get piece_zero (tray tc) i))
                    (theme (arr_get piece_zero (tray tc) i)))) in
  if theme_mode tc =? 1 then
    let tc := set_tray tc
                (arr_set (tray tc) i
                   (mkPiece (shape (arr_get piece_zero (tray tc) i))
                      (used (arr_get piece_zero (tray tc) i)) (set_theme tc))) in
    (gm, tc, rng)
  else
    let '(th, rng) := blockblaster_random_theme tc rng in
    let tc := set_tray tc
                (arr_set (tray tc) i
                   (mkPiece (shape (arr_get piece_zero (tray tc) i))
                      (used (arr_get piece_zero (tray tc) i)) th)) in
    (gm, tc, rng).

Definition blockblaster_refill_tray (gm : GameContext) (tc : TrayContext) (rng : RNG)
    : GameContext * TrayContext * RNG :=
  let '(tc, rng) :=
    if theme_mode tc =? 1 then
      let '(th, rng) := blockblaster_random_theme tc rng in
      (mkTray (tray tc) (theme_mode tc) th (theme_table tc), rng)
    else (tc, rng) in
  for_range 0 PIECES_PER_SET refill_slot (gm, tc, rng).
End RandomGrid.

(** A tray of one used piece and one that is still offered, both the 3 x 3
    square, for the examples. *)
Definition tray_example : list Piece :=
  [mkPiece (shape_at 54) true theme_white; mkPiece (shape_at 54) false theme_white].

(** ** Float helpers *)

(** [blockblaster_clampf]. *)
Definition blockblaster_clampf (v lo hi : F32.float) : F32.float :=
  if F32.lt v lo then lo else if F32.gt v hi then hi else v.

(** [a <= b] on floats, false when an operand is a NaN, and the test for
    a NaN. *)
Definition float_le (a b : F32.float) : bool := SFleb a b.
Definition float_nan (a : F32.float) : bool :=
  match a with
  | S754_nan => true
  | _ => false
  end.

(** Highlight fields left over from an earlier preview, for the
    examples. *)
Definition predicted_example : Predicted :=
  mkPredicted false (arr_make GRID_H_MAX true) (arr_make GRID_W_MAX true).

(** ** Vocabulary of the randomizer properties *)

(** [rand()] never returns a negative number. *)
Definition rand_nonneg {RNG : Type} (rand : RNG -> Z * RNG) : Prop :=
  forall rng, 0 <= fst (rand rng).

(** An index into the shape table. *)
Definition shape_index (i : Z) : Prop := 0 <= i < SHAPES_COUNT.

(** The bag array has [BAG_SIZE] slots, and the bag is either exhausted or
    holds only indices of shapes between the cursor and its end. *)
Definition bag_valid (gm : GameContext) : Prop :=
  Z.of_nat (length (bag gm)) = BAG_SIZE /\
  (bag_exhausted gm = true \/
   (0 <= bag_pos gm /\ bag_len gm <= BAG_SIZE /\
    forall k, bag_pos gm <= k < bag_len gm -> shape_index (arr_get 0 (bag gm) k))).

(** A tray context of four empty slots and a palette of one colour, for
    the examples. *)
Definition tray_context_example : TrayContext :=
  mkTray (arr_make PIECES_PER_SET_MAX piece_zero) 0 theme_zero
    (arr_make THEMES_COUNT theme_white).

(** ** Writing the save files ([fprintf]) *)

Definition PLAYER_NAME_FILENAME : string := "blockblaster_playername.txt".
Definition SOUND_STATE_FILENAME : string := "blockblaster_sound_state.txt".

(** The character of the decimal digit [d]. *)
Definition digit_char (d : Z) : ascii := ascii_of_N (Z.to_N (48 + d)).

(** The decimal digits of [n >= 0], most significant first, put before
    [acc]; [fuel] bounds the number of digits. *)
Fixpoint print_digits (fuel : nat) (n : Z) (acc : string) : string :=
  match fuel with
  | O => acc
  | S fuel' =>
      let acc' := String (digit_char (n mod 10)) acc in
      if n <? 10 then acc' else print_digits fuel' (n / 10) acc'
  end.

Definition print_unsigned (n : Z) : string :=
  print_digits (S (Z.to_nat (Z.log2 n))) n EmptyString.

(** The directives [%d] and [%ld] of [fprintf]. *)
Definition print_int (z : Z) : string :=
  if z <? 0 then String "-"%char (print_unsigned (- z)) else print_unsigned z.

(** The directive [%.5s] of [fprintf]: at most five characters. *)
Definition print_str5 (s : string) : string := String.substring 0 5 s.

Definition newline : string := String (ascii_of_N 10) EmptyString.
Definition blank : string := " ".

(** [fopen(path, "w")], the text written and [fclose]: the file holds the
    text written; when the file cannot be opened ([writable] false) the
    functions return at once and nothing changes. *)
Definition write_file (writable : bool) (fs : gmap string string) (path text : string)
    : gmap string string :=
  if writable then <[path := text]> fs else fs.

(** One line of the scores file:
    ["%d %d %d %ld %d %.5s\n"]. *)
Definition score_line (e : HighScoreEntry) : string :=
  print_int (hs_grid_w e) +:+ blank +:+ print_int (hs_grid_h e) +:+ blank +:+
  print_int (hs_tray_count e) +:+ blank +:+ print_int (hs_score e) +:+ blank +:+
  print_int (hs_highest_combo e) +:+ blank +:+ print_str5 (hs_name e) +:+ newline.

(** [blockblaster_save_high_scores], desktop branch. *)
Definition blockblaster_save_high_scores (writable : bool) (gm : GameContext)
    (fs : gmap string string) : gmap string string :=
  let text := print_int (high_score_count gm) +:+ newline in
  let text :=
    for_range 0 (high_score_count gm) (fun i text =>
      text +:+ score_line (arr_get entry_zero (high_scores gm) i)) text in
  write_file writable fs (SAVE_DIR +:+ SCORES_FILENAME) text.

(** [blockblaster_save_settings], desktop branch. *)
Definition blockblaster_save_settings (writable : bool) (tray_count grid_size : Z)
    (fs : gmap string string) : gmap string string :=
  write_file writable fs (SAVE_DIR +:+ SETTINGS_FILENAME)
    (print_int tray_count +:+ blank +:+ print_int grid_size +:+ newline).

(** [blockblaster_save_sound_state], desktop branch. *)
Definition blockblaster_save_sound_state (writable : bool) (on : bool)
    (fs : gmap string string) : gmap string string :=
  write_file writable fs (SAVE_DIR +:+ SOUND_STATE_FILENAME)
    (print_int (if on then 1 else 0) +:+ newline).

(** [blockblaster_load_sound_state], desktop branch: the state and the
    files, which a missing file changes. *)
Definition blockblaster_load_sound_state (writable : bool) (fs : gmap string string)
    : bool * gmap string string :=
  let v := 1 in
  match fopen_r fs (SAVE_DIR +:+ SOUND_STATE_FILENAME) with
  | None => (true, blockblaster_save_sound_state writable true fs)
  | Some f =>
      let '(n, vs, _) := fscanf [Cint] f in
      let v := int_arg 0 vs v in
      let v := if negb (n =? 1) then 1 else v in
      (negb (v =? 0), fs)
  end.

(** [blockblaster_save_player_name], desktop branch. *)
Definition blockblaster_save_player_name (writable : bool) (name : string)
    (fs : gmap string string) : gmap string string :=
  write_file writable fs (SAVE_DIR +:+ PLAYER_NAME_FILENAME)
    (print_str5 name +:+ newline).

(** [blockblaster_load_player_name], desktop branch; the result is the
    text left in [out]. *)
Definition blockblaster_load_player_name (out_sz : Z) (fs : gmap string string)
    : string :=
  let out := snprintf_s out_sz "PLAYR" in
  match fopen_r fs (SAVE_DIR +:+ PLAYER_NAME_FILENAME) with
  | None => out
  | Some f =>
      let name := EmptyString in
      let '(n, vs, _) := fscanf [Cstr 5] f in
      let name := str_arg 0 vs name in
      if (n =? 1) && negb (String.eqb name EmptyString)
      then snprintf_s out_sz name
      else out
  end.

(** ** Vocabulary of the save and load properties *)

Definition sound_path : string := SAVE_DIR +:+ SOUND_STATE_FILENAME.
Definition name_path : string := SAVE_DIR +:+ PLAYER_NAME_FILENAME.

(** A text that does not go on with a digit, so that a number printed
    before it is read back whole. *)
Definition ends_number (s : string) : Prop :=
  match s with
  | String c _ => digit_of c = None
  | EmptyString => True
  end.

(** The text after a name: its end, or a blank. *)
Definition ends_word (s : string) : Prop :=
  match s with
  | String c _ => is_space c = true
  | EmptyString => True
  end.

Fixpoint no_space (s : string) : bool :=
  match s with
  | String c s' => negb (is_space c) && no_space s'
  | EmptyString => true
  end.

(** A player name that a save file can hold: from one to five characters,
    none of them a blank. *)
Definition name_ok (s : string) : bool :=
  negb (String.eqb s EmptyString) && (Z.of_nat (String.length s) <=? 5) && no_space s.

(** An entry that the scores file holds as it is. *)
Definition entry_ok (e : HighScoreEntry) : Prop :=
  0 <= hs_score e /\ 0 <= hs_highest_combo e /\ name_ok (hs_name e) = true.

(** The lines of the scores file for the entries [i], [i + 1], ...
    ([n] of them) of the table [hs]. *)
Fixpoint score_lines (hs : list HighScoreEntry) (n : nat) (i : Z) : string :=
  match n with
  | O => EmptyString
  | S n' => score_line (arr_get entry_zero hs i) +:+ score_lines hs n' (i + 1)
  end.

(** A name as the loader stores it: at most five characters, none of
    them a blank. *)
Definition plain_name (e : HighScoreEntry) : Prop :=
  (String.length (hs_name e) <= 5)%nat /\ no_space (hs_name e) = true.

(** The values read by [%s] hold no blank. *)
Definition value_plain (v : value) : Prop :=
  match v with
  | Vstr word => no_space word = true
  | Vint _ => True
  end.

(** The clamping of an entry after the label [done]. *)
Definition entry_clamped (e : HighScoreEntry) : HighScoreEntry :=
  mkEntry (hs_grid_w e) (hs_grid_h e) (hs_tray_count e)
    (Z.max 0 (hs_score e)) (Z.max 0 (hs_highest_combo e))
    (if String.eqb (hs_name e) EmptyString then "PLAYR" else hs_name e).

(** A table of two entries, and one whose only entry has a negative
    score, for the examples. *)
Definition table_example : GameContext :=
  set_high_score_count
    (set_high_scores context_start
       [mkEntry 10 10 4 300 5 "ANNA"; mkEntry 15 15 3 120 2 "BOB";
        entry_zero; entry_zero; entry_zero]) 2.
Definition table_negative : GameContext :=
  set_high_score_count
    (set_high_scores context_start
       [mkEntry 10 10 4 (-7) 0 "EVE"; entry_zero; entry_zero; entry_zero; entry_zero]) 1.

(* ====================================================================== *)
(** * Part II: properties                                                  *)
(* ====================================================================== *)

(** ** Loops *)

Lemma all_loop_true (n : nat) (i : Z) (ok : Z -> bool) :
  all_loop n i ok = true <-> (forall k, i <= k < i + Z.of_nat n -> ok k = true).
Proof.
  revert i. induction n as [|n IH]; intros i; simpl.
  - split; [intros _ k Hk; lia | reflexivity].
  - destruct (ok i) eqn:Hi.
    + rewrite IH. split; intros H k Hk.
      * destruct (Z.eq_dec k i) as [->|Hne]; [exact Hi | apply H; lia].
      * apply H; lia.
    + split; [discriminate |].
      intros H. rewrite <- Hi. apply H. lia.
Qed.

Lemma all_range_true (lo hi : Z) (ok : Z -> bool) :
  all_range lo hi ok = true <-> (forall k, lo <= k < hi -> ok k = true).
Proof.
  unfold all_range. rewrite all_loop_true.
  split; intros H k Hk; apply H; lia.
Qed.

Lemma all_range_false (lo hi : Z) (ok : Z -> bool) (k : Z) :
  lo <= k < hi -> ok k = false -> all_range lo hi ok = false.
Proof.
  intros Hk Hf. destruct (all_range lo hi ok) eqn:E; [|reflexivity].
  rewrite all_range_true in E. rewrite (E k Hk) in Hf. discriminate.
Qed.

Lemma any_loop_true (n : nat) (i : Z) (hit : Z -> bool) :
  any_loop n i hit = true <-> (exists k, i <= k < i + Z.of_nat n /\ hit k = true).
Proof.
  revert i. induction n as [|n IH]; intros i; simpl.
  - split; [discriminate | intros (k & Hk & _); lia].
  - destruct (hit i) eqn:Hi.
    + split; [intros _; exists i; split; [lia | exact Hi] | reflexivity].
    + rewrite IH. split; intros (k & Hk & Hh); exists k; (split; [|exact Hh]).
      * lia.
      * destruct (Z.eq_dec k i) as [->|Hne]; [congruence | lia].
Qed.

Lemma any_range_true (lo hi : Z) (hit : Z -> bool) :
  any_range lo hi hit = true <-> (exists k, lo <= k < hi /\ hit k = true).
Proof.
  unfold any_range. rewrite any_loop_true.
  split; intros (k & Hk & Hh); exists k; (split; [lia | exact Hh]).
Qed.

(** The first hit of a search loop. *)
Lemma find_loop_Some (n : nat) (i : Z) (hit : Z -> bool) (p : Z) :
  find_loop n i hit = Some p ->
  i <= p < i + Z.of_nat n /\ hit p = true /\ (forall k, i <= k < p -> hit k = false).
Proof.
  revert i. induction n as [|n IH]; intros i; simpl; [discriminate|].
  destruct (hit i) eqn:Hi.
  - intros [= <-]. repeat split; [lia | lia | exact Hi | intros k Hk; lia].
  - intros H. destruct (IH _ H) as (Hp & Hh & Hb).
    repeat split; [lia | lia | exact Hh |].
    intros k Hk. destruct (Z.eq_dec k i) as [->|Hne]; [exact Hi | apply Hb; lia].
Qed.

Lemma find_loop_None (n : nat) (i : Z) (hit : Z -> bool) :
  find_loop n i hit = None -> forall k, i <= k < i + Z.of_nat n -> hit k = false.
Proof.
  revert i. induction n as [|n IH]; intros i; simpl; [intros _ k Hk; lia|].
  destruct (hit i) eqn:Hi; [discriminate|].
  intros H k Hk. destruct (Z.eq_dec k i) as [->|Hne]; [exact Hi | apply (IH _ H); lia].
Qed.

(** The invariant rule of a counting loop. *)
Lemma for_loop_invariant {S : Type} (P : Z -> S -> Prop) (n : nat) (i : Z)
    (body : Z -> S -> S) (s : S) :
  P i s ->
  (forall k t, i <= k < i + Z.of_nat n -> P k t -> P (k + 1) (body k t)) ->
  P (i + Z.of_nat n) (for_loop n i body s).
Proof.
  revert i s. induction n as [|n IH]; intros i s H0 Hstep; simpl.
  - replace (i + Z.of_nat 0) with i by lia. exact H0.
  - replace (i + Z.of_nat (Datatypes.S n)) with ((i + 1) + Z.of_nat n) by lia.
    apply IH.
    + apply Hstep; [lia | exact H0].
    + intros k t Hk. apply Hstep. lia.
Qed.

Lemma for_range_invariant {S : Type} (P : Z -> S -> Prop) (lo hi : Z)
    (body : Z -> S -> S) (s : S) :
  lo <= hi ->
  P lo s ->
  (forall k t, lo <= k < hi -> P k t -> P (k + 1) (body k t)) ->
  P hi (for_range lo hi body s).
Proof.
  intros Hle H0 Hstep. unfold for_range.
  replace hi with (lo + Z.of_nat (Z.to_nat (hi - lo))) at 1 by lia.
  apply for_loop_invariant; [exact H0|].
  intros k t Hk. apply Hstep. lia.
Qed.

(** An invariant that does not mention the counter. *)
Lemma for_range_preserves {S : Type} (Q : S -> Prop) (lo hi : Z)
    (body : Z -> S -> S) (s : S) :
  Q s ->
  (forall k t, lo <= k < hi -> Q t -> Q (body k t)) ->
  Q (for_range lo hi body s).
Proof.
  intros H0 Hstep. destruct (Z.le_gt_cases lo hi) as [Hle|Hgt].
  - apply (for_range_invariant (fun _ t => Q t)); assumption.
  - unfold for_range. replace (Z.to_nat (hi - lo)) with O by lia. exact H0.
Qed.

Lemma for_loop_app {S : Type} (n m : nat) (i : Z) (body : Z -> S -> S) (s : S) :
  for_loop (n + m) i body s = for_loop m (i + Z.of_nat n) body (for_loop n i body s).
Proof.
  revert i s. induction n as [|n IH]; intros i s; simpl.
  - f_equal. lia.
  - rewrite IH. f_equal. lia.
Qed.

(** A loop run is the run up to [k], iteration [k], and the rest. *)
Lemma for_range_split {S : Type} (lo hi k : Z) (body : Z -> S -> S) (s : S) :
  lo <= k < hi ->
  for_range lo hi body s =
  for_range (k + 1) hi body (body k (for_range lo k body s)).
Proof.
  intros Hk. unfold for_range.
  replace (Z.to_nat (hi - lo))
    with (Z.to_nat (k - lo) + (1 + Z.to_nat (hi - (k + 1))))%nat by lia.
  rewrite for_loop_app. simpl.
  replace (lo + Z.of_nat (Z.to_nat (k - lo))) with k by lia.
  reflexivity.
Qed.

Lemma for_loop_down_invariant {S : Type} (P : Z -> S -> Prop) (n : nat) (i : Z)
    (body : Z -> S -> S) (s : S) :
  P i s ->
  (forall k t, i - Z.of_nat n < k <= i -> P k t -> P (k - 1) (body k t)) ->
  P (i - Z.of_nat n) (for_loop_down n i body s).
Proof.
  revert i s. induction n as [|n IH]; intros i s H0 Hstep; simpl.
  - replace (i - Z.of_nat 0) with i by lia. exact H0.
  - replace (i - Z.of_nat (Datatypes.S n)) with ((i - 1) - Z.of_nat n) by lia.
    apply IH.
    + apply Hstep; [lia | exact H0].
    + intros k t Hk. apply Hstep. lia.
Qed.

Lemma for_down_invariant {S : Type} (P : Z -> S -> Prop) (hi lo : Z)
    (body : Z -> S -> S) (s : S) :
  lo <= hi ->
  P hi s ->
  (forall k t, lo < k <= hi -> P k t -> P (k - 1) (body k t)) ->
  P lo (for_down hi lo body s).
Proof.
  intros Hle H0 Hstep. unfold for_down.
  replace lo with (hi - Z.of_nat (Z.to_nat (hi - lo))) at 1 by lia.
  apply for_loop_down_invariant; [exact H0|].
  intros k t Hk. apply Hstep. lia.
Qed.

Lemma for_down_preserves {S : Type} (Q : S -> Prop) (hi lo : Z)
    (body : Z -> S -> S) (s : S) :
  Q s ->
  (forall k t, lo < k <= hi -> Q t -> Q (body k t)) ->
  Q (for_down hi lo body s).
Proof.
  intros H0 Hstep. destruct (Z.le_gt_cases lo hi) as [Hle|Hgt].
  - apply (for_down_invariant (fun _ t => Q t)); assumption.
  - unfold for_down. replace (Z.to_nat (hi - lo)) with O by lia. exact H0.
Qed.

(** ** Arrays *)

Lemma arr_get_set_eq {A : Type} (d : A) (l : list A) (i : Z) (v : A) :
  0 <= i < Z.of_nat (length l) -> arr_get d (arr_set l i v) i = v.
Proof.
  intros Hi. unfold arr_get, arr_set.
  destruct (i <? 0) eqn:E; [lia|].
  rewrite list_lookup_insert_eq by lia. reflexivity.
Qed.

Lemma arr_get_set_ne {A : Type} (d : A) (l : list A) (i j : Z) (v : A) :
  i <> j -> arr_get d (arr_set l i v) j = arr_get d l j.
Proof.
  intros Hne. unfold arr_get, arr_set.
  destruct (j <? 0) eqn:Ej; [reflexivity|].
  destruct (i <? 0) eqn:Ei; [reflexivity|].
  rewrite list_lookup_insert_ne by lia. reflexivity.
Qed.

Lemma arr_set_length {A : Type} (l : list A) (i : Z) (v : A) :
  length (arr_set l i v) = length l.
Proof. unfold arr_set. destruct (i <? 0); [reflexivity | apply length_insert]. Qed.

Lemma arr_get_make {A : Type} (d v : A) (n i : Z) :
  0 <= i < n -> arr_get d (arr_make n v) i = v.
Proof.
  intros Hi. unfold arr_get, arr_make.
  destruct (i <? 0) eqn:E; [lia|].
  rewrite lookup_replicate_2 by lia. reflexivity.
Qed.

Lemma arr_make_length {A : Type} (v : A) (n : Z) :
  0 <= n -> Z.of_nat (length (arr_make n v)) = n.
Proof. intros Hn. unfold arr_make. rewrite length_replicate. lia. Qed.

(** A write either lands, and is read back, or falls outside the storage
    and changes nothing. *)
Lemma arr2_set_effect {A : Type} (d : A) (m : list (list A)) (y x : Z) (v : A) :
  arr2_get d (arr2_set m y x v) y x = v \/ arr2_set m y x v = m.
Proof.
  unfold arr2_get, arr2_set, arr_get.
  destruct (y <? 0) eqn:Ey; simpl; [right; reflexivity|].
  destruct (x <? 0) eqn:Ex; simpl; [right; reflexivity|].
  rewrite list_lookup_alter_eq.
  destruct (m !! Z.to_nat y) as [row|] eqn:Hrow; simpl.
  - destruct (Nat.lt_ge_cases (Z.to_nat x) (length row)) as [Hlt|Hge].
    + left. rewrite list_lookup_insert_eq by exact Hlt. reflexivity.
    + right. apply list_eq. intros k.
      destruct (Nat.eq_dec k (Z.to_nat y)) as [->|Hne].
      * rewrite list_lookup_alter_eq, Hrow. simpl.
        rewrite list_insert_ge by exact Hge. reflexivity.
      * rewrite list_lookup_alter_ne by congruence. reflexivity.
  - right. apply list_eq. intros k.
    destruct (Nat.eq_dec k (Z.to_nat y)) as [->|Hne].
    + rewrite list_lookup_alter_eq, Hrow. reflexivity.
    + rewrite list_lookup_alter_ne by congruence. reflexivity.
Qed.

Lemma arr2_get_set_ne {A : Type} (d : A) (m : list (list A)) (y x y' x' : Z) (v : A) :
  y <> y' \/ x <> x' ->
  arr2_get d (arr2_set m y x v) y' x' = arr2_get d m y' x'.
Proof.
  intros Hne. unfold arr2_get, arr2_set, arr_get.
  destruct (y <? 0) eqn:Ey; simpl; [reflexivity|].
  destruct (x <? 0) eqn:Ex; simpl; [reflexivity|].
  destruct (y' <? 0) eqn:Ey'; [reflexivity|].
  destruct (Z.eq_dec y y') as [<-|Hy].
  - rewrite list_lookup_alter_eq.
    destruct (m !! Z.to_nat y) as [row|]; simpl; [|reflexivity].
    destruct (x' <? 0) eqn:Ex'; [reflexivity|].
    rewrite list_lookup_insert_ne by lia. reflexivity.
  - rewrite list_lookup_alter_ne by lia. reflexivity.
Qed.

Lemma arr2_dims_lookup {A : Type} (hh ww : Z) (m : list (list A)) (y : Z) :
  arr2_dims hh ww m -> 0 <= y < hh ->
  exists row, m !! Z.to_nat y = Some row /\ Z.of_nat (length row) = ww.
Proof.
  intros [Hlen Hrows] Hy.
  destruct (lookup_lt_is_Some_2 m (Z.to_nat y)) as [row Hrow]; [lia|].
  exists row. split; [exact Hrow|].
  rewrite Forall_lookup in Hrows. exact (Hrows _ _ Hrow).
Qed.

Lemma arr2_get_set_eq {A : Type} (d : A) (hh ww : Z) (m : list (list A)) (y x : Z)
    (v : A) :
  arr2_dims hh ww m -> 0 <= y < hh -> 0 <= x < ww ->
  arr2_get d (arr2_set m y x v) y x = v.
Proof.
  intros Hd Hy Hx. destruct (arr2_dims_lookup _ _ _ _ Hd Hy) as (row & Hrow & Hlen).
  unfold arr2_get, arr2_set, arr_get.
  destruct (y <? 0) eqn:Ey; [lia|]. destruct (x <? 0) eqn:Ex; [lia|]. simpl.
  rewrite list_lookup_alter_eq, Hrow. simpl.
  rewrite list_lookup_insert_eq by lia. reflexivity.
Qed.

Lemma arr2_dims_set {A : Type} (hh ww : Z) (m : list (list A)) (y x : Z) (v : A) :
  arr2_dims hh ww m -> arr2_dims hh ww (arr2_set m y x v).
Proof.
  intros [Hlen Hrows]. unfold arr2_set.
  destruct ((y <? 0) || (x <? 0)); [split; assumption|].
  split.
  - rewrite length_alter. exact Hlen.
  - apply Forall_alter; [exact Hrows|].
    intros row _ Hrow. rewrite length_insert. exact Hrow.
Qed.

Lemma arr2_dims_make {A : Type} (hh ww : Z) (v : A) :
  0 <= hh -> 0 <= ww -> arr2_dims hh ww (arr2_make hh ww v).
Proof.
  intros Hh Hw. split.
  - apply arr_make_length. exact Hh.
  - apply Forall_replicate. apply arr_make_length. exact Hw.
Qed.

(** ** Placement *)

Section Placement.
Variables GRID_W GRID_H : Z.

Lemma shape_cell_true (s : Shape) (x y : Z) :
  blockblaster_shape_cell s x y = true -> 0 <= x < w s /\ 0 <= y < h s.
Proof.
  unfold blockblaster_shape_cell.
  destruct (x <? 0) eqn:E1, (y <? 0) eqn:E2, (x >=? w s) eqn:E3,
    (y >=? h s) eqn:E4; simpl; try discriminate.
  intros _. lia.
Qed.

Lemma can_place_cell_true (gr : Grid) (s : Shape) (gx gy sx sy : Z) :
  can_place_cell GRID_W GRID_H gr s gx gy sx sy = true <->
  (blockblaster_shape_cell s sx sy = true ->
   in_grid GRID_W GRID_H (gx + sx) (gy + sy) /\
   occupied gr (gx + sx) (gy + sy) = false).
Proof.
  unfold can_place_cell, in_grid, occupied.
  destruct (blockblaster_shape_cell s sx sy); simpl.
  - destruct (gx + sx <? 0) eqn:E1, (gy + sy <? 0) eqn:E2,
      (gx + sx >=? GRID_W) eqn:E3, (gy + sy >=? GRID_H) eqn:E4; simpl;
      try (split; [discriminate | intros H; destruct (H eq_refl) as [? _]; lia]).
    destruct (arr2_get false (occ gr) (gy + sy) (gx + sx)).
    + split; [discriminate | intros H; destruct (H eq_refl) as [_ ?]; discriminate].
    + split; [intros _ _; split; [lia | reflexivity] | reflexivity].
  - split; [discriminate | reflexivity].
Qed.

Lemma can_place_at_fits (gr : Grid) (s : Shape) (gx gy : Z) :
  blockblaster_can_place_at GRID_W GRID_H gr s gx gy = true <->
  fits GRID_W GRID_H gr s gx gy.
Proof.
  unfold blockblaster_can_place_at, fits. rewrite all_range_true. split.
  - intros H sx sy Hc. destruct (shape_cell_true _ _ _ Hc) as [Hx Hy].
    specialize (H sy Hy). rewrite all_range_true in H.
    apply (proj1 (can_place_cell_true gr s gx gy sx sy) (H sx Hx) Hc).
  - intros H sy Hy. rewrite all_range_true. intros sx Hx.
    apply can_place_cell_true. apply H.
Qed.

Lemma stamp_of_refl (s : Shape) (gx gy : Z) (theme : Theme) (gr : Grid) :
  stamp_of GRID_W GRID_H s gx gy theme gr gr.
Proof.
  split; [intros x y; repeat split; left; reflexivity |].
  split; [|split]; intros hh ww Hd; exact Hd.
Qed.

Lemma stamp_of_trans (s : Shape) (gx gy : Z) (theme : Theme) (g1 g2 g3 : Grid) :
  stamp_of GRID_W GRID_H s gx gy theme g1 g2 ->
  stamp_of GRID_W GRID_H s gx gy theme g2 g3 ->
  stamp_of GRID_W GRID_H s gx gy theme g1 g3.
Proof.
  intros (Hc1 & Ho1 & Ht1 & Hh1) (Hc2 & Ho2 & Ht2 & Hh2).
  split; [|split; [|split]; intros hh ww Hd; auto].
  intros x y. destruct (Hc1 x y) as (A1 & B1 & C1), (Hc2 x y) as (A2 & B2 & C2).
  repeat split.
  - destruct A2 as [E|?]; [rewrite E; exact A1 | right; assumption].
  - destruct B2 as [E|?]; [rewrite E; exact B1 | right; assumption].
  - destruct C2 as [E|?]; [rewrite E; exact C1 | right; assumption].
Qed.

(** One array of the grid after the guarded write of [place_cell]. *)
Lemma stamp_write {A : Type} (d : A) (m : list (list A)) (s : Shape)
    (gx gy sx sy x y : Z) (v : A) :
  blockblaster_shape_cell s sx sy = true ->
  in_grid GRID_W GRID_H (gx + sx) (gy + sy) ->
  arr2_get d (arr2_set m (gy + sy) (gx + sx) v) y x = arr2_get d m y x \/
  (covers GRID_W GRID_H s gx gy x y /\
   arr2_get d (arr2_set m (gy + sy) (gx + sx) v) y x = v).
Proof.
  intros Hc Hin.
  destruct (Z.eq_dec (gy + sy) y) as [Hy|Hy]; [destruct (Z.eq_dec (gx + sx) x) as [Hx|Hx]|].
  - subst x y. destruct (arr2_set_effect d m (gy + sy) (gx + sx) v) as [E|E].
    + right. split; [|exact E]. split; [exact Hin|].
      replace (gx + sx - gx) with sx by lia. replace (gy + sy - gy) with sy by lia.
      exact Hc.
    + left. rewrite E. reflexivity.
  - left. apply arr2_get_set_ne. right. exact Hx.
  - left. apply arr2_get_set_ne. left. exact Hy.
Qed.

Lemma place_cell_stamp (s : Shape) (gx gy : Z) (theme : Theme) (sy sx : Z)
    (gr : Grid) :
  stamp_of GRID_W GRID_H s gx gy theme gr
    (place_cell GRID_W GRID_H s gx gy theme sy sx gr).
Proof.
  unfold place_cell.
  destruct (blockblaster_shape_cell s sx sy) eqn:Hc; simpl; [|apply stamp_of_refl].
  destruct (gx + sx >=? 0) eqn:E1, (gy + sy >=? 0) eqn:E2, (gx + sx <? GRID_W) eqn:E3,
    (gy + sy <? GRID_H) eqn:E4; simpl; try apply stamp_of_refl.
  assert (Hin : in_grid GRID_W GRID_H (gx + sx) (gy + sy)) by (unfold in_grid; lia).
  split; [|split; [|split]; simpl; intros hh ww Hd; apply arr2_dims_set; exact Hd].
  intros x y. unfold occupied, theme_at, themed. simpl.
  repeat split; apply stamp_write; assumption.
Qed.

Lemma place_row_stamp (s : Shape) (gx gy : Z) (theme : Theme) (sy lo hi : Z)
    (gr : Grid) :
  stamp_of GRID_W GRID_H s gx gy theme gr
    (for_range lo hi (place_cell GRID_W GRID_H s gx gy theme sy) gr).
Proof.
  apply (for_range_preserves (stamp_of GRID_W GRID_H s gx gy theme gr)).
  - apply stamp_of_refl.
  - intros k t _ Ht. eapply stamp_of_trans; [exact Ht | apply place_cell_stamp].
Qed.

Lemma place_rows_stamp (s : Shape) (gx gy : Z) (theme : Theme) (lo hi : Z)
    (gr : Grid) :
  stamp_of GRID_W GRID_H s gx gy theme gr
    (for_range lo hi (fun sy =>
       for_range 0 (w s) (place_cell GRID_W GRID_H s gx gy theme sy)) gr).
Proof.
  apply (for_range_preserves (stamp_of GRID_W GRID_H s gx gy theme gr)).
  - apply stamp_of_refl.
  - intros k t _ Ht. eapply stamp_of_trans; [exact Ht | apply place_row_stamp].
Qed.

Lemma place_shape_stamp (gr : Grid) (s : Shape) (gx gy : Z) (theme : Theme) :
  stamp_of GRID_W GRID_H s gx gy theme gr
    (blockblaster_place_shape GRID_W GRID_H gr s gx gy theme).
Proof. apply place_rows_stamp. Qed.

Lemma any_valid_placement_true (gr : Grid) (s : Shape) :
  blockblaster_any_valid_placement GRID_W GRID_H gr s = true <->
  exists gx gy, in_grid GRID_W GRID_H gx gy /\ fits GRID_W GRID_H gr s gx gy.
Proof.
  unfold blockblaster_any_valid_placement. rewrite any_range_true. split.
  - intros (gy & Hy & H). apply any_range_true in H. destruct H as (gx & Hx & H).
    exists gx, gy. split; [split; assumption | apply can_place_at_fits; exact H].
  - intros (gx & gy & [Hx Hy] & H). exists gy. split; [exact Hy|].
    apply any_range_true. exists gx. split; [exact Hx | apply can_place_at_fits; exact H].
Qed.

(** An occupied cell stays occupied under a stamp. *)
Lemma stamp_keeps_occupied (s : Shape) (gx gy : Z) (theme : Theme) (gr gr' : Grid)
    (x y : Z) :
  stamp_of GRID_W GRID_H s gx gy theme gr gr' ->
  occupied gr x y = true -> occupied gr' x y = true.
Proof.
  intros (Hc & _) Ho. destruct (Hc x y) as ([E|[_ E]] & _); congruence.
Qed.

(** With the storage large enough, a filled cell that falls in the grid is
    occupied after the stamp. *)
Lemma place_shape_occupies (gr : Grid) (s : Shape) (gx gy : Z) (theme : Theme)
    (sx sy : Z) :
  arr2_dims GRID_H_MAX GRID_W_MAX (occ gr) ->
  GRID_W <= GRID_W_MAX -> GRID_H <= GRID_H_MAX ->
  blockblaster_shape_cell s sx sy = true ->
  in_grid GRID_W GRID_H (gx + sx) (gy + sy) ->
  occupied (blockblaster_place_shape GRID_W GRID_H gr s gx gy theme)
    (gx + sx) (gy + sy) = true.
Proof.
  intros Hd HW HH Hc Hin. destruct (shape_cell_true _ _ _ Hc) as [Hx Hy].
  unfold blockblaster_place_shape.
  rewrite (for_range_split 0 (h s) sy) by exact Hy.
  eapply stamp_keeps_occupied; [apply place_rows_stamp|].
  cbv beta. rewrite (for_range_split 0 (w s) sx) by exact Hx.
  eapply stamp_keeps_occupied; [apply place_row_stamp|].
  match goal with
  | |- occupied (place_cell _ _ _ _ _ _ _ _ ?g0) _ _ = true => set (mid := g0)
  end.
  assert (Hmid : arr2_dims GRID_H_MAX GRID_W_MAX (occ mid)).
  { assert (St : stamp_of GRID_W GRID_H s gx gy theme gr mid).
    { eapply stamp_of_trans; [apply place_rows_stamp | apply place_row_stamp]. }
    destruct St as (_ & Ho & _). apply Ho. exact Hd. }
  unfold place_cell. rewrite Hc. simpl.
  destruct Hin as [Hx' Hy'].
  destruct (gx + sx >=? 0) eqn:E1, (gy + sy >=? 0) eqn:E2, (gx + sx <? GRID_W) eqn:E3,
    (gy + sy <? GRID_H) eqn:E4; try lia.
  simpl. unfold occupied. simpl.
  apply (arr2_get_set_eq false GRID_H_MAX GRID_W_MAX); [exact Hmid | lia | lia].
Qed.
End Placement.

Lemma grid_empty_storage : grid_storage grid_empty.
Proof.
  unfold grid_storage, grid_empty, GRID_H_MAX, GRID_W_MAX. simpl.
  repeat split; try reflexivity; apply Forall_replicate; reflexivity.
Qed.

(** C1. Placement soundness.  [blockblaster_can_place_at] answers true
    exactly when every filled cell of the shape, moved by the offset, lies
    in the [GRID_W] x [GRID_H] grid and on a free cell.  After
    [blockblaster_place_shape] has stamped a shape on a grid stored in the
    [GRID_H_MAX] x [GRID_W_MAX] arrays, [blockblaster_can_place_at] at the
    same offset answers false for every shape that has a filled cell in
    common with the stamped one, and so for the stamped shape itself when
    it has a filled cell. *)
Theorem can_place_at_sound (GRID_W GRID_H : Z) (gr : Grid) (s : Shape) (gx gy : Z) :
  (blockblaster_can_place_at GRID_W GRID_H gr s gx gy = true <->
   fits GRID_W GRID_H gr s gx gy) /\
  (forall (theme : Theme) (s' : Shape),
     grid_storage gr -> GRID_W <= GRID_W_MAX -> GRID_H <= GRID_H_MAX ->
     blockblaster_can_place_at GRID_W GRID_H gr s gx gy = true ->
     (exists sx sy, blockblaster_shape_cell s sx sy = true /\
                    blockblaster_shape_cell s' sx sy = true) ->
     blockblaster_can_place_at GRID_W GRID_H
       (blockblaster_place_shape GRID_W GRID_H gr s gx gy theme) s' gx gy = false) /\
  (forall (theme : Theme),
     grid_storage gr -> GRID_W <= GRID_W_MAX -> GRID_H <= GRID_H_MAX ->
     blockblaster_can_place_at GRID_W GRID_H gr s gx gy = true ->
     (exists sx sy, blockblaster_shape_cell s sx sy = true) ->
     blockblaster_can_place_at GRID_W GRID_H
       (blockblaster_place_shape GRID_W GRID_H gr s gx gy theme) s gx gy = false).
Proof.
  assert (Hshare : forall (theme : Theme) (s' : Shape),
     grid_storage gr -> GRID_W <= GRID_W_MAX -> GRID_H <= GRID_H_MAX ->
     blockblaster_can_place_at GRID_W GRID_H gr s gx gy = true ->
     (exists sx sy, blockblaster_shape_cell s sx sy = true /\
                    blockblaster_shape_cell s' sx sy = true) ->
     blockblaster_can_place_at GRID_W GRID_H
       (blockblaster_place_shape GRID_W GRID_H gr s gx gy theme) s' gx gy = false).
  { intros theme s' (Hd & _) HW HH Hvalid (sx & sy & Hc & Hc').
    apply can_place_at_fits in Hvalid. destruct (Hvalid sx sy Hc) as [Hin _].
    destruct (blockblaster_can_place_at _ _ _ s' gx gy) eqn:E; [|reflexivity].
    apply can_place_at_fits in E. destruct (E sx sy Hc') as [_ Hfree].
    rewrite (place_shape_occupies GRID_W GRID_H gr s gx gy theme sx sy) in Hfree;
      [discriminate | assumption ..]. }
  split; [apply can_place_at_fits|]. split; [exact Hshare|].
  intros theme Hst HW HH Hvalid (sx & sy & Hc).
  apply Hshare; [assumption .. | exists sx, sy; split; exact Hc].
Qed.

Lemma can_place_at_sound_witness :
  grid_storage grid_empty /\
  blockblaster_can_place_at 10 10 grid_empty (shape_at 26) 3 4 = true /\
  blockblaster_can_place_at 10 10
    (blockblaster_place_shape 10 10 grid_empty (shape_at 26) 3 4 theme_white)
    (shape_at 24) 3 4 = false.
Proof.
  split; [exact grid_empty_storage|]. split; [reflexivity|].
  apply (proj1 (proj2 (can_place_at_sound 10 10 grid_empty (shape_at 26) 3 4))).
  - exact grid_empty_storage.
  - unfold GRID_W_MAX. lia.
  - unfold GRID_H_MAX. lia.
  - reflexivity.
  - exists 0, 1. split; reflexivity.
Defined.

(** C10. Placement safety.  Whatever the offset, valid or not,
    [blockblaster_place_shape] leaves every cell outside the current
    [GRID_W] x [GRID_H] grid as it was, in the three arrays of the grid;
    it never frees an occupied cell; a cell whose occupancy changes is
    covered by a filled cell of the shape, lies in the grid and is
    occupied afterwards; and the arrays keep their dimensions.  Filled
    cells that fall outside the grid are therefore skipped. *)
Theorem place_shape_clips (GRID_W GRID_H : Z) (gr : Grid) (s : Shape) (gx gy : Z)
    (theme : Theme) :
  let gr' := blockblaster_place_shape GRID_W GRID_H gr s gx gy theme in
  (forall x y, ~ in_grid GRID_W GRID_H x y ->
     occupied gr' x y = occupied gr x y /\
     theme_at gr' x y = theme_at gr x y /\
     themed gr' x y = themed gr x y) /\
  (forall x y, occupied gr x y = true -> occupied gr' x y = true) /\
  (forall x y, occupied gr' x y <> occupied gr x y ->
     covers GRID_W GRID_H s gx gy x y /\ occupied gr' x y = true) /\
  (forall hh ww, arr2_dims hh ww (occ gr) -> arr2_dims hh ww (occ gr')) /\
  (forall hh ww, arr2_dims hh ww (cell_theme gr) -> arr2_dims hh ww (cell_theme gr')) /\
  (forall hh ww, arr2_dims hh ww (has_theme gr) -> arr2_dims hh ww (has_theme gr')).
Proof.
  intros gr'.
  pose proof (place_shape_stamp GRID_W GRID_H gr s gx gy theme) as St.
  fold gr' in St. destruct St as (Hc & Ho & Ht & Hh).
  split; [|split; [|split; [|split; [exact Ho | split; [exact Ht | exact Hh]]]]].
  - intros x y Hout. destruct (Hc x y) as (A & B & C).
    repeat split.
    + destruct A as [E|[[Hin _] _]]; [exact E | contradiction].
    + destruct B as [E|[[Hin _] _]]; [exact E | contradiction].
    + destruct C as [E|[[Hin _] _]]; [exact E | contradiction].
  - intros x y Hocc. destruct (Hc x y) as ([E|[_ E]] & _); congruence.
  - intros x y Hne. destruct (Hc x y) as ([E|[Hcov E]] & _); [contradiction|].
    split; assumption.
Qed.

Lemma place_shape_clips_witness :
  ~ in_grid 10 10 10 9 /\
  occupied (blockblaster_place_shape 10 10 grid_empty (shape_at 26) 9 9 theme_white)
    10 9 = occupied grid_empty 10 9.
Proof.
  assert (Hout : ~ in_grid 10 10 10 9) by (unfold in_grid; lia).
  split; [exact Hout|].
  apply (proj1 (place_shape_clips 10 10 grid_empty (shape_at 26) 9 9 theme_white)
           10 9 Hout).
Defined.

(** ** Loops that fill arrays and loops that count *)

Lemma for_range_ext {S : Type} (lo hi : Z) (body body' : Z -> S -> S) (s : S) :
  (forall k t, lo <= k < hi -> body k t = body' k t) ->
  for_range lo hi body s = for_range lo hi body' s.
Proof.
  unfold for_range. intros H.
  assert (G : forall n i t, lo <= i -> i + Z.of_nat n <= Z.max lo hi ->
            for_loop n i body t = for_loop n i body' t).
  { induction n as [|n IH]; intros i t Hlo Hhi; simpl; [reflexivity|].
    rewrite H by lia. apply IH; lia. }
  apply G; lia.
Qed.

Lemma range_list_In (n : nat) (i k : Z) :
  In k (range_list n i) <-> i <= k < i + Z.of_nat n.
Proof.
  revert i. induction n as [|n IH]; intros i; simpl; [lia|].
  rewrite IH. lia.
Qed.

Lemma zrange_In (lo hi k : Z) : In k (zrange lo hi) <-> lo <= k < hi.
Proof. unfold zrange. rewrite range_list_In. lia. Qed.

Lemma range_list_NoDup (n : nat) (i : Z) : List.NoDup (range_list n i).
Proof.
  revert i. induction n as [|n IH]; intros i; simpl; constructor.
  - rewrite range_list_In. lia.
  - apply IH.
Qed.

Lemma filter_NoDup {A : Type} (p : A -> bool) (l : list A) :
  List.NoDup l -> List.NoDup (List.filter p l).
Proof.
  induction 1 as [|x l Hx Hl IH]; simpl; [constructor|].
  destruct (p x); [constructor|]; [|exact IH | exact IH].
  rewrite filter_In. tauto.
Qed.

(** [for (i = 0; i < n; i++) a[i] = f(i)]. *)
Lemma for_range_tabulate {A : Type} (d : A) (f : Z -> A) (n : Z) (arr : list A) :
  n <= Z.of_nat (length arr) ->
  let arr' := for_range 0 n (fun i acc => arr_set acc i (f i)) arr in
  length arr' = length arr /\
  (forall i, 0 <= i < n -> arr_get d arr' i = f i).
Proof.
  intros Hn arr'. destruct (Z.le_gt_cases 0 n) as [H0|H0].
  - apply (for_range_invariant
             (fun k acc => length acc = length arr /\
                           forall i, 0 <= i < k -> arr_get d acc i = f i));
      [exact H0 | split; [reflexivity | intros i Hi; lia] |].
    intros k acc Hk [Hlen Hval]. split; [rewrite arr_set_length; exact Hlen|].
    intros i Hi. destruct (Z.eq_dec i k) as [->|Hne].
    + apply arr_get_set_eq. lia.
    + rewrite arr_get_set_ne by congruence. apply Hval. lia.
  - split; [|intros i Hi; lia].
    unfold arr', for_range. replace (Z.to_nat (n - 0)) with O by lia. reflexivity.
Qed.

(** [for (i = lo; i < hi; i++) if (p(i)) c++]. *)
Lemma for_loop_count (p : Z -> bool) (n : nat) (i c : Z) :
  for_loop n i (fun k acc => if p k then acc + 1 else acc) c =
  c + Z.of_nat (length (List.filter p (range_list n i))).
Proof.
  revert i c. induction n as [|n IH]; intros i c; simpl; [lia|].
  rewrite IH. destruct (p i); simpl; lia.
Qed.

Lemma for_range_count (p : Z -> bool) (lo hi c : Z) :
  for_range lo hi (fun k acc => if p k then acc + 1 else acc) c =
  c + Z.of_nat (length (List.filter p (zrange lo hi))).
Proof. apply for_loop_count. Qed.

(** One row of a two-dimensional fill:
    [for (x = 0; x < n; x++) m[y][x] = v(x)]. *)
Lemma fill_row {A : Type} (d : A) (hh ww : Z) (v : Z -> A) (y n : Z)
    (m : list (list A)) :
  arr2_dims hh ww m -> 0 <= y < hh -> n <= ww ->
  let m' := for_range 0 n (fun x acc => arr2_set acc y x (v x)) m in
  arr2_dims hh ww m' /\
  (forall y' x', arr2_get d m' y' x' =
     if (y' =? y) && (0 <=? x') && (x' <? n) then v x' else arr2_get d m y' x').
Proof.
  intros Hd Hy Hn m'. destruct (Z.le_gt_cases 0 n) as [H0|H0].
  - apply (for_range_invariant
             (fun k acc => arr2_dims hh ww acc /\
                forall y' x', arr2_get d acc y' x' =
                  if (y' =? y) && (0 <=? x') && (x' <? k) then v x'
                  else arr2_get d m y' x')); [exact H0 | |].
    + split; [exact Hd|]. intros y' x'.
      destruct (y' =? y), (0 <=? x') eqn:E1, (x' <? 0) eqn:E2; simpl;
        try reflexivity; lia.
    + intros k acc Hk [Hdk Hval]. split; [apply arr2_dims_set; exact Hdk|].
      intros y' x'.
      destruct (Z.eq_dec y' y) as [->|Hy']; [destruct (Z.eq_dec x' k) as [->|Hx']|].
      * rewrite (arr2_get_set_eq d hh ww) by (assumption || lia).
        replace (y =? y) with true by lia. replace (0 <=? k) with true by lia.
        replace (k <? k + 1) with true by lia. reflexivity.
      * rewrite arr2_get_set_ne by (right; congruence). rewrite Hval.
        replace (x' <? k + 1) with (x' <? k) by lia. reflexivity.
      * rewrite arr2_get_set_ne by (left; congruence). rewrite Hval.
        replace (y' =? y) with false by lia. reflexivity.
  - unfold m', for_range. replace (Z.to_nat (n - 0)) with O by lia. simpl.
    split; [exact Hd|]. intros y' x'.
    destruct (y' =? y), (0 <=? x') eqn:E1, (x' <? n) eqn:E2; simpl;
      try reflexivity; lia.
Qed.

(** A two-dimensional fill:
    [for (y = 0; y < nh; y++) for (x = 0; x < nw; x++) m[y][x] = v(y, x)]. *)
Lemma fill_rows {A : Type} (d : A) (hh ww : Z) (v : Z -> Z -> A) (nh nw : Z)
    (m : list (list A)) :
  arr2_dims hh ww m -> nh <= hh -> nw <= ww ->
  let m' := for_range 0 nh (fun y =>
              for_range 0 nw (fun x acc => arr2_set acc y x (v y x))) m in
  arr2_dims hh ww m' /\
  (forall y' x', arr2_get d m' y' x' =
     if (0 <=? y') && (y' <? nh) && (0 <=? x') && (x' <? nw) then v y' x'
     else arr2_get d m y' x').
Proof.
  intros Hd Hh Hw m'. destruct (Z.le_gt_cases 0 nh) as [H0|H0].
  - apply (for_range_invariant
             (fun k acc => arr2_dims hh ww acc /\
                forall y' x', arr2_get d acc y' x' =
                  if (0 <=? y') && (y' <? k) && (0 <=? x') && (x' <? nw) then v y' x'
                  else arr2_get d m y' x')); [exact H0 | |].
    + split; [exact Hd|]. intros y' x'.
      destruct (0 <=? y') eqn:E1, (y' <? 0) eqn:E2; simpl; try reflexivity; lia.
    + intros k acc Hk [Hdk Hval].
      destruct (fill_row d hh ww (v k) k nw acc Hdk) as [Hd' Hval']; [lia | lia |].
      split; [exact Hd'|]. intros y' x'. rewrite Hval', Hval.
      destruct (Z.eq_dec y' k) as [->|Hy'].
      * replace (k =? k) with true by lia. replace (0 <=? k) with true by lia.
        replace (k <? k + 1) with true by lia. replace (k <? k) with false by lia.
        simpl. destruct ((0 <=? x') && (x' <? nw)); reflexivity.
      * replace (y' =? k) with false by lia.
        replace (y' <? k + 1) with (y' <? k) by lia. reflexivity.
  - unfold m', for_range. replace (Z.to_nat (nh - 0)) with O by lia. simpl.
    split; [exact Hd|]. intros y' x'.
    destruct (0 <=? y') eqn:E1, (y' <? nh) eqn:E2; simpl; try reflexivity; lia.
Qed.

(** ** The clear mask *)

Section ClearMask.
Variables GRID_W GRID_H : Z.

Lemma is_row_full_true (gr : Grid) (y : Z) :
  is_row_full GRID_W (occ gr) y = true <-> row_full GRID_W gr y.
Proof. unfold is_row_full, row_full, occupied. apply all_range_true. Qed.

Lemma is_col_full_true (gr : Grid) (x : Z) :
  is_col_full GRID_H (occ gr) x = true <-> col_full GRID_H gr x.
Proof. unfold is_col_full, col_full, occupied. apply all_range_true. Qed.

Lemma full_rows_In (gr : Grid) (y : Z) :
  In y (full_rows GRID_W GRID_H gr) <-> 0 <= y < GRID_H /\ row_full GRID_W gr y.
Proof.
  unfold full_rows. rewrite filter_In, zrange_In, is_row_full_true. reflexivity.
Qed.

Lemma full_cols_In (gr : Grid) (x : Z) :
  In x (full_cols GRID_W GRID_H gr) <-> 0 <= x < GRID_W /\ col_full GRID_H gr x.
Proof.
  unfold full_cols. rewrite filter_In, zrange_In, is_col_full_true. reflexivity.
Qed.

Lemma full_rows_NoDup (gr : Grid) : List.NoDup (full_rows GRID_W GRID_H gr).
Proof. apply filter_NoDup, range_list_NoDup. Qed.

Lemma full_cols_NoDup (gr : Grid) : List.NoDup (full_cols GRID_W GRID_H gr).
Proof. apply filter_NoDup, range_list_NoDup. Qed.

(** The line count and the mask, as functions of the grid alone. *)
Lemma build_clear_mask_unfold (gr : Grid) (out_mask : list (list bool)) :
  GRID_W <= GRID_W_MAX -> GRID_H <= GRID_H_MAX ->
  arr2_dims GRID_H_MAX GRID_W_MAX out_mask ->
  let res := blockblaster_build_clear_mask GRID_W GRID_H gr out_mask in
  snd res = Z.of_nat (length (full_rows GRID_W GRID_H gr)) +
            Z.of_nat (length (full_cols GRID_W GRID_H gr)) /\
  arr2_dims GRID_H_MAX GRID_W_MAX (fst res) /\
  (forall y x, arr2_get false (fst res) y x =
     if (0 <=? y) && (y <? GRID_H) && (0 <=? x) && (x <? GRID_W)
     then is_row_full GRID_W (occ gr) y || is_col_full GRID_H (occ gr) x
     else arr2_get false out_mask y x).
Proof.
  intros HW HH Hd res. unfold res, blockblaster_build_clear_mask. cbv zeta.
  set (fr := for_range 0 GRID_H _ (arr_make GRID_H_MAX false)).
  set (fc := for_range 0 GRID_W _ (arr_make GRID_W_MAX false)).
  assert (Hfr : forall y, 0 <= y < GRID_H ->
            arr_get false fr y = is_row_full GRID_W (occ gr) y).
  { apply (for_range_tabulate false (is_row_full GRID_W (occ gr))).
    rewrite arr_make_length; [exact HH | unfold GRID_H_MAX; lia]. }
  assert (Hfc : forall x, 0 <= x < GRID_W ->
            arr_get false fc x = is_col_full GRID_H (occ gr) x).
  { apply (for_range_tabulate false (is_col_full GRID_H (occ gr))).
    rewrite arr_make_length; [exact HW | unfold GRID_W_MAX; lia]. }
  simpl. split; [|].
  - rewrite (for_range_ext 0 GRID_W _
               (fun k acc => if is_col_full GRID_H (occ gr) k then acc + 1 else acc))
      by (intros k t Hk; rewrite Hfc by exact Hk; reflexivity).
    rewrite for_range_count.
    rewrite (for_range_ext 0 GRID_H _
               (fun k acc => if is_row_full GRID_W (occ gr) k then acc + 1 else acc))
      by (intros k t Hk; rewrite Hfr by exact Hk; reflexivity).
    rewrite for_range_count. unfold full_rows, full_cols. lia.
  - destruct (fill_rows false GRID_H_MAX GRID_W_MAX
                (fun y x => arr_get false fr y || arr_get false fc x)
                GRID_H GRID_W out_mask Hd HH HW) as [Hd' Hval].
    split; [exact Hd'|]. intros y x. rewrite Hval.
    destruct (0 <=? y) eqn:E1, (y <? GRID_H) eqn:E2, (0 <=? x) eqn:E3,
      (x <? GRID_W) eqn:E4; simpl; try reflexivity.
    rewrite Hfr, Hfc by lia. reflexivity.
Qed.
End ClearMask.

Lemma grid_two_rows_one_col_lines :
  length (full_rows 10 10 grid_two_rows_one_col) = 2%nat /\
  length (full_cols 10 10 grid_two_rows_one_col) = 1%nat.
Proof. split; vm_compute; reflexivity. Qed.

(** C2. Clear-mask correctness.  On a grid of at most [GRID_W_MAX] by
    [GRID_H_MAX] cells and a mask stored in an array of that size,
    [blockblaster_build_clear_mask] returns the number of fully occupied
    rows plus the number of fully occupied columns, and the mask flags the
    cell [(x, y)] of the grid exactly when row [y] or column [x] is full.
    A full row [r] has all its cells flagged and is counted exactly once;
    with two full rows and one full column the count is 3, while the mask
    holds one flag for each cell, also where lines cross. *)
Theorem build_clear_mask_correct (GRID_W GRID_H : Z) (gr : Grid)
    (out_mask : list (list bool)) :
  GRID_W <= GRID_W_MAX -> GRID_H <= GRID_H_MAX ->
  arr2_dims GRID_H_MAX GRID_W_MAX out_mask ->
  let mask := fst (blockblaster_build_clear_mask GRID_W GRID_H gr out_mask) in
  let lines := snd (blockblaster_build_clear_mask GRID_W GRID_H gr out_mask) in
  lines = Z.of_nat (length (full_rows GRID_W GRID_H gr)) +
          Z.of_nat (length (full_cols GRID_W GRID_H gr)) /\
  (forall y, In y (full_rows GRID_W GRID_H gr) <->
             0 <= y < GRID_H /\ row_full GRID_W gr y) /\
  (forall x, In x (full_cols GRID_W GRID_H gr) <->
             0 <= x < GRID_W /\ col_full GRID_H gr x) /\
  (forall x y, in_grid GRID_W GRID_H x y ->
     (arr2_get false mask y x = true <->
      row_full GRID_W gr y \/ col_full GRID_H gr x)) /\
  (forall r, 0 <= r < GRID_H -> row_full GRID_W gr r ->
     (forall x, 0 <= x < GRID_W -> arr2_get false mask r x = true) /\
     count_occ Z.eq_dec (full_rows GRID_W GRID_H gr) r = 1%nat) /\
  (length (full_rows GRID_W GRID_H gr) = 2%nat ->
   length (full_cols GRID_W GRID_H gr) = 1%nat -> lines = 3).
Proof.
  intros HW HH Hd mask lines.
  destruct (build_clear_mask_unfold GRID_W GRID_H gr out_mask HW HH Hd)
    as (Hlines & _ & Hmask).
  fold mask in Hmask. fold lines in Hlines.
  assert (Hflag : forall x y, in_grid GRID_W GRID_H x y ->
            (arr2_get false mask y x = true <->
             row_full GRID_W gr y \/ col_full GRID_H gr x)).
  { intros x y [Hx Hy]. rewrite Hmask.
    replace (0 <=? y) with true by lia. replace (y <? GRID_H) with true by lia.
    replace (0 <=? x) with true by lia. replace (x <? GRID_W) with true by lia.
    simpl. rewrite orb_true_iff, is_row_full_true, is_col_full_true. reflexivity. }
  split; [exact Hlines|]. split; [apply full_rows_In|]. split; [apply full_cols_In|].
  split; [exact Hflag|]. split.
  - intros r Hr Hfull. split.
    + intros x Hx. apply Hflag; [split; assumption | left; exact Hfull].
    + apply NoDup_count_occ'; [apply full_rows_NoDup|].
      apply full_rows_In. split; assumption.
  - intros H2 H1. rewrite Hlines, H2, H1. reflexivity.
Qed.

Lemma build_clear_mask_correct_witness :
  snd (blockblaster_build_clear_mask 10 10 grid_two_rows_one_col
         (arr2_make GRID_H_MAX GRID_W_MAX false)) = 3.
Proof.
  assert (HW : 10 <= GRID_W_MAX) by (unfold GRID_W_MAX; lia).
  assert (HH : 10 <= GRID_H_MAX) by (unfold GRID_H_MAX; lia).
  assert (Hd : arr2_dims GRID_H_MAX GRID_W_MAX (arr2_make GRID_H_MAX GRID_W_MAX false))
    by (apply arr2_dims_make; unfold GRID_H_MAX, GRID_W_MAX; lia).
  apply (build_clear_mask_correct 10 10 grid_two_rows_one_col _ HW HH Hd).
  - exact (proj1 grid_two_rows_one_col_lines).
  - exact (proj2 grid_two_rows_one_col_lines).
Defined.

(** ** Floats: signs *)

Lemma binary_round_aux_sign (mx ex : Z) (lx : location) :
  not_negative (binary_round_aux F32.prec F32.emax false mx ex lx).
Proof.
  unfold binary_round_aux.
  destruct (shr_fexp F32.prec F32.emax mx ex lx) as [mrs' e'].
  destruct (shr_fexp F32.prec F32.emax _ e' loc_Exact) as [mrs'' e''].
  destruct (shr_m mrs''); simpl; try exact I; try reflexivity.
  destruct (e'' <=? F32.emax - F32.prec)%Z; reflexivity.
Qed.

Lemma binary_round_sign (m : positive) (e : Z) :
  not_negative (binary_round F32.prec F32.emax false m e).
Proof.
  unfold binary_round. destruct (shl_align m e _) as [mz ez].
  apply binary_round_aux_sign.
Qed.

Lemma binary_normalize_sign (z e : Z) :
  0 <= z -> not_negative (binary_normalize F32.prec F32.emax z e false).
Proof.
  intros Hz. destruct z as [|p|p]; simpl; [exact I | apply binary_round_sign | lia].
Qed.

Lemma of_Z_sign (z : Z) : 0 <= z -> not_negative (F32.of_Z z).
Proof. apply binary_normalize_sign. Qed.

Lemma add_sign (x y : F32.float) :
  not_negative x -> not_negative y -> not_negative (F32.add x y).
Proof.
  destruct x as [sx|sx| |sx mx ex], y as [sy|sy| |sy my ey]; simpl;
    intros Hx Hy; subst; try exact I; try reflexivity.
  - destruct sx, sy; exact I.
  - unfold F32.add, SFadd. simpl. apply binary_round_sign.
Qed.

Lemma mul_sign (x y : F32.float) :
  not_negative x -> not_negative y -> not_negative (F32.mul x y).
Proof.
  destruct x as [sx|sx| |sx mx ex], y as [sy|sy| |sy my ey]; simpl;
    intros Hx Hy; subst; try exact I; try reflexivity.
  unfold F32.mul, SFmul. simpl. apply binary_round_aux_sign.
Qed.

Lemma pow_pos_2_pos (p : positive) : 0 < Z.pow_pos 2 p.
Proof. rewrite Z.pow_pos_fold. apply Z.pow_pos_nonneg; lia. Qed.

Lemma round_half_away_nonneg (m : positive) (e : Z) : 0 <= F32.round_half_away m e.
Proof.
  unfold F32.round_half_away. destruct e as [|p|p].
  - lia.
  - apply Z.mul_nonneg_nonneg; [lia | apply Z.pow_nonneg; lia].
  - assert (Hd : 0 < Z.pow_pos 2 p) by apply pow_pos_2_pos.
    assert (Hq : 0 <= Z.pos m / Z.pow_pos 2 p) by (apply Z.div_pos; lia).
    cbv zeta. destruct (_ <=? _); lia.
Qed.

Lemma trunc_nonneg (m : positive) (e : Z) : 0 <= F32.trunc m e.
Proof.
  unfold F32.trunc. destruct e as [|p|p].
  - lia.
  - apply Z.mul_nonneg_nonneg; [lia | apply Z.pow_nonneg; lia].
  - apply Z.div_pos; [lia | apply pow_pos_2_pos].
Qed.

Lemma roundf_sign (x : F32.float) : not_negative x -> not_negative (F32.roundf x).
Proof.
  destruct x as [sx|sx| |sx mx ex]; simpl; intros Hx; subst; try exact I;
    try reflexivity.
  apply binary_normalize_sign. simpl. apply round_half_away_nonneg.
Qed.

Lemma int_of_Some (z v : Z) : int_of z = Some v -> v = z /\ int_range z.
Proof.
  unfold int_of, in_int, int_range. destruct (_ && _) eqn:E; [|discriminate].
  intros [= <-]. split; [reflexivity | lia].
Qed.

Lemma long_of_Some (z v : Z) : long_of z = Some v -> v = z /\ long_range z.
Proof.
  unfold long_of, in_long, long_range. destruct (_ && _) eqn:E; [|discriminate].
  intros [= <-]. split; [reflexivity | lia].
Qed.

(** The conversion keeps a value that fits, and always yields an [int]. *)
Lemma long_to_int_fits (z : Z) : int_range z -> long_to_int z = z.
Proof.
  unfold int_range, long_to_int, INT_MIN, INT_MAX. intros H.
  rewrite Z.mod_small by lia. lia.
Qed.

Lemma long_to_int_range (z : Z) : int_range (long_to_int z).
Proof.
  unfold int_range, long_to_int, INT_MIN, INT_MAX.
  pose proof (Z.mod_pos_bound (z - -2147483648) 4294967296 ltac:(lia)). lia.
Qed.

Lemma int_of_range (z : Z) : int_range z -> int_of z = Some z.
Proof.
  unfold int_of, in_int, int_range. intros H.
  replace (INT_MIN <=? z) with true by lia. replace (z <=? INT_MAX) with true by lia.
  reflexivity.
Qed.

Lemma long_of_range (z : Z) : long_range z -> long_of z = Some z.
Proof.
  unfold long_of, in_long, long_range. intros H.
  replace (LONG_MIN <=? z) with true by lia. replace (z <=? LONG_MAX) with true by lia.
  reflexivity.
Qed.

Lemma to_int_nonneg (x : F32.float) (z : Z) :
  not_negative x -> F32.to_int x = Some z -> 0 <= z.
Proof.
  destruct x as [sx|sx| |sx mx ex]; simpl; intros Hx Hz; subst; try discriminate.
  - injection Hz as <-. lia.
  - apply int_of_Some in Hz. destruct Hz as [-> _]. simpl. apply trunc_nonneg.
Qed.

(** ** Scoring *)

(** Case analysis on the tests of the goal. *)
Ltac if_cases :=
  repeat match goal with
         | |- context [if ?c then _ else _] => destruct c eqn:?
         end;
  simpl in *.

Lemma int_mul_one (p : Z) : int_range p -> int_mul p SCORE_PER_PLACED_CELL = Some p.
Proof.
  intros Hp. unfold int_mul, SCORE_PER_PLACED_CELL. rewrite Z.mul_1_r.
  apply int_of_range. exact Hp.
Qed.

(** A non-clearing call: it is defined when the score stays a [long], and
    what it does to the combo state. *)
Lemma score_move_miss (gm : GameContext) (p k : Z) :
  int_range p -> long_range (score gm + p) -> int_range (combo_miss gm + 1) ->
  exists gm' res,
    blockblaster_score_move gm p 0 k = Some (gm', res) /\
    score gm' = score gm + p /\
    (0 < combo gm -> combo_miss gm + 1 <= 3 ->
       combo gm' = combo gm /\ combo_miss gm' = combo_miss gm + 1 /\
       last_move_mult gm' = last_move_mult gm) /\
    (0 < combo gm -> 3 < combo_miss gm + 1 ->
       combo gm' = 0 /\ combo_miss gm' = 0 /\ last_move_mult gm' = F32.one) /\
    (combo gm <= 0 ->
       combo gm' = combo gm /\ combo_miss gm' = combo_miss gm /\
       last_move_mult gm' = F32.one).
Proof.
  intros Hp Hs Hm. unfold blockblaster_score_move.
  rewrite int_mul_one by exact Hp. simpl.
  unfold int_add at 1. rewrite (int_of_range (0 + p)) by (simpl; exact Hp). simpl.
  unfold score_missing, int_add, long_add.
  destruct (combo gm >? 0) eqn:Ec;
    [rewrite int_of_range by exact Hm; simpl;
     destruct (combo_miss gm + 1 >? 3) eqn:E3|];
    simpl; rewrite long_of_range by exact Hs; simpl;
    (eexists _, _; split; [reflexivity|]);
    if_cases; repeat split; intros; try reflexivity; lia.
Qed.

(** The clearing branch, when it is defined. *)
Lemma score_clearing_spec (gm gm' : GameContext) (gt l c gt' cg : Z)
    (mult : F32.float) :
  score_clearing gm gt l c = Some (gm', gt', cg, mult) ->
  0 <= combo gm -> 0 < l -> 0 <= c ->
  combo gm' = combo gm + l /\ combo_miss gm' = 0 /\
  highest_combo gm' = Z.max (highest_combo gm) (combo gm + l) /\
  score gm' = score gm /\ high_score gm' = high_score gm /\
  0 <= cg /\ gt' = gt + cg /\ not_negative mult.
Proof.
  unfold score_clearing. intros H Hc Hl Hk.
  apply bind_Some in H. destruct H as (c' & Hc' & H).
  apply int_of_Some in Hc'. destruct Hc' as [-> _].
  cbv zeta in H.
  apply bind_Some in H. destruct H as (base & Hbase & H).
  apply int_of_Some in Hbase. destruct Hbase as [-> _].
  apply bind_Some in H. destruct H as (bonus & Hbonus & H).
  apply int_of_Some in Hbonus. destruct Hbonus as [-> _].
  apply bind_Some in H. destruct H as (multi & Hmulti & H).
  assert (Hmulti0 : 0 <= multi).
  { destruct (l >? 1) eqn:E1.
    - apply bind_Some in Hmulti. destruct Hmulti as (d & Hd & Hmulti).
      apply int_of_Some in Hd. destruct Hd as [-> _].
      apply int_of_Some in Hmulti. destruct Hmulti as [-> _].
      unfold SCORE_MULTI_LINE_BONUS. lia.
    - injection Hmulti as <-. lia. }
  apply bind_Some in H. destruct H as (t & Ht & H).
  apply int_of_Some in Ht. destruct Ht as [-> _].
  apply bind_Some in H. destruct H as (subtotal & Hsub & H).
  apply int_of_Some in Hsub. destruct Hsub as [-> _].
  apply bind_Some in H. destruct H as (gain & Hgain & H).
  apply bind_Some in H. destruct H as (total & Htotal & H).
  apply int_of_Some in Htotal. destruct Htotal as [-> _].
  injection H as <- <- <- <-.
  set (m0 := F32.add F32.one (F32.of_Z _)) in *.
  assert (Hm0 : not_negative m0).
  { apply add_sign; [apply of_Z_sign; lia|]. apply of_Z_sign.
    if_cases; lia. }
  assert (Hmult : not_negative (if F32.gt m0 MAX_MULTIPLIER then MAX_MULTIPLIER else m0)).
  { destruct (F32.gt m0 MAX_MULTIPLIER); [apply of_Z_sign; lia | exact Hm0]. }
  assert (Hsub0 : 0 <= c * SCORE_PER_CLEARED_CELL + l * SCORE_PER_LINE_BONUS + multi)
    by (unfold SCORE_PER_CLEARED_CELL, SCORE_PER_LINE_BONUS; lia).
  assert (Hgain0 : 0 <= gain).
  { apply (to_int_nonneg _ _
             (roundf_sign _ (mul_sign _ _ (of_Z_sign _ Hsub0) Hmult)) Hgain). }
  repeat split; try assumption; if_cases; try reflexivity; try lia.
Qed.

(** The non-clearing branch, when it is defined. *)
Lemma score_missing_spec (gm gm' : GameContext) (gt gt' cg : Z) (mult : F32.float) :
  score_missing gm gt = Some (gm', gt', cg, mult) ->
  gt' = gt /\ cg = 0 /\ score gm' = score gm /\ high_score gm' = high_score gm /\
  (combo gm' = combo gm \/ combo gm' = 0).
Proof.
  unfold score_missing. intros H.
  destruct (combo gm >? 0) eqn:Ec.
  - apply bind_Some in H. destruct H as (cm & Hcm & H).
    cbv zeta in H. destruct (_ >? 3) in H; injection H as <- <- <- <-;
      simpl; repeat split; auto.
  - injection H as <- <- <- <-. simpl. repeat split; auto.
Qed.

(** One call, when it is defined, on non-negative arguments and a
    non-negative combo. *)
Lemma score_move_step (gm gm' : GameContext) (p l c : Z) (res : MoveResult) :
  0 <= combo gm -> 0 <= p -> 0 <= l -> 0 <= c ->
  blockblaster_score_move gm p l c = Some (gm', res) ->
  score gm' = score gm + gained_total res /\ 0 <= gained_total res /\
  high_score gm' = Z.max (high_score gm) (score gm') /\ 0 <= combo gm'.
Proof.
  intros Hc Hp Hl Hk H. unfold blockblaster_score_move in H.
  apply bind_Some in H. destruct H as (pg & Hpg & H).
  apply int_of_Some in Hpg. destruct Hpg as [-> _].
  apply bind_Some in H. destruct H as (gt0 & Hgt0 & H).
  apply int_of_Some in Hgt0. destruct Hgt0 as [-> _].
  apply bind_Some in H. destruct H as ([[[gm1 gt1] cg] mult] & Hbr & H).
  cbv zeta in H.
  apply bind_Some in H. destruct H as (s & Hs & H).
  apply long_of_Some in Hs. destruct Hs as [-> _].
  injection H as <- <-.
  assert (Hfacts : score gm1 = score gm /\ high_score gm1 = high_score gm /\
                   0 <= gt1 /\ 0 <= combo gm1).
  { unfold SCORE_PER_PLACED_CELL in Hbr. destruct (l >? 0) eqn:El.
    - apply score_clearing_spec in Hbr; [|assumption || lia ..].
      destruct Hbr as (Hcombo & _ & _ & Hsc & Hhs & Hcg & -> & _). lia.
    - apply score_missing_spec in Hbr.
      destruct Hbr as (-> & _ & Hsc & Hhs & Hcombo). lia. }
  destruct Hfacts as (Hsc & Hhs & Hgt & Hcombo).
  if_cases; lia.
Qed.

Lemma last_cons {A : Type} (l : list A) (x d : A) :
  List.last (x :: l) d = List.last l x.
Proof.
  revert x d. induction l as [|y l IH]; intros x d; [reflexivity|].
  change (List.last (x :: y :: l) d) with (List.last (y :: l) d).
  rewrite !IH. reflexivity.
Qed.

Lemma play_trace (moves : list Move) (gm : GameContext) (trace : list GameContext) :
  0 <= combo gm -> Forall move_nonneg moves -> play gm moves = Some trace ->
  length trace = length moves /\
  score gm <= score (List.last trace gm) /\
  Forall (fun g => score gm <= score g /\ score g <= high_score g) trace /\
  high_score (List.last trace gm) = max_score (high_score gm) trace /\
  (forall i g g', (gm :: trace) !! i = Some g -> (gm :: trace) !! S i = Some g' ->
     score g <= score g').
Proof.
  revert gm trace. induction moves as [|m moves IH]; intros gm trace Hc Hnn H.
  - injection H as <-. simpl. repeat split; try lia; [constructor|].
    intros i g g' _ Hg'. destruct i; discriminate.
  - simpl in H. apply bind_Some in H. destruct H as ([gm1 res] & Hstep & H).
    apply bind_Some in H. destruct H as (rest & Hrest & H). injection H as <-.
    inversion Hnn as [|? ? (Hp & Hl & Hk) Hnn']; subst.
    destruct (score_move_step _ _ _ _ _ _ Hc Hp Hl Hk Hstep) as (Hs & Hg & Hh & Hc1).
    destruct (IH gm1 rest Hc1 Hnn' Hrest) as (Hlen & Hlast & Hall & Hmax & Hmono).
    rewrite last_cons. repeat split.
    + simpl. lia.
    + lia.
    + constructor; [lia|]. eapply Forall_impl; [exact Hall|]. simpl. intros g0 ?. lia.
    + rewrite Hmax. unfold max_score. simpl.
      assert (Hge : score gm1 <= fold_right Z.max (high_score gm1) (map score rest)).
      { clear -Hall Hh. induction rest as [|g0 rest IHr]; simpl; [lia|].
        inversion Hall; subst. specialize (IHr ltac:(assumption)). lia. }
      assert (Hfold : forall a b l0, a <= b ->
                fold_right Z.max a l0 <= fold_right Z.max b l0).
      { intros a b l0 Hab. induction l0; simpl; lia. }
      assert (Hfold2 : forall a l0, a <= fold_right Z.max a l0).
      { intros a l0. induction l0; simpl; lia. }
      assert (Hfold3 : forall a l0 z, fold_right Z.max (Z.max a z) l0 =
                                      Z.max z (fold_right Z.max a l0)).
      { intros a l0 z. induction l0; simpl; lia. }
      rewrite Hh, Hfold3. lia.
    + intros i g g' Hi Hi'. destruct i as [|i].
      * simpl in Hi, Hi'. injection Hi as <-. injection Hi' as <-. lia.
      * apply (Hmono i g g'); assumption.
Qed.

(** C3. Combo forgiveness.  From a state with a positive combo and no
    miss counted, three non-clearing calls in a row each leave the combo
    and [last_move_mult] as they were, and a fourth resets the combo and
    the miss count to 0 and [last_move_mult] to 1; with a combo of 0 a
    non-clearing call sets [last_move_mult] to 1.  The calls are defined
    as soon as the placed-cell counts are [int]s and the score stays a
    [long]. *)
Theorem combo_forgiveness (gm : GameContext) (p1 p2 p3 p4 k1 k2 k3 k4 : Z) :
  int_range p1 -> int_range p2 -> int_range p3 -> int_range p4 ->
  long_range (score gm + p1) -> long_range (score gm + p1 + p2) ->
  long_range (score gm + p1 + p2 + p3) ->
  long_range (score gm + p1 + p2 + p3 + p4) ->
  (0 < combo gm -> combo_miss gm = 0 ->
   exists gm1 gm2 gm3 gm4 r1 r2 r3 r4,
     blockblaster_score_move gm p1 0 k1 = Some (gm1, r1) /\
     blockblaster_score_move gm1 p2 0 k2 = Some (gm2, r2) /\
     blockblaster_score_move gm2 p3 0 k3 = Some (gm3, r3) /\
     blockblaster_score_move gm3 p4 0 k4 = Some (gm4, r4) /\
     (combo gm1 = combo gm /\ last_move_mult gm1 = last_move_mult gm) /\
     (combo gm2 = combo gm /\ last_move_mult gm2 = last_move_mult gm) /\
     (combo gm3 = combo gm /\ last_move_mult gm3 = last_move_mult gm) /\
     combo gm4 = 0 /\ combo_miss gm4 = 0 /\ last_move_mult gm4 = F32.one) /\
  (combo gm = 0 ->
   exists gm1 r1,
     blockblaster_score_move gm p1 0 k1 = Some (gm1, r1) /\
     last_move_mult gm1 = F32.one).
Proof.
  intros Hp1 Hp2 Hp3 Hp4 Hs1 Hs2 Hs3 Hs4.
  assert (Hsmall : forall z, 0 <= z <= 3 -> int_range (z + 1))
    by (unfold int_range, INT_MIN, INT_MAX; lia).
  split.
  - intros Hc Hm.
    destruct (score_move_miss gm p1 k1 Hp1 Hs1) as (gm1 & r1 & E1 & S1 & A1 & _);
      [apply Hsmall; lia|].
    destruct (A1 Hc) as (C1 & M1 & L1); [lia|].
    destruct (score_move_miss gm1 p2 k2 Hp2) as (gm2 & r2 & E2 & S2 & A2 & _);
      [rewrite S1; exact Hs2 | apply Hsmall; lia|].
    destruct A2 as (C2 & M2 & L2); [lia | lia|].
    destruct (score_move_miss gm2 p3 k3 Hp3) as (gm3 & r3 & E3 & S3 & A3 & _);
      [rewrite S2, S1; exact Hs3 | apply Hsmall; lia|].
    destruct A3 as (C3 & M3 & L3); [lia | lia|].
    destruct (score_move_miss gm3 p4 k4 Hp4) as (gm4 & r4 & E4 & S4 & _ & B4 & _);
      [rewrite S3, S2, S1; exact Hs4 | apply Hsmall; lia|].
    destruct B4 as (C4 & M4 & L4); [lia | lia|].
    exists gm1, gm2, gm3, gm4, r1, r2, r3, r4.
    repeat split; try assumption; congruence.
  - intros Hc.
    unfold blockblaster_score_move.
    rewrite int_mul_one by exact Hp1. simpl.
    unfold int_add. rewrite (int_of_range (0 + p1)) by (simpl; exact Hp1). simpl.
    unfold score_missing. rewrite Hc. simpl.
    unfold long_add. rewrite long_of_range by exact Hs1. simpl.
    eexists _, _. split; [reflexivity|]. if_cases; reflexivity.
Qed.

Lemma combo_forgiveness_witness :
  exists gm1 gm2 gm3 gm4 r1 r2 r3 r4,
    blockblaster_score_move context_combo3 1 0 0 = Some (gm1, r1) /\
    blockblaster_score_move gm1 2 0 0 = Some (gm2, r2) /\
    blockblaster_score_move gm2 3 0 0 = Some (gm3, r3) /\
    blockblaster_score_move gm3 4 0 0 = Some (gm4, r4) /\
    (combo gm1 = combo context_combo3 /\
     last_move_mult gm1 = last_move_mult context_combo3) /\
    (combo gm2 = combo context_combo3 /\
     last_move_mult gm2 = last_move_mult context_combo3) /\
    (combo gm3 = combo context_combo3 /\
     last_move_mult gm3 = last_move_mult context_combo3) /\
    combo gm4 = 0 /\ combo_miss gm4 = 0 /\ last_move_mult gm4 = F32.one.
Proof.
  apply (proj1 (combo_forgiveness context_combo3 1 2 3 4 0 0 0 0
                  ltac:(unfold int_range, INT_MIN, INT_MAX; lia)
                  ltac:(unfold int_range, INT_MIN, INT_MAX; lia)
                  ltac:(unfold int_range, INT_MIN, INT_MAX; lia)
                  ltac:(unfold int_range, INT_MIN, INT_MAX; lia)
                  ltac:(unfold long_range, LONG_MIN, LONG_MAX; simpl; lia)
                  ltac:(unfold long_range, LONG_MIN, LONG_MAX; simpl; lia)
                  ltac:(unfold long_range, LONG_MIN, LONG_MAX; simpl; lia)
                  ltac:(unfold long_range, LONG_MIN, LONG_MAX; simpl; lia))).
  - simpl. lia.
  - reflexivity.
Defined.

(** ** Scoring: the clearing branch on the values of a game

    A grid has at most 40 lines and 400 cells, so the sum of the bonuses
    is at most 6950; on that range, and for combos up to 100000, the float
    computation of the clearing branch is exact. *)

Lemma forallb_zrange (p : Z -> bool) (lo hi : Z) :
  forallb p (zrange lo hi) = true -> forall k, lo <= k < hi -> p k = true.
Proof.
  intros H k Hk. rewrite forallb_forall in H. apply H. apply zrange_In. exact Hk.
Qed.

Lemma float_same_eq (x y : F32.float) : float_same x y = true -> x = y.
Proof.
  destruct x as [s|s| |s m e], y as [s'|s'| |s' m' e']; simpl; try discriminate;
    try reflexivity.
  - intros H. apply eqb_prop in H. congruence.
  - intros H. apply eqb_prop in H. congruence.
  - intros H. apply andb_prop in H. destruct H as [H He].
    apply andb_prop in H. destruct H as [Hs Hm].
    apply eqb_prop in Hs. apply Pos.eqb_eq in Hm. apply Z.eqb_eq in He. congruence.
Qed.

Lemma multiplier_exact (combo : Z) :
  0 <= combo <= 100000 -> clear_mult combo = F32.of_Z (ideal_mult combo).
Proof.
  intros Hc. apply float_same_eq.
  assert (H : forallb mult_exact_on (zrange 0 100001) = true)
    by (vm_compute; reflexivity).
  apply (forallb_zrange _ _ _ H). lia.
Qed.

Lemma clear_gain_exact (subtotal m : Z) :
  0 <= subtotal <= 7000 -> 1 <= m <= 20 ->
  F32.to_int (F32.roundf (F32.mul (F32.of_Z subtotal) (F32.of_Z m))) =
  Some (subtotal * m).
Proof.
  intros Hs Hm.
  assert (H : forallb (fun s => forallb (gain_exact_on s) (zrange 1 21))
                (zrange 0 7001) = true) by (vm_compute; reflexivity).
  pose proof (forallb_zrange _ _ _ (forallb_zrange _ _ _ H subtotal ltac:(lia))
                m ltac:(lia)) as Hk.
  unfold gain_exact_on in Hk.
  destruct (F32.to_int _) as [z|]; [|discriminate].
  apply Z.eqb_eq in Hk. congruence.
Qed.

Lemma ideal_subtotal_bounds (l c : Z) :
  1 <= l <= 40 -> 0 <= c <= 400 -> 0 <= ideal_subtotal l c <= 7000.
Proof.
  intros Hl Hc. unfold ideal_subtotal, SCORE_PER_CLEARED_CELL, SCORE_PER_LINE_BONUS,
    SCORE_MULTI_LINE_BONUS. destruct (l >? 1) eqn:E; lia.
Qed.

(** A clearing call is defined on the values of a game, and its gain is
    the formula of the specification. *)
Lemma score_move_clearing (gm : GameContext) (p l c : Z) :
  0 <= combo gm -> combo gm + l <= 100000 ->
  0 <= p <= 1000000 -> 1 <= l <= 40 -> 0 <= c <= 400 ->
  let gain := ideal_subtotal l c * ideal_mult (combo gm + l) in
  long_range (score gm + (p + gain)) ->
  exists gm' res,
    blockblaster_score_move gm p l c = Some (gm', res) /\
    gained_total res = p + gain /\ out_clear_gain res = gain /\
    out_mult res = F32.of_Z (ideal_mult (combo gm + l)) /\
    combo gm' = combo gm + l /\ combo_miss gm' = 0 /\
    last_move_mult gm' = out_mult res /\
    score gm' = score gm + (p + gain).
Proof.
  intros Hc Hcl Hp Hl Hk gain Hs.
  pose proof (ideal_subtotal_bounds l c Hl Hk) as Hsub.
  assert (Hmult : 1 <= ideal_mult (combo gm + l) <= 20) by (unfold ideal_mult; lia).
  assert (Hgain : 0 <= gain <= 140000) by (unfold gain; nia).
  assert (Hint : forall z, -1000 <= z <= 2000000 -> int_of z = Some z).
  { intros z Hz. apply int_of_range. unfold int_range, INT_MIN, INT_MAX. lia. }
  unfold blockblaster_score_move.
  rewrite int_mul_one by (unfold int_range, INT_MIN, INT_MAX; lia).
  cbn [mbind option_bind]. unfold int_add at 1.
  rewrite (Hint (0 + p)) by lia. cbn [mbind option_bind].
  replace (l >? 0) with true by lia.
  unfold score_clearing, int_add, int_mul, int_sub.
  rewrite (Hint (combo gm + l)) by lia. cbn [mbind option_bind]. cbv zeta.
  rewrite (Hint (c * SCORE_PER_CLEARED_CELL))
    by (unfold SCORE_PER_CLEARED_CELL; lia).
  cbn [mbind option_bind].
  rewrite (Hint (l * SCORE_PER_LINE_BONUS)) by (unfold SCORE_PER_LINE_BONUS; lia).
  cbn [mbind option_bind].
  assert (Hmb : (if l >? 1
                 then int_of (l - 1) ≫= (fun d => int_of (SCORE_MULTI_LINE_BONUS * d))
                 else Some 0)
                = Some (if l >? 1 then SCORE_MULTI_LINE_BONUS * (l - 1) else 0)).
  { destruct (l >? 1); [|reflexivity].
    rewrite (Hint (l - 1)) by lia. cbn [mbind option_bind].
    apply Hint. unfold SCORE_MULTI_LINE_BONUS. lia. }
  rewrite Hmb. cbn [mbind option_bind].
  assert (Hs1 : -1000 <= c * SCORE_PER_CLEARED_CELL + l * SCORE_PER_LINE_BONUS
                <= 2000000)
    by (unfold SCORE_PER_CLEARED_CELL, SCORE_PER_LINE_BONUS; lia).
  rewrite (Hint _ Hs1). cbn [mbind option_bind].
  fold (ideal_subtotal l c).
  rewrite (Hint (ideal_subtotal l c)) by lia. cbn [mbind option_bind].
  match goal with
  | |- context [F32.add F32.one (F32.of_Z ?x)] =>
      replace x with (combo gm + l) by (if_cases; reflexivity)
  end.
  fold (clear_mult (combo gm + l)).
  rewrite multiplier_exact by lia.
  rewrite clear_gain_exact by lia. cbn [mbind option_bind].
  fold gain. rewrite (Hint (0 + p + gain)) by lia.
  cbn [mbind option_bind]. unfold long_add.
  match goal with
  | |- context [long_of ?x] => replace x with (score gm + (p + gain))
  end.
  2: { if_cases; lia. }
  rewrite long_of_range by exact Hs. cbn [mbind option_bind].
  eexists _, _. split; [reflexivity|].
  cbn [gained_total out_clear_gain out_mult].
  repeat split; try lia; if_cases; try reflexivity; lia.
Qed.

(** A move of a game is defined, and leaves room for the moves to come. *)
Lemma score_move_defined (gm : GameContext) (m : Move) (n : Z) :
  0 < n -> moves_left gm n -> move_in_game m ->
  exists gm' res,
    blockblaster_score_move gm (placed_cells m) (lines_cleared m) (cleared_cells m)
      = Some (gm', res) /\
    moves_left gm' (n - 1).
Proof.
  intros Hn (Hc & Hm & Hs) (Hp & Hl & Hk).
  destruct (Z.eq_dec (lines_cleared m) 0) as [E0|Hne].
  - rewrite E0.
    destruct (score_move_miss gm (placed_cells m) (cleared_cells m))
      as (gm' & res & E & S & A & B & C).
    + unfold int_range, INT_MIN, INT_MAX. lia.
    + unfold long_range, LONG_MIN, LONG_MAX. lia.
    + unfold int_range, INT_MIN, INT_MAX. lia.
    + exists gm', res. split; [exact E|]. unfold moves_left.
      destruct (Z.lt_ge_cases 0 (combo gm)) as [Hpos|Hzero].
      * destruct (Z.le_gt_cases (combo_miss gm + 1) 3) as [H3|H3].
        -- destruct (A Hpos H3) as (-> & -> & _). lia.
        -- destruct (B Hpos ltac:(lia)) as (-> & -> & _). lia.
      * destruct (C ltac:(lia)) as (-> & -> & _). lia.
  - destruct (score_move_clearing gm (placed_cells m) (lines_cleared m)
                (cleared_cells m)) as (gm' & res & E & _ & _ & _ & Hc' & Hm' & _ & Hs');
      try lia.
    + pose proof (ideal_subtotal_bounds (lines_cleared m) (cleared_cells m)
                    ltac:(lia) Hk) as Hsub.
      assert (Hmult : 1 <= ideal_mult (combo gm + lines_cleared m) <= 20)
        by (unfold ideal_mult; lia).
      unfold long_range, LONG_MIN, LONG_MAX. nia.
    + exists gm', res. split; [exact E|]. unfold moves_left.
      pose proof (ideal_subtotal_bounds (lines_cleared m) (cleared_cells m)
                    ltac:(lia) Hk) as Hsub.
      assert (Hmult : 1 <= ideal_mult (combo gm + lines_cleared m) <= 20)
        by (unfold ideal_mult; lia).
      rewrite Hc', Hm', Hs'. nia.
Qed.

Lemma play_defined (moves : list Move) (gm : GameContext) (n : Z) :
  Z.of_nat (length moves) <= n -> moves_left gm n -> Forall move_in_game moves ->
  exists trace, play gm moves = Some trace.
Proof.
  revert gm n. induction moves as [|m moves IH]; intros gm n Hlen Hleft Hall.
  - exists []. reflexivity.
  - inversion Hall as [|? ? Hm Hall']; subst. simpl in Hlen.
    destruct (score_move_defined gm m n ltac:(lia) Hleft Hm) as (gm' & res & E & Hleft').
    destruct (IH gm' (n - 1) ltac:(lia) Hleft' Hall') as (trace & Ht).
    exists (gm' :: trace). simpl. rewrite E. simpl. rewrite Ht. reflexivity.
Qed.

Lemma context_start_moves_left : moves_left context_start 2000.
Proof. unfold moves_left. simpl. lia. Qed.

(** C4. Score monotonicity.  A call of [blockblaster_score_move] on
    non-negative arguments, in a state whose combo is not negative (a
    session starts with a combo of 0, and the call keeps it so), never
    lowers the score, and leaves [high_score] at the larger of its old
    value and the new score, hence at least the score.  Along any sequence
    of such calls the scores never decrease and the final [high_score] is
    the largest of its initial value and all the scores observed.  The C
    function is undefined where an [int] or the [long] score overflows, so
    these statements are about the calls that are defined; a sequence of
    moves of a game is defined when the state leaves room for it, as the
    start of a session does for 2000 moves. *)
Theorem score_monotone (gm : GameContext) :
  0 <= combo gm ->
  (forall (m : Move) (gm' : GameContext) (res : MoveResult),
     move_nonneg m ->
     blockblaster_score_move gm (placed_cells m) (lines_cleared m) (cleared_cells m)
       = Some (gm', res) ->
     score gm <= score gm' /\ score gm' <= high_score gm' /\
     high_score gm' = Z.max (high_score gm) (score gm') /\ 0 <= combo gm') /\
  (forall (moves : list Move) (trace : list GameContext),
     Forall move_nonneg moves ->
     play gm moves = Some trace ->
     length trace = length moves /\
     (forall i g g', (gm :: trace) !! i = Some g -> (gm :: trace) !! S i = Some g' ->
        score g <= score g') /\
     Forall (fun g => score g <= high_score g) trace /\
     high_score (List.last trace gm) = max_score (high_score gm) trace) /\
  (forall (moves : list Move) (n : Z),
     Z.of_nat (length moves) <= n -> moves_left gm n -> Forall move_in_game moves ->
     exists trace, play gm moves = Some trace).
Proof.
  intros Hc. split; [|split; [|intros moves n; apply play_defined]].
  - intros m gm' res (Hp & Hl & Hk) H.
    destruct (score_move_step _ _ _ _ _ _ Hc Hp Hl Hk H) as (Hs & Hg & Hh & Hc').
    lia.
  - intros moves trace Hnn H.
    destruct (play_trace moves gm trace Hc Hnn H) as (Hlen & _ & Hall & Hmax & Hmono).
    repeat split; try assumption.
    eapply Forall_impl; [exact Hall|]. simpl. intros g0 ?. lia.
Qed.

Lemma score_monotone_witness :
  exists trace,
    play context_start moves_example = Some trace /\
    map score trace = [253; 257; 1462] /\
    high_score (List.last trace context_start) =
    max_score (high_score context_start) trace.
Proof.
  destruct (play context_start moves_example) as [trace|] eqn:E;
    [|vm_compute in E; discriminate].
  exists trace. split; [reflexivity|]. split.
  - vm_compute in E. injection E as <-. reflexivity.
  - apply (proj1 (proj2 (score_monotone context_start ltac:(simpl; lia)))
             moves_example trace).
    + unfold moves_example, move_nonneg. repeat constructor; simpl; lia.
    + exact E.
Defined.

(** ** The shape table *)

(** C9. The shape table is not ordered by filled-cell count, although the
    header of the table requires it: shape 19 (a bar of 3 cells) comes
    before shape 20 (a diagonal of 2 cells), the 9-cell square sits at
    index 54, and the last shape has 4 cells.  Index 0 does hold a shape
    with the fewest cells. *)
Theorem shapes_not_sorted :
  shape_filled_cells (shape_at 19) = 3 /\
  shape_filled_cells (shape_at 20) = 2 /\
  shape_filled_cells (shape_at 54) = 9 /\
  shape_filled_cells (shape_at (SHAPES_COUNT - 1)) = 4 /\
  Forall (fun s => shape_filled_cells (shape_at 0) <= shape_filled_cells s) SHAPES /\
  ~ shapes_sorted.
Proof.
  split; [reflexivity|]. split; [reflexivity|]. split; [reflexivity|].
  split; [reflexivity|]. split.
  - apply Forall_forall. intros s Hs. apply list_elem_of_In in Hs.
    assert (H : forallb (fun s => shape_filled_cells (shape_at 0) <=?
                                  shape_filled_cells s) SHAPES = true)
      by (vm_compute; reflexivity).
    rewrite forallb_forall in H. apply Z.leb_le. apply H. exact Hs.
  - intros H. specialize (H 19 20 ltac:(lia) ltac:(lia) ltac:(unfold SHAPES_COUNT; lia)).
    vm_compute in H. apply H. reflexivity.
Qed.

(** ** Settings *)

Lemma load_settings_missing (fs : gmap string string) :
  fs !! settings_path = None -> blockblaster_load_settings fs = (4, 10).
Proof.
  intros H. unfold blockblaster_load_settings, fopen_r.
  change (SAVE_DIR +:+ SETTINGS_FILENAME) with settings_path. rewrite H. reflexivity.
Qed.

Lemma load_settings_parsed (fs : gmap string string) (tc gs : Z) :
  settings_parsed fs tc gs ->
  blockblaster_load_settings fs =
  (if tc <? 1 then 1 else if tc >? 4 then 4 else tc,
   if negb (gs =? 10) && negb (gs =? 15) && negb (gs =? 20) then 10 else gs).
Proof.
  intros (f & rest & Hf & Hscan). unfold blockblaster_load_settings, fopen_r.
  change (SAVE_DIR +:+ SETTINGS_FILENAME) with settings_path. rewrite Hf.
  unfold fscanf. rewrite Hscan. cbv zeta. cbn [int_arg lookup list_lookup length].
  replace (Z.of_nat 2 >=? 2) with true by reflexivity.
  destruct (tc <? 1) eqn:E1; [reflexivity|].
  destruct (tc >? 4) eqn:E2; reflexivity.
Qed.

Lemma load_settings_short (fs : gmap string string) (f : string) :
  fs !! settings_path = Some f ->
  (length (fst (scan_convs [Cint; Cint] f)) < 2)%nat ->
  blockblaster_load_settings fs = (4, 10).
Proof.
  intros Hf Hlen. unfold blockblaster_load_settings, fopen_r.
  change (SAVE_DIR +:+ SETTINGS_FILENAME) with settings_path. rewrite Hf.
  unfold fscanf. destruct (scan_convs [Cint; Cint] f) as [vs rest]. simpl in Hlen.
  cbv zeta.
  assert (Hn : (match vs, skip_space f with
                | [], EmptyString => -1
                | _, _ => Z.of_nat (length vs)
                end >=? 2) = false).
  { destruct vs as [|v [|v' vs]]; simpl in *; [destruct (skip_space f)| |lia];
      reflexivity. }
  rewrite Hn. reflexivity.
Qed.

Lemma load_settings_valid (fs : gmap string string) :
  valid_tray_count (fst (blockblaster_load_settings fs)) /\
  valid_grid_size (snd (blockblaster_load_settings fs)).
Proof.
  unfold blockblaster_load_settings, valid_tray_count, valid_grid_size.
  destruct (fopen_r fs (SAVE_DIR +:+ SETTINGS_FILENAME)) as [f|]; [|simpl; lia].
  destruct (fscanf [Cint; Cint] f) as [[n vs] rest]. cbv zeta.
  set (tc := int_arg 0 vs 4). set (gs := int_arg 1 vs 10). clearbody tc gs.
  destruct (n >=? 2); cbv iota beta.
  - destruct (tc <? 1) eqn:E1; [|destruct (tc >? 4) eqn:E2];
      destruct (gs =? 10) eqn:G1; destruct (gs =? 15) eqn:G2;
      destruct (gs =? 20) eqn:G3; simpl; lia.
  - simpl. lia.
Qed.

(** C7, as the code has it.  A missing settings file, or one from which
    fewer than two integers are read, yields (4, 10).  Otherwise the two
    values read, when they fit an [int], are checked one by one: a tray
    count in [1, 4] is kept and one above 4 becomes 4, a grid size of 10,
    15 or 20 is kept and any other becomes 10.  Whatever the file holds,
    the result has a tray count in [1, 4] and a grid size of 10, 15 or
    20. *)
Theorem load_settings_fieldwise (fs : gmap string string) :
  (fs !! settings_path = None -> blockblaster_load_settings fs = (4, 10)) /\
  (forall f, fs !! settings_path = Some f ->
     (length (fst (scan_convs [Cint; Cint] f)) < 2)%nat ->
     blockblaster_load_settings fs = (4, 10)) /\
  (forall tc gs, settings_parsed fs tc gs -> int_range tc -> int_range gs ->
     let tray_count := fst (blockblaster_load_settings fs) in
     let grid_size := snd (blockblaster_load_settings fs) in
     (valid_tray_count tc -> tray_count = tc) /\
     (4 < tc -> tray_count = 4) /\
     (valid_grid_size gs -> grid_size = gs) /\
     (~ valid_grid_size gs -> grid_size = 10)) /\
  (valid_tray_count (fst (blockblaster_load_settings fs)) /\
   valid_grid_size (snd (blockblaster_load_settings fs))).
Proof.
  split; [apply load_settings_missing|]. split; [apply load_settings_short|].
  split; [|apply load_settings_valid].
  intros tc gs Hp _ _. rewrite (load_settings_parsed fs tc gs Hp).
  unfold valid_tray_count, valid_grid_size. simpl.
  destruct (tc <? 1) eqn:E1; [|destruct (tc >? 4) eqn:E2];
    destruct (gs =? 10) eqn:G1; destruct (gs =? 15) eqn:G2; destruct (gs =? 20) eqn:G3;
    simpl; repeat split; intros; lia.
Qed.

Lemma load_settings_fieldwise_witness :
  settings_parsed (one_file settings_path "9 15") 9 15 /\
  blockblaster_load_settings (one_file settings_path "9 15") = (4, 15).
Proof.
  assert (Hp : settings_parsed (one_file settings_path "9 15") 9 15)
    by (exists "9 15"%string, ""%string; split; reflexivity).
  split; [exact Hp|].
  destruct (proj1 (proj2 (proj2 (load_settings_fieldwise
                                   (one_file settings_path "9 15"))))
              9 15 Hp
              ltac:(unfold int_range, INT_MIN, INT_MAX; lia)
              ltac:(unfold int_range, INT_MIN, INT_MAX; lia)) as (_ & Ht & Hg & _).
  rewrite (surjective_pairing (blockblaster_load_settings _)).
  rewrite (Ht ltac:(lia)), (Hg ltac:(unfold valid_grid_size; lia)). reflexivity.
Defined.

(** The settings file "2 7" holds a valid tray count and an invalid grid
    size; the loader answers (2, 10), not (4, 10). *)
Lemma load_settings_counterexample : ~ settings_default_pair.
Proof.
  intros H.
  specialize (H (one_file settings_path "2 7") 2 7).
  assert (Hp : settings_parsed (one_file settings_path "2 7") 2 7)
    by (exists "2 7"%string, ""%string; split; reflexivity).
  specialize (H Hp ltac:(right; unfold valid_grid_size; lia)).
  vm_compute in H. discriminate H.
Qed.

(** ** The legacy high-score file *)

(** C8.  With no scores file and the legacy file "1234 7", the loader
    builds one entry with the score and the combo of the file and the
    name PLAYR, but its grid width, grid height and tray count are the 0
    of the [memset], not 10, 10 and 4. *)
Theorem legacy_entry_dims :
  let gm := blockblaster_load_high_scores context_start (one_file legacy_path "1234 7") in
  high_score_count gm = 1 /\
  arr_get entry_zero (high_scores gm) 0 = mkEntry 0 0 0 1234 7 "PLAYR" /\
  high_score gm = 1234.
Proof. vm_compute. repeat split; reflexivity. Qed.

(** ** The bag randomizer *)

Section BagProperties.
Variable RNG : Type.
Variable rand : RNG -> Z * RNG.
Variable RAND_MAX : Z.

Lemma set_bag_pos_same (gm : GameContext) : set_bag_pos gm (bag_pos gm) = gm.
Proof. destruct gm. reflexivity. Qed.

(** A refill sets the length, resets the cursor and touches nothing but
    the bag. *)
Lemma bag_refill_fields (gm : GameContext) (rng : RNG) :
  let gm' := fst (bag_refill RNG rand RAND_MAX gm rng) in
  bag_len gm' = BAG_SIZE /\ bag_pos gm' = 0 /\ score gm' = score gm /\
  high_score gm' = high_score gm /\ combo gm' = combo gm.
Proof.
  unfold bag_refill. cbv zeta.
  set (loop := for_range 0 _ _ _).
  assert (Hloop : bag_len (fst loop) = BAG_SIZE /\ score (fst loop) = score gm /\
                  high_score (fst loop) = high_score gm /\
                  combo (fst loop) = combo gm).
  { unfold loop.
    apply (for_range_preserves
             (fun t : GameContext * RNG =>
                bag_len (fst t) = BAG_SIZE /\ score (fst t) = score gm /\
                high_score (fst t) = high_score gm /\ combo (fst t) = combo gm)).
    - simpl. repeat split; reflexivity.
    - intros k [g0 r0] _ H.
      destruct (weighted_shape_index RNG rand RAND_MAX (long_to_int (score g0)) r0)
        as [idx r1].
      exact H. }
  destruct loop as [g1 r1]. simpl in Hloop.
  destruct (blockblaster_shuffle_ints RNG rand (bag g1) (bag_len g1) r1) as [sh r2].
  simpl. destruct Hloop as (H1 & H2 & H3 & H4). repeat split; assumption.
Qed.

(** Draws that stay inside the bag read it in order and change nothing
    but the cursor; the generator is not consulted. *)
Lemma bag_draws_inside (n : nat) (gm : GameContext) (rng : RNG) :
  0 <= bag_pos gm -> bag_pos gm + Z.of_nat n <= bag_len gm ->
  bag_draws RNG rand RAND_MAX n gm rng =
  (map (arr_get 0 (bag gm)) (range_list n (bag_pos gm)),
   set_bag_pos gm (bag_pos gm + Z.of_nat n), rng).
Proof.
  revert gm. induction n as [|n IH]; intros gm H0 Hn.
  - simpl. rewrite Z.add_0_r, set_bag_pos_same. reflexivity.
  - cbn [bag_draws]. unfold bag_next_shape_index, bag_exhausted.
    replace (bag_len gm <=? 0) with false by lia.
    replace (bag_pos gm >=? bag_len gm) with false by lia.
    simpl orb. cbv iota. unfold bag_draw.
    rewrite IH by (simpl; lia). simpl. f_equal. f_equal.
    destruct gm. simpl. f_equal. lia.
Qed.
End BagProperties.

(** C5. The bag invariant.  After a draw the cursor never exceeds the
    length of the bag.  A refill sets the length to [BAG_SIZE] and the
    cursor to 0.  From a fresh bag, [n <= BAG_SIZE] draws return the first
    [n] entries of the bag in order without refilling: the bag and the
    generator are untouched; once [BAG_SIZE] entries are drawn the next
    draw refills first and returns entry 0 of the new bag.  While the bag
    is not exhausted a draw does not read the score: with any other score
    it returns the same index and leaves the same bag. *)
Theorem bag_invariant (RNG : Type) (rand : RNG -> Z * RNG) (RAND_MAX : Z)
    (gm : GameContext) (rng : RNG) :
  (let gm' := snd (fst (bag_next_shape_index RNG rand RAND_MAX gm rng)) in
   bag_pos gm' <= bag_len gm' /\ (0 <= bag_pos gm -> 0 < bag_pos gm')) /\
  bag_fresh (fst (bag_refill RNG rand RAND_MAX gm rng)) /\
  (bag_fresh gm ->
   forall n, 0 <= n <= BAG_SIZE ->
     bag_draws RNG rand RAND_MAX (Z.to_nat n) gm rng =
     (map (arr_get 0 (bag gm)) (zrange 0 n), set_bag_pos gm n, rng)) /\
  (bag_len gm = BAG_SIZE -> bag_pos gm = BAG_SIZE ->
   bag_next_shape_index RNG rand RAND_MAX gm rng =
   (arr_get 0 (bag (fst (bag_refill RNG rand RAND_MAX gm rng))) 0,
    set_bag_pos (fst (bag_refill RNG rand RAND_MAX gm rng)) 1,
    snd (bag_refill RNG rand RAND_MAX gm rng))) /\
  (bag_exhausted gm = false ->
   forall s',
     bag_next_shape_index RNG rand RAND_MAX (set_score gm s') rng =
     (fst (fst (bag_next_shape_index RNG rand RAND_MAX gm rng)),
      set_score (snd (fst (bag_next_shape_index RNG rand RAND_MAX gm rng))) s',
      rng) /\
     bag (snd (fst (bag_next_shape_index RNG rand RAND_MAX gm rng))) = bag gm /\
     snd (bag_next_shape_index RNG rand RAND_MAX gm rng) = rng).
Proof.
  pose proof (bag_refill_fields RNG rand RAND_MAX gm rng) as Hre. cbv zeta in Hre.
  destruct Hre as (Hlen & Hpos & _).
  split; [|split; [|split; [|split]]].
  - unfold bag_next_shape_index. destruct (bag_exhausted gm) eqn:Ex.
    + destruct (bag_refill RNG rand RAND_MAX gm rng) as [g1 r1]. simpl in *.
      rewrite Hlen, Hpos. unfold BAG_SIZE. lia.
    + unfold bag_exhausted in Ex. simpl. lia.
  - split; assumption.
  - intros [Hl Hp] n Hn.
    rewrite (bag_draws_inside RNG rand RAND_MAX) by lia.
    rewrite Hp. unfold zrange. rewrite Z.sub_0_r, Z2Nat.id by lia. reflexivity.
  - intros Hl Hp. unfold bag_next_shape_index, bag_exhausted.
    replace (bag_pos gm >=? bag_len gm) with true by lia. rewrite orb_true_r.
    destruct (bag_refill RNG rand RAND_MAX gm rng) as [g1 r1]. simpl in *.
    unfold bag_draw. rewrite Hpos. reflexivity.
  - intros Ex s'. unfold bag_next_shape_index.
    assert (Ex' : bag_exhausted (set_score gm s') = false) by exact Ex.
    rewrite Ex, Ex'. simpl. repeat split; reflexivity.
Qed.

Lemma bag_invariant_witness :
  let gm := fst (bag_refill Z lcg_rand LCG_RAND_MAX context_start 42) in
  bag_fresh gm /\
  bag_draws Z lcg_rand LCG_RAND_MAX 24 gm 7 =
    (map (arr_get 0 (bag gm)) (zrange 0 24), set_bag_pos gm 24, 7).
Proof.
  intros gm.
  assert (Hf : bag_fresh gm) by (split; vm_compute; reflexivity).
  split; [exact Hf|].
  apply (proj1 (proj2 (proj2 (bag_invariant Z lcg_rand LCG_RAND_MAX gm 7))) Hf 24).
  unfold BAG_SIZE. lia.
Defined.

(** ** The high-score table *)

(** [for (i = nc - 1; i > pos; i--) hs[i] = hs[i - 1]]. *)
Lemma shift_down (hs0 : list HighScoreEntry) (pos nc : Z) :
  0 <= pos -> nc - 1 < Z.of_nat (length hs0) ->
  let hs1 := for_down (nc - 1) pos (fun i hs =>
               arr_set hs i (arr_get entry_zero hs (i - 1))) hs0 in
  length hs1 = length hs0 /\
  (forall k, arr_get entry_zero hs1 k =
     if (pos <? k) && (k <=? nc - 1) then arr_get entry_zero hs0 (k - 1)
     else arr_get entry_zero hs0 k).
Proof.
  intros Hpos Hnc hs1. destruct (Z.le_gt_cases pos (nc - 1)) as [Hle|Hgt].
  - assert (G : length hs1 = length hs0 /\
                forall k, arr_get entry_zero hs1 k =
                  if (pos <? k) && (k <=? nc - 1) then arr_get entry_zero hs0 (k - 1)
                  else arr_get entry_zero hs0 k).
    { unfold hs1.
      apply (for_down_invariant
               (fun i hs => length hs = length hs0 /\
                  forall k, arr_get entry_zero hs k =
                    if (i <? k) && (k <=? nc - 1) then arr_get entry_zero hs0 (k - 1)
                    else arr_get entry_zero hs0 k)); [exact Hle | |].
      - split; [reflexivity|]. intros k.
        destruct (nc - 1 <? k) eqn:E1, (k <=? nc - 1) eqn:E2; simpl;
          try reflexivity; lia.
      - intros i hs Hi [Hlen Hval]. split; [rewrite arr_set_length; exact Hlen|].
        intros k. destruct (Z.eq_dec k i) as [->|Hne].
        + rewrite arr_get_set_eq by lia. rewrite Hval.
          replace (i <? i - 1) with false by lia.
          replace (i - 1 <? i) with true by lia.
          replace (i <=? nc - 1) with true by lia. reflexivity.
        + rewrite arr_get_set_ne by congruence. rewrite Hval.
          replace (i - 1 <? k) with (i <? k) by lia. reflexivity. }
    exact G.
  - unfold hs1, for_down. replace (Z.to_nat (nc - 1 - pos)) with O by lia. simpl.
    split; [reflexivity|]. intros k.
    destruct (pos <? k) eqn:E1, (k <=? nc - 1) eqn:E2; simpl; try reflexivity; lia.
Qed.

Section HighScoreProperties.
Variables GRID_W GRID_H PIECES_PER_SET : Z.

(** The insertion, entry by entry: the table is untouched when the score
    does not beat one of five entries; otherwise the new entry sits at
    [pos], the entries before it stay and those after it move down. *)
Lemma insert_high_score_entries (gm : GameContext) (s c : Z) (n : string) :
  table_ok gm ->
  let gm' := blockblaster_insert_high_score GRID_W GRID_H PIECES_PER_SET gm s c n in
  (gm' = gm /\ high_score_count gm = MAX_HIGH_SCORES /\
   forall k, 0 <= k < MAX_HIGH_SCORES -> s <= hs_score (entry_at gm k)) \/
  (exists pos,
     0 <= pos <= high_score_count gm /\ pos < MAX_HIGH_SCORES /\
     (forall k, 0 <= k < pos -> s <= hs_score (entry_at gm k)) /\
     (pos < high_score_count gm -> hs_score (entry_at gm pos) < s) /\
     high_score_count gm' = Z.min (high_score_count gm + 1) MAX_HIGH_SCORES /\
     length (high_scores gm') = length (high_scores gm) /\
     high_score gm' = hs_score (entry_at gm' 0) /\
     hs_score (entry_at gm' pos) = s /\
     (forall k, entry_at gm' k =
        if k =? pos then
          mkEntry GRID_W GRID_H PIECES_PER_SET s c (snprintf_s (MAX_PLAYER_NAME_LEN + 1) n)
        else if (pos <? k) && (k <=? high_score_count gm' - 1) then entry_at gm (k - 1)
        else entry_at gm k)).
Proof.
  intros (Hcount & Hlen & Hsorted) gm'. unfold MAX_HIGH_SCORES in *.
  unfold gm', blockblaster_insert_high_score.
  set (hit := fun i => s >? hs_score (arr_get entry_zero (high_scores gm) i)).
  assert (Hpos : exists pos,
            match find_range 0 (high_score_count gm) hit with
            | Some i => i
            | None => high_score_count gm
            end = pos /\
            0 <= pos <= high_score_count gm /\
            (forall k, 0 <= k < pos -> s <= hs_score (entry_at gm k)) /\
            (pos < high_score_count gm -> hs_score (entry_at gm pos) < s)).
  { unfold find_range. destruct (find_loop _ 0 hit) as [i|] eqn:Ef.
    - apply find_loop_Some in Ef. destruct Ef as (Hi & Hh & Hb).
      exists i. split; [reflexivity|]. split; [lia|]. split.
      + intros k Hk. specialize (Hb k Hk). unfold hit in Hb. unfold entry_at. lia.
      + intros _. unfold hit in Hh. unfold entry_at. lia.
    - exists (high_score_count gm). split; [reflexivity|]. split; [lia|]. split.
      + intros k Hk. pose proof (find_loop_None _ _ _ Ef k ltac:(lia)) as Hb.
        unfold hit in Hb. unfold entry_at. lia.
      + lia. }
  destruct Hpos as (pos & -> & Hp & Hbefore & Hat).
  unfold MAX_HIGH_SCORES. destruct (pos >=? 5) eqn:E5.
  - left. split; [reflexivity|]. split; [lia|]. intros k Hk. apply Hbefore. lia.
  - right. exists pos. cbv zeta.
    set (nc := if high_score_count gm + 1 >? 5 then 5 else high_score_count gm + 1).
    assert (Hnc : nc = Z.min (high_score_count gm + 1) 5)
      by (unfold nc; destruct (_ >? 5) eqn:E; lia).
    destruct (shift_down (high_scores gm) pos nc) as [Hlen1 Hval1]; [lia | lia |].
    set (hs1 := for_down (nc - 1) pos _ (high_scores gm)) in *.
    split; [lia|]. split; [lia|]. split; [exact Hbefore|]. split; [exact Hat|].
    split; [exact Hnc|]. simpl.
    split; [rewrite arr_set_length; exact Hlen1|].
    split; [reflexivity|].
    assert (Hnew : forall k, arr_get entry_zero
                     (arr_set hs1 pos
                        (mkEntry GRID_W GRID_H PIECES_PER_SET s c
                           (snprintf_s (MAX_PLAYER_NAME_LEN + 1) n))) k =
               if k =? pos then
                 mkEntry GRID_W GRID_H PIECES_PER_SET s c
                   (snprintf_s (MAX_PLAYER_NAME_LEN + 1) n)
               else if (pos <? k) && (k <=? nc - 1)
                    then arr_get entry_zero (high_scores gm) (k - 1)
                    else arr_get entry_zero (high_scores gm) k).
    { intros k. destruct (Z.eq_dec k pos) as [->|Hne].
      - rewrite arr_get_set_eq by lia. replace (pos =? pos) with true by lia.
        reflexivity.
      - rewrite arr_get_set_ne by congruence. replace (k =? pos) with false by lia.
        apply Hval1. }
    split.
    + unfold entry_at. simpl. rewrite Hnew. replace (pos =? pos) with true by lia.
      reflexivity.
    + intros k. unfold entry_at. simpl. apply Hnew.
Qed.

Lemma insert_high_score_ok (gm : GameContext) (s c : Z) (n : string) :
  table_ok gm ->
  table_ok (blockblaster_insert_high_score GRID_W GRID_H PIECES_PER_SET gm s c n).
Proof.
  intros Hok.
  destruct (insert_high_score_entries gm s c n Hok)
    as [(-> & _)|(pos & Hp & Hp5 & Hbefore & Hat & Hcount' & Hlen' & _ & _ & Hval)];
    [exact Hok|].
  destruct Hok as (Hcount & Hlen & Hsorted).
  set (gm' := blockblaster_insert_high_score _ _ _ gm s c n) in *.
  unfold table_ok, MAX_HIGH_SCORES in *.
  split; [lia|]. split; [rewrite Hlen'; exact Hlen|].
  intros i j Hi Hij Hj. rewrite (Hval i), (Hval j).
  assert (Hafter : forall k, pos <= k < high_score_count gm ->
            hs_score (entry_at gm k) < s).
  { intros k Hk. specialize (Hsorted pos k ltac:(lia) ltac:(lia) ltac:(lia)).
    specialize (Hat ltac:(lia)). lia. }
  destruct (Z.eq_dec i pos) as [->|Hipos]; destruct (Z.eq_dec j pos) as [->|Hjpos].
  - replace (pos =? pos) with true by lia. simpl. lia.
  - replace (pos =? pos) with true by lia. replace (j =? pos) with false by lia.
    replace ((pos <? j) && (j <=? high_score_count gm' - 1)) with true by lia.
    simpl. specialize (Hafter (j - 1) ltac:(lia)). lia.
  - replace (pos =? pos) with true by lia. replace (i =? pos) with false by lia.
    replace ((pos <? i) && (i <=? high_score_count gm' - 1)) with false by lia.
    simpl. apply Hbefore. lia.
  - replace (i =? pos) with false by lia. replace (j =? pos) with false by lia.
    destruct (Z.lt_ge_cases pos i) as [Hlt|Hge].
    + replace ((pos <? i) && (i <=? high_score_count gm' - 1)) with true by lia.
      replace ((pos <? j) && (j <=? high_score_count gm' - 1)) with true by lia.
      apply Hsorted; lia.
    + replace ((pos <? i) && (i <=? high_score_count gm' - 1)) with false by lia.
      destruct (Z.lt_ge_cases pos j) as [Hlt'|Hge'].
      * replace ((pos <? j) && (j <=? high_score_count gm' - 1)) with true by lia.
        apply Hsorted; lia.
      * replace ((pos <? j) && (j <=? high_score_count gm' - 1)) with false by lia.
        apply Hsorted; lia.
Qed.

Lemma context_start_table_ok : table_ok context_start.
Proof.
  unfold table_ok, MAX_HIGH_SCORES. simpl. repeat split; try lia.
Qed.

Lemma insert_scores_ok (scores : list Z) (gm : GameContext) :
  table_ok gm -> table_ok (insert_scores GRID_W GRID_H PIECES_PER_SET scores gm).
Proof.
  revert gm. induction scores as [|s scores IH]; intros gm Hok; [exact Hok|].
  simpl. apply IH. apply insert_high_score_ok. exact Hok.
Qed.
End HighScoreProperties.

(** C6. High-score table ordering.  Inserting the scores 50, 200, 10,
    999, 300 and 1, in that order, into the empty table leaves the five
    entries 999, 300, 200, 50 and 10, the score 1 being discarded.  An
    insertion keeps the table invariant: at most [MAX_HIGH_SCORES]
    entries, sorted by descending score; so does any sequence of
    insertions from the empty table.  Inserting into a full table a score
    above the lowest one places the new entry, keeps the entries before
    it, moves the others down by one and so drops the lowest entry; a
    score not above the lowest entry of a full table changes nothing. *)
Theorem high_score_table_sorted (GRID_W GRID_H PIECES_PER_SET : Z) :
  (let gm := insert_scores GRID_W GRID_H PIECES_PER_SET [50; 200; 10; 999; 300; 1]
               context_start in
   table_scores gm = [999; 300; 200; 50; 10] /\ high_score_count gm = 5) /\
  (forall scores,
     table_ok (insert_scores GRID_W GRID_H PIECES_PER_SET scores context_start)) /\
  (forall gm s c n,
     table_ok gm ->
     table_ok (blockblaster_insert_high_score GRID_W GRID_H PIECES_PER_SET gm s c n)) /\
  (forall gm s c n,
     table_ok gm -> high_score_count gm = MAX_HIGH_SCORES ->
     hs_score (entry_at gm (MAX_HIGH_SCORES - 1)) < s ->
     let gm' := blockblaster_insert_high_score GRID_W GRID_H PIECES_PER_SET gm s c n in
     high_score_count gm' = MAX_HIGH_SCORES /\
     exists pos,
       0 <= pos < MAX_HIGH_SCORES /\ hs_score (entry_at gm' pos) = s /\
       (forall k, 0 <= k < pos -> entry_at gm' k = entry_at gm k) /\
       (forall k, pos < k < MAX_HIGH_SCORES -> entry_at gm' k = entry_at gm (k - 1))) /\
  (forall gm s c n,
     table_ok gm -> high_score_count gm = MAX_HIGH_SCORES ->
     s <= hs_score (entry_at gm (MAX_HIGH_SCORES - 1)) ->
     blockblaster_insert_high_score GRID_W GRID_H PIECES_PER_SET gm s c n = gm).
Proof.
  split; [split; reflexivity|].
  split; [intros scores; apply insert_scores_ok, context_start_table_ok|].
  split; [intros gm s c n; apply insert_high_score_ok|].
  split.
  - intros gm s c n Hok Hfull Hlow gm'.
    destruct (insert_high_score_entries GRID_W GRID_H PIECES_PER_SET gm s c n Hok)
      as [(_ & _ & Hall)|(pos & Hp & Hp5 & _ & _ & Hcount' & _ & _ & Hnew & Hval)].
    + unfold MAX_HIGH_SCORES in *. replace (5 - 1) with 4 in Hlow by lia.
      specialize (Hall 4 ltac:(lia)). lia.
    + fold gm' in Hcount', Hnew, Hval. unfold MAX_HIGH_SCORES in *.
      replace (5 - 1) with 4 in Hlow by lia.
      split; [lia|]. exists pos. split; [lia|]. split; [exact Hnew|]. split.
      * intros k Hk. rewrite Hval. replace (k =? pos) with false by lia.
        replace (pos <? k) with false by lia. reflexivity.
      * intros k Hk. rewrite Hval. replace (k =? pos) with false by lia.
        replace ((pos <? k) && (k <=? high_score_count gm' - 1)) with true by lia.
        reflexivity.
  - intros gm s c n Hok Hfull Hlow.
    destruct (insert_high_score_entries GRID_W GRID_H PIECES_PER_SET gm s c n Hok)
      as [(Heq & _)|(pos & Hp & Hp5 & Hbefore & Hat & _)]; [exact Heq|].
    exfalso. destruct Hok as (_ & _ & Hsorted). unfold MAX_HIGH_SCORES in *.
    replace (5 - 1) with 4 in Hlow by lia. specialize (Hat ltac:(lia)).
    specialize (Hsorted pos 4 ltac:(lia) ltac:(lia) ltac:(lia)). lia.
Qed.

Lemma high_score_table_sorted_witness :
  let full := insert_scores 10 10 4 [50; 200; 10; 999; 300] context_start in
  table_ok full /\
  table_scores (blockblaster_insert_high_score 10 10 4 full 1 0 "PLAYR") =
  table_scores full.
Proof.
  intros full.
  assert (Hok : table_ok full)
    by apply (proj1 (proj2 (high_score_table_sorted 10 10 4))).
  split; [exact Hok|].
  rewrite (proj2 (proj2 (proj2 (proj2 (high_score_table_sorted 10 10 4))))
             full 1 0 "PLAYR"%string Hok); [reflexivity | reflexivity |].
  vm_compute. discriminate.
Defined.

(** The legacy path on any file that holds a score and a combo: the
    entry gets the two values, negative ones raised to 0, and the name
    PLAYR; its grid size and tray count stay 0. *)
Lemma load_legacy_entry (gm : GameContext) (fs : gmap string string)
    (f rest : string) (hs hc : Z) :
  fs !! scores_path = None -> fs !! legacy_path = Some f ->
  scan_convs [Cint; Cint] f = ([Vint hs; Vint hc], rest) ->
  let gm' := blockblaster_load_high_scores gm fs in
  high_score_count gm' = 1 /\
  entry_at gm' 0 = mkEntry 0 0 0 (Z.max hs 0) (Z.max hc 0) "PLAYR" /\
  high_score gm' = hs.
Proof.
  intros Hs Hl Hscan. unfold blockblaster_load_high_scores, fopen_r.
  change (SAVE_DIR +:+ SCORES_FILENAME) with scores_path.
  change (SAVE_DIR +:+ HIGHSCORE_FILENAME) with legacy_path.
  rewrite Hs, Hl. unfold fscanf. rewrite Hscan. cbv zeta.
  cbn [int_arg lookup list_lookup length].
  replace (Z.of_nat 2 >=? 1) with true by reflexivity.
  clear. destruct hs as [|p|p], hc as [|q|q]; cbv; repeat split; reflexivity.
Qed.

(** ** The embedding at work *)

(** [roundf] rounds halves away from zero, and [(float)] rounds the
    integers above 2^24. *)
Example roundf_half_up :
  F32.to_int (F32.roundf (F32.mul (F32.of_Z 5) half)) = Some 3.
Proof. reflexivity. Qed.

Example roundf_half_down :
  F32.to_int (F32.roundf (F32.mul (F32.of_Z (-5)) half)) = Some (-3).
Proof. reflexivity. Qed.

Example of_Z_rounds : F32.of_Z 16777217 = F32.of_Z 16777216.
Proof. reflexivity. Qed.

(** The first clearing move of a session: 3 cells placed, one line of 10
    cells cleared; the combo becomes 1, the multiplier 2 and the gain
    3 + (10 * 10 + 25) * 2. *)
Example first_clear :
  exists gm res,
    blockblaster_score_move context_start 3 1 10 = Some (gm, res) /\
    gained_total res = 253 /\ out_clear_gain res = 250 /\ out_mult res = F32.of_Z 2 /\
    combo gm = 1 /\ score gm = 253 /\ high_score gm = 253.
Proof. eexists _, _. split; [reflexivity|]. repeat split; reflexivity. Qed.

(** A negative combo, which no session reaches, would make a clearing move
    lower the score. *)
Example negative_combo_loses :
  exists gm res,
    blockblaster_score_move (set_combo context_start (-100)) 3 1 10 = Some (gm, res) /\
    score gm = -12247.
Proof. eexists _, _. split; reflexivity. Qed.

(** Settings files, and what the loader makes of them. *)
Example settings_low_tray :
  blockblaster_load_settings (one_file settings_path "0 15") = (1, 15).
Proof. reflexivity. Qed.

Example settings_high_tray :
  blockblaster_load_settings (one_file settings_path "9 20") = (4, 20).
Proof. reflexivity. Qed.

Example settings_bad_grid :
  blockblaster_load_settings (one_file settings_path "2 7") = (2, 10).
Proof. reflexivity. Qed.

Example settings_one_number :
  blockblaster_load_settings (one_file settings_path "3") = (4, 10).
Proof. reflexivity. Qed.

Example settings_no_file : blockblaster_load_settings ∅ = (4, 10).
Proof. reflexivity. Qed.

(** A scores file with a line in the current format and one in the old
    format: the old-format line gets the default dimensions that the
    legacy file does not get. *)
Example scores_two_formats :
  let gm := blockblaster_load_high_scores context_start
              (one_file scores_path
                 ("2" +:+ String "010" ("15 15 2 500 3 BOB" +:+
                  String "010" ("400 2 AL" +:+ String "010" "")))) in
  high_score_count gm = 2 /\
  entry_at gm 0 = mkEntry 15 15 2 500 3 "BOB" /\
  entry_at gm 1 = mkEntry 10 10 4 400 2 "AL".
Proof. vm_compute. repeat split; reflexivity. Qed.

(** The mask of the position with two full rows and a full column flags
    the crossing cell (3, 2), and a cell on neither line is not flagged. *)
Example mask_crossing :
  let mask := fst (blockblaster_build_clear_mask 10 10 grid_two_rows_one_col
                     (arr2_make GRID_H_MAX GRID_W_MAX false)) in
  arr2_get false mask 2 3 = true /\ arr2_get false mask 0 0 = false.
Proof. vm_compute. split; reflexivity. Qed.

(* ====================================================================== *)
(** * Part III: further properties of the code                             *)
(* ====================================================================== *)

(** ** Loops and projections *)

(** A loop on a record, seen through a field the body updates on its
    own. *)
Lemma for_loop_proj {S T : Type} (proj : S -> T) (n : nat) (i : Z)
    (body : Z -> S -> S) (body' : Z -> T -> T) (s : S) :
  (forall k t, proj (body k t) = body' k (proj t)) ->
  proj (for_loop n i body s) = for_loop n i body' (proj s).
Proof.
  intros H. revert i s. induction n as [|n IH]; intros i s; simpl; [reflexivity|].
  rewrite IH, H. reflexivity.
Qed.

Lemma for_range_proj {S T : Type} (proj : S -> T) (lo hi : Z)
    (body : Z -> S -> S) (body' : Z -> T -> T) (s : S) :
  (forall k t, proj (body k t) = body' k (proj t)) ->
  proj (for_range lo hi body s) = for_range lo hi body' (proj s).
Proof. apply for_loop_proj. Qed.

(** Two nested loops on a record, seen through a field. *)
Lemma for_range2_proj {S T : Type} (proj : S -> T) (lo1 hi1 lo2 hi2 : Z)
    (body : Z -> Z -> S -> S) (body' : Z -> Z -> T -> T) (s : S) :
  (forall y x t, proj (body y x t) = body' y x (proj t)) ->
  proj (for_range lo1 hi1 (fun y => for_range lo2 hi2 (body y)) s) =
  for_range lo1 hi1 (fun y => for_range lo2 hi2 (body' y)) (proj s).
Proof.
  intros H. apply for_range_proj. intros y t. apply for_range_proj. apply H.
Qed.

(** One row of a guarded two-dimensional update:
    [for (x = 0; x < n; x++) if (c(x)) m[y][x] = v(x)]. *)
Lemma update_row {A : Type} (d : A) (hh ww : Z) (c : Z -> bool) (v : Z -> A)
    (y n : Z) (m : list (list A)) :
  arr2_dims hh ww m -> 0 <= y < hh -> n <= ww ->
  let m' := for_range 0 n (fun x acc => if c x then arr2_set acc y x (v x) else acc) m in
  arr2_dims hh ww m' /\
  (forall y' x', arr2_get d m' y' x' =
     if (y' =? y) && (0 <=? x') && (x' <? n) && c x' then v x'
     else arr2_get d m y' x').
Proof.
  intros Hd Hy Hn m'. destruct (Z.le_gt_cases 0 n) as [H0|H0].
  - apply (for_range_invariant
             (fun k acc => arr2_dims hh ww acc /\
                forall y' x', arr2_get d acc y' x' =
                  if (y' =? y) && (0 <=? x') && (x' <? k) && c x' then v x'
                  else arr2_get d m y' x')); [exact H0 | |].
    + split; [exact Hd|]. intros y' x'.
      destruct (y' =? y), (0 <=? x') eqn:E1, (x' <? 0) eqn:E2; simpl;
        try reflexivity; lia.
    + intros k acc Hk [Hdk Hval].
      split; [destruct (c k); [apply arr2_dims_set|]; exact Hdk|].
      intros y' x'.
      destruct (Z.eq_dec y' y) as [->|Hy']; [destruct (Z.eq_dec x' k) as [->|Hx']|].
      * replace (y =? y) with true by lia. replace (0 <=? k) with true by lia.
        replace (k <? k + 1) with true by lia. simpl.
        destruct (c k) eqn:Ec.
        -- apply (arr2_get_set_eq d hh ww); (assumption || lia).
        -- rewrite Hval. replace (k <? k) with false by lia.
           rewrite andb_false_r. reflexivity.
      * replace (x' <? k + 1) with (x' <? k) by lia. rewrite <- Hval.
        destruct (c k); [apply arr2_get_set_ne; right; congruence | reflexivity].
      * replace (y' =? y) with false by lia. simpl.
        assert (Hacc : arr2_get d acc y' x' = arr2_get d m y' x').
        { rewrite Hval. replace (y' =? y) with false by lia. reflexivity. }
        rewrite <- Hacc.
        destruct (c k); [apply arr2_get_set_ne; left; congruence | reflexivity].
  - unfold m', for_range. replace (Z.to_nat (n - 0)) with O by lia. simpl.
    split; [exact Hd|]. intros y' x'.
    destruct (y' =? y), (0 <=? x') eqn:E1, (x' <? n) eqn:E2; simpl;
      try reflexivity; lia.
Qed.

(** A guarded two-dimensional update:
    [for (y..) for (x..) if (c(y, x)) m[y][x] = v(y, x)]. *)
Lemma update_rows {A : Type} (d : A) (hh ww : Z) (c : Z -> Z -> bool)
    (v : Z -> Z -> A) (nh nw : Z) (m : list (list A)) :
  arr2_dims hh ww m -> nh <= hh -> nw <= ww ->
  let m' := for_range 0 nh (fun y =>
              for_range 0 nw (fun x acc =>
                if c y x then arr2_set acc y x (v y x) else acc)) m in
  arr2_dims hh ww m' /\
  (forall y' x', arr2_get d m' y' x' =
     if (0 <=? y') && (y' <? nh) && (0 <=? x') && (x' <? nw) && c y' x' then v y' x'
     else arr2_get d m y' x').
Proof.
  intros Hd Hh Hw m'. destruct (Z.le_gt_cases 0 nh) as [H0|H0].
  - apply (for_range_invariant
             (fun k acc => arr2_dims hh ww acc /\
                forall y' x', arr2_get d acc y' x' =
                  if (0 <=? y') && (y' <? k) && (0 <=? x') && (x' <? nw) && c y' x'
                  then v y' x' else arr2_get d m y' x')); [exact H0 | |].
    + split; [exact Hd|]. intros y' x'.
      destruct (0 <=? y') eqn:E1, (y' <? 0) eqn:E2; simpl; try reflexivity; lia.
    + intros k acc Hk [Hdk Hval].
      destruct (update_row d hh ww (c k) (v k) k nw acc Hdk) as [Hd' Hval'];
        [lia | lia |].
      split; [exact Hd'|]. intros y' x'. rewrite Hval', Hval.
      destruct (Z.eq_dec y' k) as [->|Hy'].
      * replace (k =? k) with true by lia. replace (0 <=? k) with true by lia.
        replace (k <? k + 1) with true by lia. replace (k <? k) with false by lia.
        simpl. destruct ((0 <=? x') && (x' <? nw) && c k x'); reflexivity.
      * replace (y' =? k) with false by lia.
        replace (y' <? k + 1) with (y' <? k) by lia. reflexivity.
  - unfold m', for_range. replace (Z.to_nat (nh - 0)) with O by lia. simpl.
    split; [exact Hd|]. intros y' x'.
    destruct (0 <=? y') eqn:E1, (y' <? nh) eqn:E2; simpl; try reflexivity; lia.
Qed.

(** ** Placement over the whole grid *)

(** X1. [blockblaster_any_valid_placement] answers true exactly when the
    shape fits at some origin of the grid. *)
Theorem any_valid_placement_iff (GRID_W GRID_H : Z) (gr : Grid) (s : Shape) :
  blockblaster_any_valid_placement GRID_W GRID_H gr s = true <->
  exists gx gy, in_grid GRID_W GRID_H gx gy /\ fits GRID_W GRID_H gr s gx gy.
Proof. apply any_valid_placement_true. Qed.

Lemma for_range_id {S : Type} (lo hi : Z) (s : S) :
  for_range lo hi (fun _ t => t) s = s.
Proof.
  unfold for_range. generalize (Z.to_nat (hi - lo)) as n. intros n. revert lo.
  induction n as [|n IH]; intros lo; simpl; [reflexivity | apply IH].
Qed.

Lemma in_grid_dec (GRID_W GRID_H x y : Z) :
  in_grid GRID_W GRID_H x y <->
  (0 <=? y) && (y <? GRID_H) && (0 <=? x) && (x <? GRID_W) = true.
Proof. unfold in_grid. lia. Qed.

Lemma in_grid_false (GRID_W GRID_H x y : Z) :
  ~ in_grid GRID_W GRID_H x y ->
  (0 <=? y) && (y <? GRID_H) && (0 <=? x) && (x <? GRID_W) = false.
Proof. unfold in_grid. lia. Qed.

(** ** Clearing the grid *)

Section GridClear.
Variables GRID_W GRID_H : Z.
Hypothesis HW : GRID_W <= GRID_W_MAX.
Hypothesis HH : GRID_H <= GRID_H_MAX.

Lemma grid_clear_cells (gr : Grid) :
  grid_storage gr ->
  let gr' := blockblaster_grid_clear GRID_W GRID_H gr in
  grid_storage gr' /\
  (forall x y, in_grid GRID_W GRID_H x y ->
     occupied gr' x y = false /\ themed gr' x y = false /\
     theme_at gr' x y = theme_zero) /\
  (forall x y, ~ in_grid GRID_W GRID_H x y ->
     occupied gr' x y = occupied gr x y /\ themed gr' x y = themed gr x y /\
     theme_at gr' x y = theme_at gr x y).
Proof.
  intros (Ho & Ht & Hh) gr'.
  assert (Eo : occ gr' = for_range 0 GRID_H (fun y =>
                 for_range 0 GRID_W (fun x m => arr2_set m y x false)) (occ gr)).
  { unfold gr', blockblaster_grid_clear.
    apply (for_range2_proj occ 0 GRID_H 0 GRID_W
             (fun y x g0 => mkGrid (arr2_set (occ g0) y x false)
                              (arr2_set (cell_theme g0) y x theme_zero)
                              (arr2_set (has_theme g0) y x false))
             (fun y x m => arr2_set m y x false)).
    reflexivity. }
  assert (Et : cell_theme gr' = for_range 0 GRID_H (fun y =>
                 for_range 0 GRID_W (fun x m => arr2_set m y x theme_zero))
                 (cell_theme gr)).
  { unfold gr', blockblaster_grid_clear.
    apply (for_range2_proj cell_theme 0 GRID_H 0 GRID_W
             (fun y x g0 => mkGrid (arr2_set (occ g0) y x false)
                              (arr2_set (cell_theme g0) y x theme_zero)
                              (arr2_set (has_theme g0) y x false))
             (fun y x m => arr2_set m y x theme_zero)).
    reflexivity. }
  assert (Eh : has_theme gr' = for_range 0 GRID_H (fun y =>
                 for_range 0 GRID_W (fun x m => arr2_set m y x false)) (has_theme gr)).
  { unfold gr', blockblaster_grid_clear.
    apply (for_range2_proj has_theme 0 GRID_H 0 GRID_W
             (fun y x g0 => mkGrid (arr2_set (occ g0) y x false)
                              (arr2_set (cell_theme g0) y x theme_zero)
                              (arr2_set (has_theme g0) y x false))
             (fun y x m => arr2_set m y x false)).
    reflexivity. }
  destruct (fill_rows false GRID_H_MAX GRID_W_MAX (fun _ _ => false) GRID_H GRID_W
              (occ gr) Ho HH HW) as [Do Vo].
  destruct (fill_rows theme_zero GRID_H_MAX GRID_W_MAX (fun _ _ => theme_zero)
              GRID_H GRID_W (cell_theme gr) Ht HH HW) as [Dt Vt].
  destruct (fill_rows false GRID_H_MAX GRID_W_MAX (fun _ _ => false) GRID_H GRID_W
              (has_theme gr) Hh HH HW) as [Dh Vh].
  rewrite <- Eo in Do, Vo. rewrite <- Et in Dt, Vt. rewrite <- Eh in Dh, Vh.
  split; [exact (conj Do (conj Dt Dh))|]. split.
  - intros x y Hin. apply in_grid_dec in Hin. unfold occupied, themed, theme_at.
    rewrite Vo, Vt, Vh, Hin. repeat split; reflexivity.
  - intros x y Hout. apply in_grid_false in Hout. unfold occupied, themed, theme_at.
    rewrite Vo, Vt, Vh, Hout. repeat split; reflexivity.
Qed.
End GridClear.

(** X2. On a grid stored in the [GRID_H_MAX] x [GRID_W_MAX] arrays,
    [blockblaster_grid_clear] frees every cell of the current grid, drops
    its theme, leaves the cells outside the grid as they were, and a shape
    can then be placed wherever all its filled cells are in the grid. *)
Theorem grid_clear_empties (GRID_W GRID_H : Z) (gr : Grid) :
  GRID_W <= GRID_W_MAX -> GRID_H <= GRID_H_MAX -> grid_storage gr ->
  let gr' := blockblaster_grid_clear GRID_W GRID_H gr in
  grid_storage gr' /\
  (forall x y, in_grid GRID_W GRID_H x y ->
     occupied gr' x y = false /\ themed gr' x y = false /\
     theme_at gr' x y = theme_zero) /\
  (forall x y, ~ in_grid GRID_W GRID_H x y ->
     occupied gr' x y = occupied gr x y /\ themed gr' x y = themed gr x y /\
     theme_at gr' x y = theme_at gr x y) /\
  (forall s gx gy,
     blockblaster_can_place_at GRID_W GRID_H gr' s gx gy = true <->
     (forall sx sy, blockblaster_shape_cell s sx sy = true ->
        in_grid GRID_W GRID_H (gx + sx) (gy + sy))).
Proof.
  intros HW HH Hst gr'.
  destruct (grid_clear_cells GRID_W GRID_H HW HH gr Hst) as (Hst' & Hin & Hout).
  fold gr' in Hst', Hin, Hout.
  split; [exact Hst'|]. split; [exact Hin|]. split; [exact Hout|].
  intros s gx gy. rewrite can_place_at_fits. unfold fits. split.
  - intros H sx sy Hc. apply (H sx sy Hc).
  - intros H sx sy Hc. split; [apply H; exact Hc|]. apply Hin, H, Hc.
Qed.

Lemma grid_clear_empties_witness :
  grid_storage grid_two_rows_one_col /\
  blockblaster_can_place_at 10 10
    (blockblaster_grid_clear 10 10 grid_two_rows_one_col) (shape_at 54) 7 2 = true.
Proof.
  assert (Hst : grid_storage grid_two_rows_one_col).
  { unfold grid_storage, GRID_H_MAX, GRID_W_MAX. vm_compute.
    repeat split; repeat constructor. }
  split; [exact Hst|].
  apply (proj2 (proj2 (proj2 (grid_clear_empties 10 10 grid_two_rows_one_col
           ltac:(unfold GRID_W_MAX; lia) ltac:(unfold GRID_H_MAX; lia) Hst)))
           (shape_at 54) 7 2).
  intros sx sy Hc. apply shape_cell_true in Hc. simpl in Hc. unfold in_grid. lia.
Defined.

(** ** Removing the flagged cells *)

Lemma apply_clear_mask_cells (GRID_W GRID_H : Z) (gr : Grid) (mask : list (list bool)) :
  GRID_W <= GRID_W_MAX -> GRID_H <= GRID_H_MAX -> grid_storage gr ->
  let gr' := blockblaster_apply_clear_mask GRID_W GRID_H gr mask in
  grid_storage gr' /\ cell_theme gr' = cell_theme gr /\
  (forall x y,
     occupied gr' x y =
       (if (0 <=? y) && (y <? GRID_H) && (0 <=? x) && (x <? GRID_W) &&
           arr2_get false mask y x then false else occupied gr x y) /\
     themed gr' x y =
       (if (0 <=? y) && (y <? GRID_H) && (0 <=? x) && (x <? GRID_W) &&
           arr2_get false mask y x then false else themed gr x y)).
Proof.
  intros HW HH (Ho & Ht & Hh) gr'.
  set (body := fun y x (g0 : Grid) =>
         if arr2_get false mask y x
         then mkGrid (arr2_set (occ g0) y x false) (cell_theme g0)
                (arr2_set (has_theme g0) y x false)
         else g0).
  set (body' := fun y x (m : list (list bool)) =>
         if arr2_get false mask y x then arr2_set m y x false else m).
  assert (Eo : occ gr' = for_range 0 GRID_H (fun y => for_range 0 GRID_W (body' y))
                           (occ gr)).
  { apply (for_range2_proj occ 0 GRID_H 0 GRID_W body body').
    intros y x t. unfold body, body'. destruct (arr2_get false mask y x); reflexivity. }
  assert (Eh : has_theme gr' = for_range 0 GRID_H (fun y => for_range 0 GRID_W (body' y))
                                 (has_theme gr)).
  { apply (for_range2_proj has_theme 0 GRID_H 0 GRID_W body body').
    intros y x t. unfold body, body'. destruct (arr2_get false mask y x); reflexivity. }
  assert (Et : cell_theme gr' = cell_theme gr).
  { unfold gr', blockblaster_apply_clear_mask.
    rewrite (for_range2_proj cell_theme 0 GRID_H 0 GRID_W body (fun _ _ t => t)).
    - rewrite (for_range_ext 0 GRID_H _ (fun _ t => t))
        by (intros k t _; apply for_range_id).
      apply for_range_id.
    - intros y x t. unfold body. destruct (arr2_get false mask y x); reflexivity. }
  destruct (update_rows false GRID_H_MAX GRID_W_MAX (fun y x => arr2_get false mask y x)
              (fun _ _ => false) GRID_H GRID_W (occ gr) Ho HH HW) as [Do Vo].
  destruct (update_rows false GRID_H_MAX GRID_W_MAX (fun y x => arr2_get false mask y x)
              (fun _ _ => false) GRID_H GRID_W (has_theme gr) Hh HH HW) as [Dh Vh].
  split; [split; [rewrite Eo; exact Do
                 | split; [rewrite Et; exact Ht | rewrite Eh; exact Dh]]|].
  split; [exact Et|].
  intros x y. unfold occupied, themed. rewrite Eo, Eh.
  split; [exact (Vo y x) | exact (Vh y x)].
Qed.

(** X3. [blockblaster_apply_clear_mask] frees exactly the flagged cells of
    the current grid and marks them as without theme; every other cell
    keeps its occupancy, and no cell loses the colour stored for it. *)
Theorem apply_clear_mask_frees (GRID_W GRID_H : Z) (gr : Grid)
    (mask : list (list bool)) :
  GRID_W <= GRID_W_MAX -> GRID_H <= GRID_H_MAX -> grid_storage gr ->
  let gr' := blockblaster_apply_clear_mask GRID_W GRID_H gr mask in
  grid_storage gr' /\
  (forall x y, in_grid GRID_W GRID_H x y -> arr2_get false mask y x = true ->
     occupied gr' x y = false /\ themed gr' x y = false) /\
  (forall x y, ~ (in_grid GRID_W GRID_H x y /\ arr2_get false mask y x = true) ->
     occupied gr' x y = occupied gr x y /\ themed gr' x y = themed gr x y) /\
  (forall x y, theme_at gr' x y = theme_at gr x y).
Proof.
  intros HW HH Hst gr'.
  destruct (apply_clear_mask_cells GRID_W GRID_H gr mask HW HH Hst)
    as (Hst' & Ht & Hcells).
  fold gr' in Hst', Ht, Hcells.
  split; [exact Hst'|]. split; [|split].
  - intros x y Hin Hm. destruct (Hcells x y) as [-> ->].
    apply in_grid_dec in Hin. rewrite Hin, Hm. split; reflexivity.
  - intros x y Hno. destruct (Hcells x y) as [-> ->].
    destruct ((0 <=? y) && (y <? GRID_H) && (0 <=? x) && (x <? GRID_W)) eqn:E;
      simpl; [|split; reflexivity].
    destruct (arr2_get false mask y x) eqn:Em; [|split; reflexivity].
    exfalso. apply Hno. split; [apply in_grid_dec; exact E | reflexivity].
  - intros x y. unfold theme_at. rewrite Ht. reflexivity.
Qed.

Lemma grid_two_rows_one_col_storage : grid_storage grid_two_rows_one_col.
Proof.
  unfold grid_storage, GRID_H_MAX, GRID_W_MAX. vm_compute.
  repeat split; repeat constructor.
Qed.

Lemma apply_clear_mask_frees_witness :
  let mask := fst (blockblaster_build_clear_mask 10 10 grid_two_rows_one_col
                     (arr2_make GRID_H_MAX GRID_W_MAX false)) in
  grid_storage grid_two_rows_one_col /\
  occupied (blockblaster_apply_clear_mask 10 10 grid_two_rows_one_col mask) 3 2 = false.
Proof.
  intros mask. split; [exact grid_two_rows_one_col_storage|].
  apply (proj1 (proj2 (apply_clear_mask_frees 10 10 grid_two_rows_one_col mask
           ltac:(unfold GRID_W_MAX; lia) ltac:(unfold GRID_H_MAX; lia)
           grid_two_rows_one_col_storage)) 3 2).
  - unfold in_grid. lia.
  - vm_compute. reflexivity.
Defined.

(** ** The clear mask and the removal together *)

Lemma filter_nil_none {A : Type} (p : A -> bool) (l : list A) :
  (forall a, In a l -> p a = true -> False) -> List.filter p l = [].
Proof.
  intros H. destruct (List.filter p l) as [|a l'] eqn:E; [reflexivity|].
  exfalso. assert (Ha : In a (List.filter p l)) by (rewrite E; left; reflexivity).
  apply filter_In in Ha. destruct Ha as [Ha Hp]. exact (H a Ha Hp).
Qed.

(** X4. Once the cells flagged by [blockblaster_build_clear_mask] are
    removed by [blockblaster_apply_clear_mask], no row and no column of the
    grid is full: a second mask counts 0 lines.  A cell stays occupied
    exactly when it was occupied and lay in no full row or column. *)
Theorem clear_leaves_no_line (GRID_W GRID_H : Z) (gr : Grid)
    (mask0 mask1 : list (list bool)) :
  0 < GRID_W <= GRID_W_MAX -> 0 < GRID_H <= GRID_H_MAX ->
  grid_storage gr ->
  arr2_dims GRID_H_MAX GRID_W_MAX mask0 -> arr2_dims GRID_H_MAX GRID_W_MAX mask1 ->
  let mask := fst (blockblaster_build_clear_mask GRID_W GRID_H gr mask0) in
  let gr' := blockblaster_apply_clear_mask GRID_W GRID_H gr mask in
  snd (blockblaster_build_clear_mask GRID_W GRID_H gr' mask1) = 0 /\
  (forall x y, in_grid GRID_W GRID_H x y ->
     (occupied gr' x y = true <->
      occupied gr x y = true /\ ~ row_full GRID_W gr y /\ ~ col_full GRID_H gr x)).
Proof.
  intros HW HH Hst Hd0 Hd1 mask gr'.
  destruct (build_clear_mask_unfold GRID_W GRID_H gr mask0 ltac:(lia) ltac:(lia) Hd0)
    as (_ & _ & Hmask). fold mask in Hmask.
  destruct (apply_clear_mask_cells GRID_W GRID_H gr mask ltac:(lia) ltac:(lia) Hst)
    as (Hst' & _ & Hcells). fold gr' in Hst', Hcells.
  assert (Hocc : forall x y, in_grid GRID_W GRID_H x y ->
            occupied gr' x y =
            (if is_row_full GRID_W (occ gr) y || is_col_full GRID_H (occ gr) x
             then false else occupied gr x y)).
  { intros x y Hin. destruct (Hcells x y) as [-> _]. rewrite Hmask.
    apply in_grid_dec in Hin. rewrite Hin. reflexivity. }
  assert (Hsub : forall x y, in_grid GRID_W GRID_H x y ->
            occupied gr' x y = true ->
            occupied gr x y = true /\ is_row_full GRID_W (occ gr) y = false /\
            is_col_full GRID_H (occ gr) x = false).
  { intros x y Hin H. rewrite (Hocc x y Hin) in H.
    destruct (is_row_full GRID_W (occ gr) y), (is_col_full GRID_H (occ gr) x);
      simpl in H; try discriminate. repeat split; assumption. }
  split.
  - destruct (build_clear_mask_unfold GRID_W GRID_H gr' mask1 ltac:(lia) ltac:(lia) Hd1)
      as (-> & _).
    assert (Hr : full_rows GRID_W GRID_H gr' = []).
    { apply filter_nil_none. intros y Hy Hfull. apply zrange_In in Hy.
      apply is_row_full_true in Hfull.
      assert (Hall : row_full GRID_W gr y).
      { intros x Hx. apply (Hsub x y); [split; assumption | apply Hfull; exact Hx]. }
      apply is_row_full_true in Hall.
      destruct (Hsub 0 y) as (_ & Hnf & _);
        [split; lia | apply Hfull; lia | congruence]. }
    assert (Hc : full_cols GRID_W GRID_H gr' = []).
    { apply filter_nil_none. intros x Hx Hfull. apply zrange_In in Hx.
      apply is_col_full_true in Hfull.
      assert (Hall : col_full GRID_H gr x).
      { intros y Hy. apply (Hsub x y); [split; assumption | apply Hfull; exact Hy]. }
      apply is_col_full_true in Hall.
      destruct (Hsub x 0) as (_ & _ & Hnf);
        [split; lia | apply Hfull; lia | congruence]. }
    rewrite Hr, Hc. reflexivity.
  - intros x y Hin. rewrite (Hocc x y Hin).
    rewrite <- !is_row_full_true, <- !is_col_full_true.
    destruct (is_row_full GRID_W (occ gr) y), (is_col_full GRID_H (occ gr) x); simpl;
      split; try discriminate; try (intros (_ & A & B); congruence);
      try (intros H; repeat split; [exact H | discriminate | discriminate]).
    intros (H & _). exact H.
Qed.

Lemma clear_leaves_no_line_witness :
  let mask := fst (blockblaster_build_clear_mask 10 10 grid_two_rows_one_col
                     (arr2_make GRID_H_MAX GRID_W_MAX false)) in
  snd (blockblaster_build_clear_mask 10 10
         (blockblaster_apply_clear_mask 10 10 grid_two_rows_one_col mask)
         (arr2_make GRID_H_MAX GRID_W_MAX false)) = 0.
Proof.
  intros mask.
  assert (Hd : arr2_dims GRID_H_MAX GRID_W_MAX (arr2_make GRID_H_MAX GRID_W_MAX false))
    by (apply arr2_dims_make; unfold GRID_H_MAX, GRID_W_MAX; lia).
  apply (proj1 (clear_leaves_no_line 10 10 grid_two_rows_one_col _ _
           ltac:(unfold GRID_W_MAX; lia) ltac:(unfold GRID_H_MAX; lia)
           grid_two_rows_one_col_storage Hd Hd)).
Defined.

(** ** The cells a clear removes *)

Lemma range_list_length (n : nat) (i : Z) : length (range_list n i) = n.
Proof. revert i. induction n as [|n IH]; intros i; simpl; [|rewrite IH]; reflexivity. Qed.

Lemma filter_all {A : Type} (p : A -> bool) (l : list A) :
  (forall a, In a l -> p a = true) -> List.filter p l = l.
Proof.
  induction l as [|a l IH]; intros H; simpl; [reflexivity|].
  rewrite (H a) by (left; reflexivity). f_equal. apply IH.
  intros b Hb. apply H. right. exact Hb.
Qed.

(** [for (y..) c += (p(y) ? a : b)]. *)
Lemma for_loop_sum_two (p : Z -> bool) (a b : Z) (n : nat) (i c : Z) :
  for_loop n i (fun y acc => acc + (if p y then a else b)) c =
  c + a * Z.of_nat (length (List.filter p (range_list n i))) +
  b * (Z.of_nat n - Z.of_nat (length (List.filter p (range_list n i)))).
Proof.
  revert i c. induction n as [|n IH]; intros i c; simpl for_loop; simpl range_list.
  - simpl. lia.
  - rewrite IH. simpl List.filter. destruct (p i); simpl length; lia.
Qed.

(** X5. The count [blockblaster_count_cells_in_mask] returns for the mask
    of [blockblaster_build_clear_mask]: with [R] full rows and [C] full
    columns, [GRID_W * R + GRID_H * C - R * C] cells, each crossing of a
    full row and a full column being counted once. *)
Theorem count_cells_of_clear_mask (GRID_W GRID_H : Z) (gr : Grid)
    (mask0 : list (list bool)) :
  0 <= GRID_W <= GRID_W_MAX -> 0 <= GRID_H <= GRID_H_MAX ->
  arr2_dims GRID_H_MAX GRID_W_MAX mask0 ->
  let mask := fst (blockblaster_build_clear_mask GRID_W GRID_H gr mask0) in
  let R := Z.of_nat (length (full_rows GRID_W GRID_H gr)) in
  let C := Z.of_nat (length (full_cols GRID_W GRID_H gr)) in
  blockblaster_count_cells_in_mask GRID_W GRID_H gr mask =
  GRID_W * R + GRID_H * C - R * C.
Proof.
  intros HW HH Hd mask R C.
  destruct (build_clear_mask_unfold GRID_W GRID_H gr mask0 ltac:(lia) ltac:(lia) Hd)
    as (_ & _ & Hmask). fold mask in Hmask.
  unfold blockblaster_count_cells_in_mask.
  rewrite (for_range_ext 0 GRID_H _
             (fun y acc => acc + (if is_row_full GRID_W (occ gr) y then GRID_W else C))).
  - unfold for_range. rewrite for_loop_sum_two.
    fold (zrange 0 GRID_H). fold (full_rows GRID_W GRID_H gr). fold R.
    rewrite Z2Nat.id by lia. lia.
  - intros y acc Hy. rewrite for_range_count.
    assert (Hp : forall x, In x (zrange 0 GRID_W) ->
              arr2_get false mask y x && arr2_get false (occ gr) y x =
              is_row_full GRID_W (occ gr) y || is_col_full GRID_H (occ gr) x).
    { intros x Hx. apply zrange_In in Hx. rewrite Hmask.
      replace ((0 <=? y) && (y <? GRID_H) && (0 <=? x) && (x <? GRID_W)) with true
        by lia.
      destruct (is_row_full GRID_W (occ gr) y) eqn:Er.
      - apply is_row_full_true in Er. simpl. apply (Er x Hx).
      - destruct (is_col_full GRID_H (occ gr) x) eqn:Ec; [|reflexivity].
        apply is_col_full_true in Ec. simpl. apply (Ec y Hy). }
    rewrite (filter_ext_in _ _ _ Hp).
    destruct (is_row_full GRID_W (occ gr) y) eqn:Er.
    + rewrite filter_all by reflexivity. unfold zrange. rewrite range_list_length. lia.
    + reflexivity.
Qed.

Lemma count_cells_of_clear_mask_witness :
  blockblaster_count_cells_in_mask 10 10 grid_two_rows_one_col
    (fst (blockblaster_build_clear_mask 10 10 grid_two_rows_one_col
            (arr2_make GRID_H_MAX GRID_W_MAX false))) = 28.
Proof.
  rewrite (count_cells_of_clear_mask 10 10 grid_two_rows_one_col
             (arr2_make GRID_H_MAX GRID_W_MAX false)
             ltac:(unfold GRID_W_MAX; lia) ltac:(unfold GRID_H_MAX; lia)
             ltac:(apply arr2_dims_make; unfold GRID_H_MAX, GRID_W_MAX; lia)).
  vm_compute. reflexivity.
Defined.

(** ** The effect of a placement on occupancy *)

Lemma place_shape_occupied_iff (GRID_W GRID_H : Z) (gr : Grid) (s : Shape)
    (gx gy : Z) (th : Theme) (x y : Z) :
  GRID_W <= GRID_W_MAX -> GRID_H <= GRID_H_MAX ->
  arr2_dims GRID_H_MAX GRID_W_MAX (occ gr) ->
  in_grid GRID_W GRID_H x y ->
  (occupied (blockblaster_place_shape GRID_W GRID_H gr s gx gy th) x y = true <->
   covers GRID_W GRID_H s gx gy x y \/ occupied gr x y = true).
Proof.
  intros HW HH Hd Hin. split.
  - intros H. destruct (place_shape_stamp GRID_W GRID_H gr s gx gy th) as (Hc & _).
    destruct (Hc x y) as ([E|[Hcov _]] & _); [right; congruence | left; exact Hcov].
  - intros [[_ Hc]|Ho].
    + pose proof (place_shape_occupies GRID_W GRID_H gr s gx gy th (x - gx) (y - gy)
                    Hd HW HH Hc) as Hp.
      replace (gx + (x - gx)) with x in Hp by lia.
      replace (gy + (y - gy)) with y in Hp by lia. apply Hp. exact Hin.
    + eapply stamp_keeps_occupied; [apply place_shape_stamp | exact Ho].
Qed.

Lemma all_range_ext (lo hi : Z) (f f' : Z -> bool) :
  (forall k, lo <= k < hi -> f k = f' k) -> all_range lo hi f = all_range lo hi f'.
Proof.
  intros H. apply eq_iff_eq_true. rewrite !all_range_true.
  split; intros A k Hk; [rewrite <- H | rewrite H]; auto.
Qed.

(** ** The predicted clear *)

(** X6. The highlight [blockblaster_compute_predicted_clear] computes is
    the outcome of the move: row [y] (column [x]) is flagged exactly when
    it is full once [blockblaster_place_shape] has stamped the piece at
    that origin, whatever the local array and the highlight held before;
    the flag [has_predicted_clear] is set. *)
Theorem predicted_clear_agrees (GRID_W GRID_H : Z) (gr : Grid) (p : Piece)
    (gx gy : Z) (temp : list (list bool)) (pr : Predicted) :
  GRID_W <= GRID_W_MAX -> GRID_H <= GRID_H_MAX ->
  arr2_dims GRID_H_MAX GRID_W_MAX (occ gr) ->
  arr2_dims GRID_H_MAX GRID_W_MAX temp ->
  GRID_H <= Z.of_nat (length (pred_full_row pr)) ->
  GRID_W <= Z.of_nat (length (pred_full_col pr)) ->
  let res := blockblaster_compute_predicted_clear GRID_W GRID_H gr p gx gy temp pr in
  let placed := blockblaster_place_shape GRID_W GRID_H gr (shape p) gx gy (theme p) in
  has_predicted_clear res = true /\
  (forall y, 0 <= y < GRID_H ->
     arr_get false (pred_full_row res) y = is_row_full GRID_W (occ placed) y) /\
  (forall x, 0 <= x < GRID_W ->
     arr_get false (pred_full_col res) x = is_col_full GRID_H (occ placed) x).
Proof.
  intros HW HH Hd Ht Hpr Hpc res placed.
  unfold res, blockblaster_compute_predicted_clear. cbv zeta.
  set (temp1 := for_range 0 GRID_H (fun y => for_range 0 GRID_W _) temp).
  destruct (fill_rows false GRID_H_MAX GRID_W_MAX
              (fun y x => arr2_get false (occ gr) y x) GRID_H GRID_W temp Ht HH HW)
    as [Hd1 Hv1].
  change (for_range 0 GRID_H _ temp) with temp1 in Hd1, Hv1.
  set (temp2 := for_range 0 (h (shape p)) _ temp1).
  set (g1 := mkGrid temp1 (cell_theme gr) (has_theme gr)).
  assert (E2 : temp2 = occ (blockblaster_place_shape GRID_W GRID_H g1 (shape p) gx gy
                              (theme p))).
  { symmetry. unfold blockblaster_place_shape.
    apply (for_range2_proj occ 0 (h (shape p)) 0 (w (shape p))
             (fun sy sx g0 => place_cell GRID_W GRID_H (shape p) gx gy (theme p) sy sx g0)).
    intros sy sx t. unfold place_cell.
    destruct (negb (blockblaster_shape_cell (shape p) sx sy)); [reflexivity|].
    destruct ((gx + sx >=? 0) && (gy + sy >=? 0) && (gx + sx <? GRID_W) &&
              (gy + sy <? GRID_H)); reflexivity. }
  assert (Hcell : forall x y, in_grid GRID_W GRID_H x y ->
            arr2_get false temp2 y x = arr2_get false (occ placed) y x).
  { intros x y Hin. rewrite E2. apply eq_iff_eq_true.
    change (occupied (blockblaster_place_shape GRID_W GRID_H g1 (shape p) gx gy (theme p))
              x y = true <-> occupied placed x y = true).
    unfold placed. rewrite !place_shape_occupied_iff by assumption.
    unfold occupied at 1. simpl. rewrite Hv1.
    apply in_grid_dec in Hin. rewrite Hin. reflexivity. }
  set (pr0 := mkPredicted true (pred_full_row pr) (pred_full_col pr)).
  set (rows := fun (y : Z) (q : Predicted) =>
                 mkPredicted (has_predicted_clear q)
                   (arr_set (pred_full_row q) y (is_row_full GRID_W temp2 y))
                   (pred_full_col q)).
  set (cols := fun (x : Z) (q : Predicted) =>
                 mkPredicted (has_predicted_clear q) (pred_full_row q)
                   (arr_set (pred_full_col q) x (is_col_full GRID_H temp2 x))).
  split; [|split].
  - rewrite (for_range_proj has_predicted_clear 0 GRID_W cols (fun _ t => t))
      by reflexivity.
    rewrite for_range_id.
    rewrite (for_range_proj has_predicted_clear 0 GRID_H rows (fun _ t => t))
      by reflexivity.
    rewrite for_range_id. reflexivity.
  - intros y Hy.
    rewrite (for_range_proj pred_full_row 0 GRID_W cols (fun _ t => t)) by reflexivity.
    rewrite for_range_id.
    rewrite (for_range_proj pred_full_row 0 GRID_H rows
               (fun y r => arr_set r y (is_row_full GRID_W temp2 y))) by reflexivity.
    rewrite (proj2 (for_range_tabulate false (is_row_full GRID_W temp2) GRID_H
                      (pred_full_row pr0) Hpr) y Hy).
    apply all_range_ext. intros x Hx. apply Hcell. split; assumption.
  - intros x Hx.
    rewrite (for_range_proj pred_full_col 0 GRID_W cols
               (fun x r => arr_set r x (is_col_full GRID_H temp2 x))) by reflexivity.
    rewrite (for_range_proj pred_full_col 0 GRID_H rows (fun _ t => t)) by reflexivity.
    rewrite for_range_id.
    rewrite (proj2 (for_range_tabulate false (is_col_full GRID_H temp2) GRID_W
                      (pred_full_col pr0) Hpc) x Hx).
    apply all_range_ext. intros y Hy. apply Hcell. split; assumption.
Qed.

Lemma predicted_clear_agrees_witness :
  arr_get false
    (pred_full_row
       (blockblaster_compute_predicted_clear 10 10 grid_two_rows_one_col
          (mkPiece (shape_at 57) false theme_white) 0 3
          (arr2_make GRID_H_MAX GRID_W_MAX true) predicted_example)) 3 =
  is_row_full 10
    (occ (blockblaster_place_shape 10 10 grid_two_rows_one_col (shape_at 57) 0 3
            theme_white)) 3.
Proof.
  apply (proj1 (proj2 (predicted_clear_agrees 10 10 grid_two_rows_one_col
                  (mkPiece (shape_at 57) false theme_white) 0 3
                  (arr2_make GRID_H_MAX GRID_W_MAX true) predicted_example
                  ltac:(unfold GRID_W_MAX; lia) ltac:(unfold GRID_H_MAX; lia)
                  (proj1 grid_two_rows_one_col_storage)
                  ltac:(apply arr2_dims_make; unfold GRID_H_MAX, GRID_W_MAX; lia)
                  ltac:(vm_compute; discriminate) ltac:(vm_compute; discriminate)))).
  lia.
Defined.

(** ** Game-over detection *)

(** X7. [blockblaster_none_placeable] answers true exactly when no piece
    still offered in the first [PIECES_PER_SET] slots fits anywhere on the
    grid; in particular it answers true for a tray whose pieces are all
    used. *)
Theorem none_placeable_iff (GRID_W GRID_H PIECES_PER_SET : Z) (gr : Grid)
    (tr : list Piece) :
  (blockblaster_none_placeable GRID_W GRID_H PIECES_PER_SET gr tr = true <->
   forall i, 0 <= i < PIECES_PER_SET -> used (arr_get piece_zero tr i) = false ->
     forall gx gy, in_grid GRID_W GRID_H gx gy ->
       ~ fits GRID_W GRID_H gr (shape (arr_get piece_zero tr i)) gx gy) /\
  (blockblaster_tray_all_used PIECES_PER_SET tr = true <->
   forall i, 0 <= i < PIECES_PER_SET -> used (arr_get piece_zero tr i) = true) /\
  (blockblaster_tray_all_used PIECES_PER_SET tr = true ->
   blockblaster_none_placeable GRID_W GRID_H PIECES_PER_SET gr tr = true).
Proof.
  assert (Hnone : blockblaster_none_placeable GRID_W GRID_H PIECES_PER_SET gr tr = true <->
    forall i, 0 <= i < PIECES_PER_SET -> used (arr_get piece_zero tr i) = false ->
      forall gx gy, in_grid GRID_W GRID_H gx gy ->
        ~ fits GRID_W GRID_H gr (shape (arr_get piece_zero tr i)) gx gy).
  { unfold blockblaster_none_placeable. rewrite all_range_true. split.
    - intros H i Hi Hu gx gy Hin Hfit. specialize (H i Hi). rewrite Hu in H.
      destruct (blockblaster_any_valid_placement _ _ _ _) eqn:E; [discriminate|].
      assert (E' : blockblaster_any_valid_placement GRID_W GRID_H gr
                     (shape (arr_get piece_zero tr i)) = true)
        by (apply any_valid_placement_true; exists gx, gy; split; assumption).
      congruence.
    - intros H i Hi. destruct (used (arr_get piece_zero tr i)) eqn:Hu; [reflexivity|].
      destruct (blockblaster_any_valid_placement _ _ _ _) eqn:E; [|reflexivity].
      apply any_valid_placement_true in E. destruct E as (gx & gy & Hin & Hfit).
      exfalso. exact (H i Hi Hu gx gy Hin Hfit). }
  split; [exact Hnone|]. split.
  - unfold blockblaster_tray_all_used. apply all_range_true.
  - intros Hall. apply Hnone. intros i Hi Hu.
    unfold blockblaster_tray_all_used in Hall. rewrite all_range_true in Hall.
    rewrite (Hall i Hi) in Hu. discriminate.
Qed.

Lemma none_placeable_iff_witness :
  blockblaster_tray_all_used 1 tray_example = true /\
  blockblaster_none_placeable 10 10 1 grid_empty tray_example = true.
Proof.
  split; [reflexivity|].
  apply (proj2 (proj2 (none_placeable_iff 10 10 1 grid_empty tray_example))).
  reflexivity.
Defined.

(** ** Random numbers *)

Section RandomProperties.
Variable RNG : Type.
Variable rand : RNG -> Z * RNG.
Variable RAND_MAX : Z.
Hypothesis Hrand : rand_nonneg rand.

Lemma irand_bounds (a b : Z) (rng : RNG) :
  (b <= a -> blockblaster_irand RNG rand a b rng = (a, rng)) /\
  (a < b -> a <= fst (blockblaster_irand RNG rand a b rng) <= b).
Proof.
  unfold blockblaster_irand. split.
  - intros H. replace (b <=? a) with true by lia. reflexivity.
  - intros H. replace (b <=? a) with false by lia.
    pose proof (Hrand rng) as Hr. destruct (rand rng) as [v rng']. simpl in *.
    pose proof (Z.rem_bound_pos v (b - a + 1) Hr ltac:(lia)). lia.
Qed.

Lemma irand_from_zero (i : Z) (rng : RNG) :
  0 <= i -> 0 <= fst (blockblaster_irand RNG rand 0 i rng) <= i.
Proof.
  intros Hi. destruct (Z.eq_dec i 0) as [->|Hne].
  - rewrite (proj1 (irand_bounds 0 0 rng)) by lia. simpl. lia.
  - apply irand_bounds. lia.
Qed.

(** [tmp = a[i]; a[i] = a[j]; a[j] = tmp] permutes the array. *)
Lemma swap_permutation (l : list Z) (i j : Z) :
  0 <= i < Z.of_nat (length l) -> 0 <= j < Z.of_nat (length l) ->
  arr_set (arr_set l i (arr_get 0 l j)) j (arr_get 0 l i) ≡ₚ l.
Proof.
  intros Hi Hj. unfold arr_set, arr_get.
  replace (i <? 0) with false by lia. replace (j <? 0) with false by lia.
  destruct (lookup_lt_is_Some_2 l (Z.to_nat i) ltac:(lia)) as [xi Hxi].
  destruct (lookup_lt_is_Some_2 l (Z.to_nat j) ltac:(lia)) as [xj Hxj].
  rewrite Hxi, Hxj. simpl.
  apply Permutation_inj. split; [rewrite !length_insert; reflexivity|].
  exists (fun k => if decide (k = Z.to_nat i) then Z.to_nat j
                   else if decide (k = Z.to_nat j) then Z.to_nat i else k).
  split.
  - intros k1 k2 H. repeat case_decide; lia.
  - intros k. destruct (decide (k = Z.to_nat j)) as [->|Hkj].
    + rewrite list_lookup_insert_eq by (rewrite length_insert; lia).
      repeat case_decide; congruence.
    + rewrite list_lookup_insert_ne by congruence.
      destruct (decide (k = Z.to_nat i)) as [->|Hki].
      * rewrite list_lookup_insert_eq by lia. congruence.
      * rewrite list_lookup_insert_ne by congruence. reflexivity.
Qed.

Lemma shuffle_ints_permutation (a : list Z) (n : Z) (rng : RNG) :
  n <= Z.of_nat (length a) ->
  fst (blockblaster_shuffle_ints RNG rand a n rng) ≡ₚ a.
Proof.
  intros Hn. unfold blockblaster_shuffle_ints.
  apply (for_down_preserves (fun st : list Z * RNG => fst st ≡ₚ a)); [reflexivity|].
  intros i [a' r] Hi Hperm. simpl in Hperm.
  pose proof (irand_from_zero i r ltac:(lia)) as Hj.
  destruct (blockblaster_irand RNG rand 0 i r) as [j r']. simpl in *.
  pose proof (Permutation_length Hperm) as Hlen.
  etrans; [|exact Hperm]. apply swap_permutation; lia.
Qed.

(** The pick of [weighted_shape_index] is an index of the shape table. *)
Lemma pick_loop_range (n : nat) (i : Z) (weights : list F32.float)
    (r acc : F32.float) (k : Z) :
  pick_loop n i weights r acc = Some k -> i <= k < i + Z.of_nat n.
Proof.
  revert i acc. induction n as [|n IH]; intros i acc; simpl; [discriminate|].
  destruct (F32.lt r _).
  - intros [= <-]. lia.
  - intros H. apply IH in H. lia.
Qed.

Lemma weighted_shape_index_valid (score : Z) (rng : RNG) :
  shape_index (fst (weighted_shape_index RNG rand RAND_MAX score rng)).
Proof.
  unfold weighted_shape_index. cbv zeta.
  destruct (for_range 0 SHAPES_COUNT _ _) as [weights total].
  destruct (blockblaster_frand RNG rand RAND_MAX F32.zero total rng) as [r rng'].
  destruct (pick_loop _ 0 weights r F32.zero) as [k|] eqn:E; simpl.
  - apply pick_loop_range in E. unfold shape_index, SHAPES_COUNT in *. lia.
  - unfold shape_index, SHAPES_COUNT. lia.
Qed.
End RandomProperties.

(** X8. [blockblaster_irand a b] returns [a] without calling [rand()] when
    [b <= a]; otherwise, when the width [b - a + 1] of the range fits an
    [int], as the C expression needs, it returns a number of the inclusive
    range [a, b], as long as [rand()] is not negative. *)
Theorem irand_in_range (RNG : Type) (rand : RNG -> Z * RNG) (a b : Z) (rng : RNG) :
  rand_nonneg rand ->
  (b <= a -> blockblaster_irand RNG rand a b rng = (a, rng)) /\
  (a < b -> int_range (b - a + 1) ->
   a <= fst (blockblaster_irand RNG rand a b rng) <= b).
Proof.
  intros H. split.
  - apply irand_bounds. exact H.
  - intros Hab _. apply irand_bounds; [exact H | exact Hab].
Qed.

Lemma lcg_rand_nonneg : rand_nonneg lcg_rand.
Proof. intros s. unfold lcg_rand. simpl. apply Z.mod_pos_bound. lia. Qed.

Lemma irand_in_range_witness :
  3 <= fst (blockblaster_irand Z lcg_rand 3 9 42) <= 9.
Proof.
  apply (proj2 (irand_in_range Z lcg_rand 3 9 42 lcg_rand_nonneg));
    [lia | unfold int_range, INT_MIN, INT_MAX; lia].
Defined.

(** X9. [blockblaster_shuffle_ints] permutes the array: no entry is lost
    or duplicated, whatever [rand()] returns. *)
Theorem shuffle_ints_permutes (RNG : Type) (rand : RNG -> Z * RNG) (a : list Z)
    (n : Z) (rng : RNG) :
  rand_nonneg rand -> n <= Z.of_nat (length a) ->
  fst (blockblaster_shuffle_ints RNG rand a n rng) ≡ₚ a.
Proof. intros H Hn. apply shuffle_ints_permutation; assumption. Qed.

Lemma shuffle_ints_permutes_witness :
  fst (blockblaster_shuffle_ints Z lcg_rand [10; 20; 30; 40; 50] 5 42)
    ≡ₚ [10; 20; 30; 40; 50].
Proof.
  apply (shuffle_ints_permutes Z lcg_rand [10; 20; 30; 40; 50] 5 42 lcg_rand_nonneg).
  simpl. lia.
Defined.

(** X10. [weighted_shape_index] returns an index of the shape table, for
    every score and every value of [rand()]. *)
Theorem weighted_index_in_table (RNG : Type) (rand : RNG -> Z * RNG) (RAND_MAX : Z)
    (score : Z) (rng : RNG) :
  0 <= fst (weighted_shape_index RNG rand RAND_MAX score rng) < SHAPES_COUNT.
Proof. apply weighted_shape_index_valid. Qed.

(** ** The indices the bag hands out *)

Section BagValidity.
Variable RNG : Type.
Variable rand : RNG -> Z * RNG.
Variable RAND_MAX : Z.
Hypothesis Hrand : rand_nonneg rand.

Lemma bag_refill_valid (gm : GameContext) (rng : RNG) :
  Z.of_nat (length (bag gm)) = BAG_SIZE ->
  let gm' := fst (bag_refill RNG rand RAND_MAX gm rng) in
  Z.of_nat (length (bag gm')) = BAG_SIZE /\ bag_len gm' = BAG_SIZE /\
  bag_pos gm' = 0 /\ Forall shape_index (bag gm').
Proof.
  intros Hlen. unfold bag_refill. cbv zeta.
  set (loop := for_range 0 _ _ _).
  assert (Hloop : Z.of_nat (length (bag (fst loop))) = BAG_SIZE /\
                  bag_len (fst loop) = BAG_SIZE /\
                  forall j, 0 <= j < BAG_SIZE ->
                    shape_index (arr_get 0 (bag (fst loop)) j)).
  { unfold loop. simpl bag_len.
    apply (for_range_invariant
             (fun k (st : GameContext * RNG) =>
                Z.of_nat (length (bag (fst st))) = BAG_SIZE /\
                bag_len (fst st) = BAG_SIZE /\
                forall j, 0 <= j < k -> shape_index (arr_get 0 (bag (fst st)) j)));
      [unfold BAG_SIZE; lia
      | simpl; split; [exact Hlen | split; [reflexivity | intros j Hj; lia]] |].
    intros k [g0 r0] Hk (Hl & Hb & Hv). simpl in Hl, Hb, Hv.
    pose proof (weighted_shape_index_valid RNG rand RAND_MAX (long_to_int (score g0))
                  r0) as Hidx.
    destruct (weighted_shape_index RNG rand RAND_MAX (long_to_int (score g0)) r0)
      as [idx r1].
    simpl in *. split; [rewrite arr_set_length; exact Hl|]. split; [exact Hb|].
    intros j Hj. destruct (Z.eq_dec j k) as [->|Hne].
    - rewrite arr_get_set_eq by lia. exact Hidx.
    - rewrite arr_get_set_ne by congruence. apply Hv. lia. }
  destruct loop as [g1 r1]. simpl in Hloop. destruct Hloop as (Hl & Hb & Hv).
  pose proof (shuffle_ints_permutation RNG rand Hrand (bag g1) (bag_len g1) r1
                ltac:(lia)) as Hperm.
  destruct (blockblaster_shuffle_ints RNG rand (bag g1) (bag_len g1) r1) as [sh r2].
  simpl in *. split; [rewrite (Permutation_length Hperm); exact Hl|].
  split; [exact Hb|]. split; [reflexivity|].
  rewrite Hperm. apply Forall_lookup. intros i x Hi.
  assert (Hlt : (i < length (bag g1))%nat) by (apply lookup_lt_is_Some; eauto).
  specialize (Hv (Z.of_nat i) ltac:(lia)). unfold arr_get in Hv.
  replace (Z.of_nat i <? 0) with false in Hv by lia.
  rewrite Nat2Z.id, Hi in Hv. exact Hv.
Qed.

Lemma bag_next_valid (gm : GameContext) (rng : RNG) :
  bag_valid gm ->
  let res := bag_next_shape_index RNG rand RAND_MAX gm rng in
  shape_index (fst (fst res)) /\ bag_valid (snd (fst res)).
Proof.
  intros (Hlen & Hstate). unfold bag_next_shape_index.
  destruct (bag_exhausted gm) eqn:Ex.
  - pose proof (bag_refill_valid gm rng Hlen) as Hre. cbv zeta in Hre.
    destruct (bag_refill RNG rand RAND_MAX gm rng) as [g1 r1]. simpl in *.
    destruct Hre as (Hl & Hb & Hp & Hall).
    assert (Hv : forall k, 0 <= k < BAG_SIZE -> shape_index (arr_get 0 (bag g1) k)).
    { intros k Hk. rewrite Forall_lookup in Hall. unfold arr_get.
      replace (k <? 0) with false by lia.
      destruct (lookup_lt_is_Some_2 (bag g1) (Z.to_nat k) ltac:(lia)) as [x Hx].
      rewrite Hx. simpl. exact (Hall _ _ Hx). }
    split; [rewrite Hp; apply Hv; unfold BAG_SIZE; lia|].
    split; [exact Hl|]. right. simpl. rewrite Hp, Hb.
    split; [lia|]. split; [lia|]. intros k Hk. apply Hv. lia.
  - destruct Hstate as [E|(Hp & Hb & Hv)]; [congruence|].
    unfold bag_exhausted in Ex. apply orb_false_iff in Ex. destruct Ex as [Ex1 Ex2].
    simpl. split; [apply Hv; lia|]. split; [exact Hlen|].
    right. simpl. split; [lia|]. split; [exact Hb|]. intros k Hk. apply Hv. lia.
Qed.
End BagValidity.

(** X11. Every draw from the bag is an index of the shape table: a bag
    array of [BAG_SIZE] slots that is exhausted, or holds shape indices
    from its cursor on, yields a shape index and is left in such a state;
    the bag of a new context is one. *)
Theorem bag_draw_in_table (RNG : Type) (rand : RNG -> Z * RNG) (RAND_MAX : Z)
    (gm : GameContext) (rng : RNG) :
  rand_nonneg rand -> bag_valid gm ->
  let res := bag_next_shape_index RNG rand RAND_MAX gm rng in
  0 <= fst (fst res) < SHAPES_COUNT /\ bag_valid (snd (fst res)).
Proof. intros Hr Hv. apply (bag_next_valid RNG rand RAND_MAX Hr gm rng Hv). Qed.

Lemma context_start_bag_valid : bag_valid context_start.
Proof. split; [reflexivity | left; reflexivity]. Qed.

Lemma bag_draw_in_table_witness :
  bag_valid context_start /\
  0 <= fst (fst (bag_next_shape_index Z lcg_rand LCG_RAND_MAX context_start 42))
    < SHAPES_COUNT.
Proof.
  split; [exact context_start_bag_valid|].
  apply (bag_draw_in_table Z lcg_rand LCG_RAND_MAX context_start 42 lcg_rand_nonneg
           context_start_bag_valid).
Defined.

(** ** Refilling the tray *)

Section TrayRefill.
Variable RNG : Type.
Variable rand : RNG -> Z * RNG.
Variable RAND_MAX : Z.
Hypothesis Hrand : rand_nonneg rand.

Lemma refill_slot_spec (i : Z) (gm : GameContext) (tc : TrayContext) (rng : RNG) :
  bag_valid gm -> 0 <= i < Z.of_nat (length (tray tc)) ->
  let res := refill_slot RNG rand RAND_MAX i (gm, tc, rng) in
  bag_valid (fst (fst res)) /\
  length (tray (snd (fst res))) = length (tray tc) /\
  (exists si th, shape_index si /\
     arr_get piece_zero (tray (snd (fst res))) i = mkPiece (shape_at si) false th) /\
  (forall j, j <> i ->
     arr_get piece_zero (tray (snd (fst res))) j = arr_get piece_zero (tray tc) j).
Proof.
  intros Hv Hi. unfold refill_slot.
  pose proof (bag_next_valid RNG rand RAND_MAX Hrand gm rng Hv) as Hn.
  cbv zeta in Hn.
  destruct (bag_next_shape_index RNG rand RAND_MAX gm rng) as [[si gm1] r1].
  simpl in Hn. destruct Hn as [Hsi Hv1]. cbv zeta. simpl theme_mode.
  assert (Hset : forall (l : list Piece) (p : Piece),
            length l = length (tray tc) -> arr_get piece_zero (arr_set l i p) i = p).
  { intros l p Hl. apply arr_get_set_eq. lia. }
  destruct (theme_mode tc =? 1).
  - simpl. split; [exact Hv1|]. split; [rewrite !arr_set_length; reflexivity|].
    split.
    + exists si, (set_theme tc). split; [exact Hsi|].
      rewrite !Hset by (rewrite ?arr_set_length; reflexivity). reflexivity.
    + intros j Hj. rewrite !arr_get_set_ne by congruence. reflexivity.
  - destruct (blockblaster_random_theme RNG rand _ r1) as [th r2].
    simpl. split; [exact Hv1|]. split; [rewrite !arr_set_length; reflexivity|].
    split.
    + exists si, th. split; [exact Hsi|].
      rewrite !Hset by (rewrite ?arr_set_length; reflexivity). reflexivity.
    + intros j Hj. rewrite !arr_get_set_ne by congruence. reflexivity.
Qed.

Lemma refill_tray_spec (PIECES_PER_SET : Z) (gm : GameContext) (tc : TrayContext)
    (rng : RNG) :
  bag_valid gm -> 0 <= PIECES_PER_SET <= Z.of_nat (length (tray tc)) ->
  let res := blockblaster_refill_tray RNG rand RAND_MAX PIECES_PER_SET gm tc rng in
  bag_valid (fst (fst res)) /\
  length (tray (snd (fst res))) = length (tray tc) /\
  (forall i, 0 <= i < PIECES_PER_SET ->
     exists si th, shape_index si /\
       arr_get piece_zero (tray (snd (fst res))) i = mkPiece (shape_at si) false th) /\
  (forall j, PIECES_PER_SET <= j ->
     arr_get piece_zero (tray (snd (fst res))) j = arr_get piece_zero (tray tc) j).
Proof.
  intros Hv Hp. unfold blockblaster_refill_tray.
  set (start := if theme_mode tc =? 1 then _ else _).
  assert (Hstart : tray (fst start) = tray tc).
  { unfold start. destruct (theme_mode tc =? 1); [|reflexivity].
    destruct (blockblaster_random_theme RNG rand tc rng). reflexivity. }
  destruct start as [tc0 rng0]. simpl in Hstart.
  apply (for_range_invariant
           (fun k (st : GameContext * TrayContext * RNG) =>
              bag_valid (fst (fst st)) /\
              length (tray (snd (fst st))) = length (tray tc) /\
              (forall i, 0 <= i < k ->
                 exists si th, shape_index si /\
                   arr_get piece_zero (tray (snd (fst st))) i =
                   mkPiece (shape_at si) false th) /\
              (forall j, k <= j ->
                 arr_get piece_zero (tray (snd (fst st))) j =
                 arr_get piece_zero (tray tc) j))); [lia | |].
  - simpl. rewrite Hstart. split; [exact Hv|]. split; [reflexivity|].
    split; [intros i Hi; lia | reflexivity].
  - intros k [[g1 t1] r1] Hk (Hv1 & Hl1 & Hdone & Hrest). simpl in Hv1, Hl1, Hdone, Hrest.
    destruct (refill_slot_spec k g1 t1 r1 Hv1 ltac:(lia)) as (Hv2 & Hl2 & Hnew & Hother).
    split; [exact Hv2|]. split; [congruence|]. split.
    + intros i Hi. destruct (Z.eq_dec i k) as [->|Hne]; [exact Hnew|].
      rewrite Hother by exact Hne. apply Hdone. lia.
    + intros j Hj. rewrite Hother by lia. apply Hrest. lia.
Qed.
End TrayRefill.

(** X12. [blockblaster_refill_tray] offers, in each of the
    [PIECES_PER_SET] slots, an unused piece whose shape is an entry of the
    shape table, leaves the other slots alone and keeps the bag valid; so
    a refilled tray is never all used. *)
Theorem refill_tray_offers (RNG : Type) (rand : RNG -> Z * RNG) (RAND_MAX : Z)
    (PIECES_PER_SET : Z) (gm : GameContext) (tc : TrayContext) (rng : RNG) :
  rand_nonneg rand -> bag_valid gm ->
  0 < PIECES_PER_SET <= Z.of_nat (length (tray tc)) ->
  let res := blockblaster_refill_tray RNG rand RAND_MAX PIECES_PER_SET gm tc rng in
  let tray' := tray (snd (fst res)) in
  bag_valid (fst (fst res)) /\
  (forall i, 0 <= i < PIECES_PER_SET ->
     used (arr_get piece_zero tray' i) = false /\
     exists si, 0 <= si < SHAPES_COUNT /\
                shape (arr_get piece_zero tray' i) = shape_at si) /\
  (forall j, PIECES_PER_SET <= j ->
     arr_get piece_zero tray' j = arr_get piece_zero (tray tc) j) /\
  blockblaster_tray_all_used PIECES_PER_SET tray' = false.
Proof.
  intros Hr Hv Hp res tray'.
  destruct (refill_tray_spec RNG rand RAND_MAX Hr PIECES_PER_SET gm tc rng Hv
              ltac:(lia)) as (Hv' & _ & Hnew & Hrest).
  fold res in Hv', Hnew, Hrest. fold tray' in Hnew, Hrest.
  split; [exact Hv'|]. split; [|split; [exact Hrest|]].
  - intros i Hi. destruct (Hnew i Hi) as (si & th & Hsi & ->). simpl.
    split; [reflexivity|]. exists si. split; [exact Hsi | reflexivity].
  - unfold blockblaster_tray_all_used.
    apply (all_range_false 0 PIECES_PER_SET _ 0); [lia|].
    destruct (Hnew 0 ltac:(lia)) as (si & th & _ & ->). reflexivity.
Qed.

Lemma refill_tray_offers_witness :
  blockblaster_tray_all_used 4
    (tray (snd (fst (blockblaster_refill_tray Z lcg_rand LCG_RAND_MAX 4 context_start
                       tray_context_example 42)))) = false.
Proof.
  apply (refill_tray_offers Z lcg_rand LCG_RAND_MAX 4 context_start
           tray_context_example 42 lcg_rand_nonneg context_start_bag_valid).
  vm_compute. split; [reflexivity | discriminate].
Defined.

(** ** Printing and reading numbers and names *)

Lemma append_cons (x : ascii) (a b : string) :
  String x a +:+ b = String x (a +:+ b).
Proof. reflexivity. Qed.

Lemma append_nil (b : string) : EmptyString +:+ b = b.
Proof. reflexivity. Qed.

Lemma append_assoc (a b c : string) : (a +:+ b) +:+ c = a +:+ (b +:+ c).
Proof.
  induction a as [|x a IH]; [reflexivity|]. rewrite !append_cons, IH. reflexivity.
Qed.

Lemma append_empty (a : string) : a +:+ EmptyString = a.
Proof.
  induction a as [|x a IH]; [reflexivity|]. rewrite append_cons, IH. reflexivity.
Qed.

Lemma digit_char_facts (d : Z) :
  0 <= d <= 9 ->
  digit_of (digit_char d) = Some d /\ is_space (digit_char d) = false /\
  digit_char d <> "-"%char /\ digit_char d <> "+"%char.
Proof.
  intros Hd.
  assert (H : d = 0 \/ d = 1 \/ d = 2 \/ d = 3 \/ d = 4 \/ d = 5 \/ d = 6 \/ d = 7 \/
              d = 8 \/ d = 9) by lia.
  repeat (destruct H as [->|H]); try subst d;
    (split; [reflexivity | split; [reflexivity | split; discriminate]]).
Qed.

Lemma mod10_digit (n : Z) : 0 <= n mod 10 <= 9.
Proof. pose proof (Z.mod_pos_bound n 10 ltac:(lia)). lia. Qed.

Lemma print_digits_append (fuel : nat) (n : Z) (acc rest : string) :
  print_digits fuel n acc +:+ rest = print_digits fuel n (acc +:+ rest).
Proof.
  revert n acc. induction fuel as [|fuel IH]; intros n acc; [reflexivity|].
  cbn [print_digits]. cbv zeta.
  destruct (n <? 10); [reflexivity|]. rewrite IH. reflexivity.
Qed.

(** What is printed starts with a digit. *)
Lemma print_digits_head (fuel : nat) (n d : Z) (acc : string) :
  0 <= d <= 9 -> 0 <= n ->
  exists d' tail, 0 <= d' <= 9 /\
    print_digits fuel n (String (digit_char d) acc) = String (digit_char d') tail.
Proof.
  revert n d acc. induction fuel as [|fuel IH]; intros n d acc Hd Hn; simpl.
  - exists d, acc. split; [exact Hd | reflexivity].
  - destruct (n <? 10).
    + exists (n mod 10), (String (digit_char d) acc).
      split; [apply mod10_digit | reflexivity].
    + apply IH; [apply mod10_digit | apply Z.div_pos; lia].
Qed.

Lemma print_unsigned_head (n : Z) (rest : string) :
  0 <= n ->
  exists d tail, 0 <= d <= 9 /\ print_unsigned n +:+ rest = String (digit_char d) tail.
Proof.
  intros Hn. unfold print_unsigned. rewrite print_digits_append, append_nil.
  cbn [print_digits]. cbv zeta. destruct (n <? 10).
  - exists (n mod 10), rest. split; [apply mod10_digit | reflexivity].
  - apply print_digits_head; [apply mod10_digit | apply Z.div_pos; lia].
Qed.

(** Reading the digits printed for [n] gives [n]. *)
Lemma scan_digits_print (fuel : nat) (n : Z) (rest : string) :
  0 <= n < 2 ^ Z.of_nat fuel ->
  scan_digits (print_digits fuel n rest) 0 = scan_digits rest n.
Proof.
  revert n rest. induction fuel as [|fuel IH]; intros n rest Hn.
  - simpl in *. replace n with 0 by lia. reflexivity.
  - cbn [print_digits]. cbv zeta.
    pose proof (mod10_digit n) as Hd.
    destruct (digit_char_facts _ Hd) as (Hdig & _).
    destruct (n <? 10) eqn:E.
    + cbn [scan_digits]. rewrite Hdig. f_equal.
      rewrite Z.mod_small by lia. lia.
    + rewrite IH.
      * cbn [scan_digits]. rewrite Hdig. f_equal.
        pose proof (Z.div_mod n 10 ltac:(lia)). lia.
      * rewrite Nat2Z.inj_succ, Z.pow_succ_r in Hn by lia.
        split; [apply Z.div_pos; lia | apply Z.div_lt_upper_bound; lia].
Qed.

Lemma scan_digits_stop (rest : string) (n : Z) :
  ends_number rest -> scan_digits rest n = (n, rest).
Proof. destruct rest as [|c rest]; simpl; [reflexivity | intros ->; reflexivity]. Qed.

Lemma scan_unsigned_print (n : Z) (rest : string) :
  0 <= n -> ends_number rest ->
  scan_unsigned (print_unsigned n +:+ rest) = Some (n, rest).
Proof.
  intros Hn Hrest.
  destruct (print_unsigned_head n rest Hn) as (d & tail & Hd & Hhead).
  unfold scan_unsigned. rewrite Hhead.
  destruct (digit_char_facts d Hd) as (-> & _). rewrite <- Hhead.
  unfold print_unsigned. rewrite print_digits_append, append_nil.
  rewrite scan_digits_print.
  - rewrite scan_digits_stop by exact Hrest. reflexivity.
  - split; [exact Hn|]. destruct (Z.eq_dec n 0) as [->|Hne]; [reflexivity|].
    rewrite Nat2Z.inj_succ, Z2Nat.id by apply Z.log2_nonneg.
    apply Z.log2_spec. lia.
Qed.

(** [%d] reads back what [%d] printed, when the text goes on with
    something that is not a digit. *)
Lemma scan_int_print (z : Z) (rest : string) :
  ends_number rest -> scan_int (print_int z +:+ rest) = Some (z, rest).
Proof.
  intros Hrest. unfold scan_int, print_int. destruct (z <? 0) eqn:E.
  - rewrite append_cons. cbn [skip_space]. change (is_space "-") with false. cbv iota.
    rewrite scan_unsigned_print by (lia || exact Hrest). f_equal. f_equal. lia.
  - destruct (print_unsigned_head z rest ltac:(lia)) as (d & tail & Hd & Hhead).
    destruct (digit_char_facts d Hd) as (_ & Hsp & Hminus & Hplus).
    assert (Hskip : skip_space (print_unsigned z +:+ rest) = print_unsigned z +:+ rest)
      by (rewrite Hhead; simpl; rewrite Hsp; reflexivity).
    rewrite Hskip.
    pose proof (scan_unsigned_print z rest ltac:(lia) Hrest) as Hsu.
    rewrite Hhead in Hsu |- *.
    destruct (digit_char d) as [[] [] [] [] [] [] [] []];
      try exact Hsu; congruence.
Qed.

Lemma scan_int_skip (c : ascii) (s : string) :
  is_space c = true -> scan_int (String c s) = scan_int s.
Proof. intros H. unfold scan_int. simpl. rewrite H. reflexivity. Qed.

Lemma substring_full (s : string) (n : nat) :
  (String.length s <= n)%nat -> String.substring 0 n s = s.
Proof.
  revert n. induction s as [|c s IH]; intros n Hn.
  - destruct n; reflexivity.
  - destruct n; simpl in *; [lia|]. rewrite IH by lia. reflexivity.
Qed.

Lemma scan_word_name (width : nat) (name rest : string) :
  no_space name = true -> (String.length name <= width)%nat -> ends_word rest ->
  scan_word width (name +:+ rest) = (name, rest).
Proof.
  revert width. induction name as [|c name IH]; intros width Hns Hlen Hrest.
  - rewrite append_nil. destruct width; [destruct rest; reflexivity|].
    destruct rest as [|c rest]; [reflexivity|]. simpl in *. rewrite Hrest. reflexivity.
  - destruct width; simpl in Hlen; [lia|].
    simpl in Hns. apply andb_prop in Hns. destruct Hns as [Hc Hns].
    apply negb_true_iff in Hc. rewrite append_cons. cbn [scan_word]. rewrite Hc.
    rewrite IH by (assumption || lia). reflexivity.
Qed.

Lemma name_ok_facts (name : string) :
  name_ok name = true ->
  name <> EmptyString /\ (String.length name <= 5)%nat /\ no_space name = true.
Proof.
  unfold name_ok. intros H. apply andb_prop in H. destruct H as [H Hns].
  apply andb_prop in H. destruct H as [Hne Hlen].
  apply negb_true_iff, String.eqb_neq in Hne. repeat split; [exact Hne | lia | exact Hns].
Qed.

(** [%5s] reads back a name that [%.5s] printed. *)
Lemma scan_str_name (name rest : string) :
  name_ok name = true -> ends_word rest ->
  scan_str 5 (print_str5 name +:+ rest) = Some (name, rest).
Proof.
  intros Hok Hrest. destruct (name_ok_facts name Hok) as (Hne & Hlen & Hns).
  unfold print_str5. rewrite substring_full by exact Hlen.
  unfold scan_str. destruct name as [|c name]; [congruence|].
  simpl in Hns. apply andb_prop in Hns. destruct Hns as [Hc Hns'].
  apply negb_true_iff in Hc.
  assert (Hskip : skip_space (String c name +:+ rest) = String c name +:+ rest)
    by (rewrite append_cons; cbn [skip_space]; rewrite Hc; reflexivity).
  rewrite Hskip. rewrite append_cons.
  change (String c (name +:+ rest)) with (String c name +:+ rest).
  rewrite scan_word_name; [reflexivity | simpl; rewrite Hc; exact Hns' | exact Hlen
                          | exact Hrest].
Qed.

Lemma scan_str_skip (c : ascii) (s : string) (width : nat) :
  is_space c = true -> scan_str width (String c s) = scan_str width s.
Proof. intros H. unfold scan_str. simpl. rewrite H. reflexivity. Qed.

Lemma ends_number_blank (s : string) : ends_number (blank +:+ s).
Proof. reflexivity. Qed.

Lemma ends_number_newline (s : string) : ends_number (newline +:+ s).
Proof. reflexivity. Qed.

Lemma ends_word_newline (s : string) : ends_word (newline +:+ s).
Proof. reflexivity. Qed.

Lemma scan_int_blank (s : string) : scan_int (blank +:+ s) = scan_int s.
Proof. apply scan_int_skip. reflexivity. Qed.

Lemma scan_int_newline (s : string) : scan_int (newline +:+ s) = scan_int s.
Proof. apply scan_int_skip. reflexivity. Qed.

Lemma scan_str_blank (s : string) (width : nat) :
  scan_str width (blank +:+ s) = scan_str width s.
Proof. apply scan_str_skip. reflexivity. Qed.

Lemma write_file_lookup (fs : gmap string string) (path text : string) :
  write_file true fs path text !! path = Some text.
Proof. unfold write_file. apply lookup_insert_eq. Qed.

(** ** Settings on disk *)

(** X13. The settings written by [blockblaster_save_settings] are read
    back by [blockblaster_load_settings] with the tray count brought into
    [1, 4] and a grid size other than 10, 15 and 20 replaced by 10; valid
    settings are read back as they were saved. *)
Theorem save_load_settings (tray_count grid_size : Z) (fs : gmap string string) :
  let loaded :=
    blockblaster_load_settings (blockblaster_save_settings true tray_count grid_size fs) in
  loaded = (Z.min 4 (Z.max 1 tray_count),
            if (grid_size =? 10) || (grid_size =? 15) || (grid_size =? 20)
            then grid_size else 10) /\
  (valid_tray_count tray_count -> valid_grid_size grid_size ->
   loaded = (tray_count, grid_size)).
Proof.
  intros loaded.
  assert (Hp : settings_parsed (blockblaster_save_settings true tray_count grid_size fs)
                 tray_count grid_size).
  { exists (print_int tray_count +:+ blank +:+ print_int grid_size +:+ newline), newline.
    split; [apply write_file_lookup|].
    cbn [scan_convs scan_conv].
    rewrite scan_int_print by apply ends_number_blank. cbn [mbind option_bind].
    rewrite scan_int_blank, scan_int_print by apply ends_number_newline.
    reflexivity. }
  assert (Hl : loaded = (Z.min 4 (Z.max 1 tray_count),
            if (grid_size =? 10) || (grid_size =? 15) || (grid_size =? 20)
            then grid_size else 10)).
  { unfold loaded. rewrite (load_settings_parsed _ _ _ Hp). f_equal.
    - destruct (tray_count <? 1) eqn:E1; [lia|]. destruct (tray_count >? 4) eqn:E2; lia.
    - destruct (grid_size =? 10), (grid_size =? 15), (grid_size =? 20); reflexivity. }
  split; [exact Hl|].
  intros Ht Hg. rewrite Hl. unfold valid_tray_count, valid_grid_size in *. f_equal.
  - lia.
  - destruct Hg as [->| [->| ->]]; reflexivity.
Qed.

(** ** The sound state on disk *)

Lemma sound_state_saved (writable on : bool) (fs : gmap string string) :
  blockblaster_load_sound_state writable (blockblaster_save_sound_state true on fs) =
  (on, blockblaster_save_sound_state true on fs).
Proof.
  unfold blockblaster_load_sound_state, fopen_r.
  unfold blockblaster_save_sound_state at 1. rewrite write_file_lookup.
  destruct on; reflexivity.
Qed.

(** X14. The sound state written by [blockblaster_save_sound_state] is the
    one [blockblaster_load_sound_state] returns, and reading it leaves the
    files alone. *)
Theorem save_load_sound_state (writable on : bool) (fs : gmap string string) :
  blockblaster_load_sound_state writable (blockblaster_save_sound_state true on fs) =
  (on, blockblaster_save_sound_state true on fs).
Proof. apply sound_state_saved. Qed.

(** X15. Without a sound-state file the sound is on, and the load writes
    the file: the next load finds the state there and writes nothing. *)
Theorem load_sound_state_first_run (fs : gmap string string) :
  fs !! sound_path = None ->
  let first := blockblaster_load_sound_state true fs in
  fst first = true /\
  snd first !! sound_path = Some (String "1" newline) /\
  blockblaster_load_sound_state true (snd first) = (true, snd first).
Proof.
  intros Hnone first.
  assert (Hf : first = (true, blockblaster_save_sound_state true true fs)).
  { unfold first, blockblaster_load_sound_state, fopen_r.
    change (SAVE_DIR +:+ SOUND_STATE_FILENAME) with sound_path. rewrite Hnone.
    reflexivity. }
  rewrite Hf. cbn [fst snd]. split; [reflexivity|]. split.
  - unfold blockblaster_save_sound_state. apply write_file_lookup.
  - apply sound_state_saved.
Qed.

Lemma load_sound_state_first_run_witness :
  (∅ : gmap string string) !! sound_path = None /\
  blockblaster_load_sound_state true
    (snd (blockblaster_load_sound_state true ∅)) =
  (true, snd (blockblaster_load_sound_state true ∅)).
Proof.
  split; [reflexivity|].
  apply (load_sound_state_first_run ∅). reflexivity.
Defined.

(** ** The player name on disk *)

Lemma scan_word_length (width : nat) (s : string) :
  (String.length (fst (scan_word width s)) <= width)%nat.
Proof.
  revert s. induction width as [|width IH]; intros s; [destruct s; simpl; lia|].
  destruct s as [|c s]; simpl; [lia|]. destruct (is_space c); simpl; [lia|].
  specialize (IH s). destruct (scan_word width s) as [word rest]. simpl in *. lia.
Qed.

Lemma substring_length (n : nat) (s : string) :
  (String.length (String.substring 0 n s) <= n)%nat.
Proof.
  revert s. induction n as [|n IH]; intros s; destruct s as [|c s]; simpl; try lia.
  specialize (IH s). lia.
Qed.

Lemma substring_empty (n : nat) (s : string) :
  s <> EmptyString -> (0 < n)%nat -> String.substring 0 n s <> EmptyString.
Proof. intros Hs Hn. destruct s; [congruence|]. destruct n; [lia|]. discriminate. Qed.

Lemma scan_convs_str (s : string) :
  scan_convs [Cstr 5] s =
  match scan_str 5 s with
  | Some (word, rest) => ([Vstr word], rest)
  | None => ([], s)
  end.
Proof.
  cbn [scan_convs scan_conv]. destruct (scan_str 5 s) as [[word rest]|]; reflexivity.
Qed.

(** X16. A name of one to five characters without blanks, written by
    [blockblaster_save_player_name], is the name
    [blockblaster_load_player_name] puts in a buffer of more than five
    bytes. *)
Theorem save_load_player_name (name : string) (out_sz : Z) (fs : gmap string string) :
  name_ok name = true -> 5 < out_sz ->
  blockblaster_load_player_name out_sz (blockblaster_save_player_name true name fs) = name.
Proof.
  intros Hok Hsz. unfold blockblaster_load_player_name, fopen_r.
  unfold blockblaster_save_player_name. rewrite write_file_lookup.
  unfold fscanf. rewrite scan_convs_str.
  rewrite scan_str_name by (exact Hok || reflexivity).
  cbn [str_arg lookup list_lookup length].
  destruct (name_ok_facts name Hok) as (Hne & Hlen & _).
  apply String.eqb_neq in Hne. rewrite Hne. cbn [negb andb Z.of_nat Z.eqb Pos.of_succ_nat Pos.eqb].
  unfold snprintf_s. apply substring_full. lia.
Qed.

Lemma save_load_player_name_witness :
  blockblaster_load_player_name 6 (blockblaster_save_player_name true "ANNA" ∅) = "ANNA"%string.
Proof. apply save_load_player_name; [reflexivity | lia]. Defined.

(** X17. Whatever the save directory holds, the name loaded into a buffer
    of six bytes has from one to five characters. *)
Theorem load_player_name_sane (fs : gmap string string) :
  let name := blockblaster_load_player_name 6 fs in
  name <> EmptyString /\ (String.length name <= 5)%nat.
Proof.
  intros name. unfold name, blockblaster_load_player_name.
  destruct (fopen_r fs (SAVE_DIR +:+ PLAYER_NAME_FILENAME)) as [f|];
    [|split; [discriminate | simpl; lia]].
  unfold fscanf. rewrite scan_convs_str.
  destruct (scan_str 5 f) as [[word rest]|] eqn:Es.
  - cbn [str_arg lookup list_lookup length].
    destruct (String.eqb word EmptyString) eqn:Ee.
    + split; [discriminate | simpl; lia].
    + apply String.eqb_neq in Ee.
      replace ((Z.of_nat 1 =? 1) && negb false) with true by reflexivity.
      split; [apply substring_empty; [exact Ee | simpl; lia]|].
      unfold snprintf_s. apply substring_length.
  - assert (Hn : (match ([] : list value), skip_space f with
                  | [], EmptyString => -1
                  | _, _ => Z.of_nat (length ([] : list value))
                  end =? 1) = false) by (destruct (skip_space f); reflexivity).
    cbv zeta. rewrite Hn. split; [discriminate | simpl; lia].
Qed.

(** ** The high-score table on disk *)

Lemma set_entry_length (hs : list HighScoreEntry) (i : Z)
    (f : HighScoreEntry -> HighScoreEntry) :
  length (set_entry hs i f) = length hs.
Proof. apply arr_set_length. Qed.

Lemma set_entry_get (hs : list HighScoreEntry) (i k : Z)
    (f : HighScoreEntry -> HighScoreEntry) :
  0 <= i < Z.of_nat (length hs) ->
  arr_get entry_zero (set_entry hs i f) k =
  if k =? i then f (arr_get entry_zero hs i) else arr_get entry_zero hs k.
Proof.
  intros Hi. unfold set_entry. destruct (Z.eq_dec k i) as [->|Hne].
  - rewrite arr_get_set_eq by exact Hi. replace (i =? i) with true by lia. reflexivity.
  - rewrite arr_get_set_ne by congruence. replace (k =? i) with false by lia.
    reflexivity.
Qed.

(** The clamping loop, entry by entry. *)
Lemma load_done_entries (gm : GameContext) :
  0 <= high_score_count gm <= Z.of_nat (length (high_scores gm)) ->
  let gm' := load_done gm in
  high_score_count gm' = high_score_count gm /\
  length (high_scores gm') = length (high_scores gm) /\
  high_score gm' = (if high_score_count gm >? 0 then hs_score (entry_at gm 0)
                    else high_score gm) /\
  forall k, entry_at gm' k =
            if (0 <=? k) && (k <? high_score_count gm) then entry_clamped (entry_at gm k)
            else entry_at gm k.
Proof.
  intros Hc gm'. unfold gm', load_done.
  set (gm1 := if high_score_count gm >? 0
              then set_high_score gm (hs_score (arr_get entry_zero (high_scores gm) 0))
              else gm).
  assert (H1 : high_score_count gm1 = high_score_count gm /\
               high_scores gm1 = high_scores gm /\
               high_score gm1 = (if high_score_count gm >? 0
                                 then hs_score (entry_at gm 0) else high_score gm)).
  { unfold gm1. destruct (high_score_count gm >? 0); repeat split; reflexivity. }
  destruct H1 as (Hc1 & Hh1 & Hs1). rewrite Hc1.
  set (body := fun (i : Z) (g : GameContext) => _).
  pose (P := fun (i : Z) (g : GameContext) =>
            high_score_count g = high_score_count gm /\
            length (high_scores g) = length (high_scores gm) /\
            high_score g = high_score gm1 /\
            forall k, entry_at g k =
                      if (0 <=? k) && (k <? i) then entry_clamped (entry_at gm k)
                      else entry_at gm k).
  assert (G : P (high_score_count gm) (for_range 0 (high_score_count gm) body gm1)).
  { apply (for_range_invariant P); unfold P; [lia| |].
    - split; [exact Hc1|]. split; [rewrite Hh1; reflexivity|]. split; [reflexivity|].
      intros k. replace ((0 <=? k) && (k <? 0)) with false by lia.
      unfold entry_at. rewrite Hh1. reflexivity.
    - intros i g Hi (Gc & Gl & Gs & Ge). unfold body.
      set (g1 := if hs_score (arr_get entry_zero (high_scores g) i) <? 0
                 then set_high_scores g (set_entry (high_scores g) i (with_score 0))
                 else g).
      assert (A1 : high_score_count g1 = high_score_count gm /\
                   length (high_scores g1) = length (high_scores gm) /\
                   high_score g1 = high_score gm1 /\
                   forall k, entry_at g1 k =
                     if k =? i then with_score (Z.max 0 (hs_score (entry_at g i)))
                                      (entry_at g i)
                     else entry_at g k).
      { unfold g1. destruct (_ <? 0) eqn:E.
        - split; [exact Gc|]. split; [simpl; rewrite set_entry_length; exact Gl|].
          split; [exact Gs|]. intros k. unfold entry_at. simpl.
          rewrite set_entry_get by lia. destruct (k =? i); [|reflexivity].
          f_equal. lia.
        - split; [exact Gc|]. split; [exact Gl|]. split; [exact Gs|].
          intros k. destruct (k =? i) eqn:Ek; [|reflexivity].
          replace k with i by lia. unfold entry_at in *.
          rewrite Z.max_r by lia. destruct (arr_get entry_zero (high_scores g) i).
          reflexivity. }
      clearbody g1. destruct A1 as (Ac1 & Al1 & As1 & Ae1).
      set (g2 := if hs_highest_combo (arr_get entry_zero (high_scores g1) i) <? 0
                 then set_high_scores g1
                        (set_entry (high_scores g1) i (with_highest_combo 0))
                 else g1).
      assert (A2 : high_score_count g2 = high_score_count gm /\
                   length (high_scores g2) = length (high_scores gm) /\
                   high_score g2 = high_score gm1 /\
                   forall k, entry_at g2 k =
                     if k =? i
                     then with_highest_combo (Z.max 0 (hs_highest_combo (entry_at g1 i)))
                            (entry_at g1 i)
                     else entry_at g1 k).
      { unfold g2. destruct (_ <? 0) eqn:E.
        - split; [exact Ac1|]. split; [simpl; rewrite set_entry_length; exact Al1|].
          split; [exact As1|]. intros k. unfold entry_at. simpl.
          rewrite set_entry_get by lia. destruct (k =? i); [|reflexivity].
          f_equal. lia.
        - split; [exact Ac1|]. split; [exact Al1|]. split; [exact As1|].
          intros k. destruct (k =? i) eqn:Ek; [|reflexivity].
          replace k with i by lia. unfold entry_at in *.
          rewrite Z.max_r by lia. destruct (arr_get entry_zero (high_scores g1) i).
          reflexivity. }
      clearbody g2. destruct A2 as (Ac2 & Al2 & As2 & Ae2).
      assert (A3 : forall k,
                entry_at (if String.eqb (hs_name (arr_get entry_zero (high_scores g2) i))
                               EmptyString
                          then set_high_scores g2
                                 (set_entry (high_scores g2) i (with_name "PLAYR"))
                          else g2) k =
                if k =? i
                then with_name (if String.eqb (hs_name (entry_at g2 i)) EmptyString
                                then "PLAYR" else hs_name (entry_at g2 i))
                       (entry_at g2 i)
                else entry_at g2 k).
      { intros k. unfold entry_at. destruct (String.eqb _ EmptyString) eqn:E.
        - simpl. rewrite set_entry_get by lia. reflexivity.
        - destruct (k =? i) eqn:Ek; [|reflexivity]. replace k with i by lia.
          destruct (arr_get entry_zero (high_scores g2) i). reflexivity. }
      split; [destruct (String.eqb _ EmptyString); [simpl|]; exact Ac2|].
      split; [destruct (String.eqb _ EmptyString);
              [simpl; rewrite set_entry_length|]; exact Al2|].
      split; [destruct (String.eqb _ EmptyString); [simpl|]; exact As2|].
      intros k. rewrite A3. destruct (Z.eq_dec k i) as [->|Hne].
      + replace (i =? i) with true by lia.
        replace ((0 <=? i) && (i <? i + 1)) with true by lia.
        rewrite (Ae2 i), (Ae1 i), (Ge i).
        replace (i =? i) with true by lia.
        replace ((0 <=? i) && (i <? i)) with false by lia.
        unfold entry_clamped, with_name, with_highest_combo, with_score. simpl.
        reflexivity.
      + replace (k =? i) with false by lia.
        rewrite (Ae2 k), (Ae1 k), (Ge k). replace (k =? i) with false by lia.
        replace ((0 <=? k) && (k <? i + 1)) with ((0 <=? k) && (k <? i)) by lia.
        reflexivity. }
  destruct G as (Gc & Gl & Gs & Ge).
  split; [exact Gc|]. split; [exact Gl|]. split; [rewrite Gs; exact Hs1|]. exact Ge.
Qed.

(** A line of the scores file, read back in the six-field format. *)
Lemma scan_score_line (e : HighScoreEntry) (rest : string) :
  name_ok (hs_name e) = true ->
  scan_convs [Cint; Cint; Cint; Cint; Cint; Cstr 5] (newline +:+ score_line e +:+ rest) =
  ([Vint (hs_grid_w e); Vint (hs_grid_h e); Vint (hs_tray_count e); Vint (hs_score e);
    Vint (hs_highest_combo e); Vstr (hs_name e)], newline +:+ rest).
Proof.
  intros Hok. unfold score_line. rewrite !append_assoc.
  cbn [scan_convs scan_conv].
  rewrite scan_int_newline, scan_int_print by apply ends_number_blank.
  cbn [mbind option_bind].
  do 4 (rewrite scan_int_blank, scan_int_print by apply ends_number_blank;
        cbn [mbind option_bind]).
  rewrite scan_str_blank, scan_str_name by (exact Hok || apply ends_word_newline).
  reflexivity.
Qed.

Lemma fscanf_score_line (e : HighScoreEntry) (rest : string) :
  name_ok (hs_name e) = true ->
  fscanf [Cint; Cint; Cint; Cint; Cint; Cstr 5] (newline +:+ score_line e +:+ rest) =
  (6, [Vint (hs_grid_w e); Vint (hs_grid_h e); Vint (hs_tray_count e); Vint (hs_score e);
       Vint (hs_highest_combo e); Vstr (hs_name e)], newline +:+ rest).
Proof. intros Hok. unfold fscanf. rewrite scan_score_line by exact Hok. reflexivity. Qed.

(** The loop of the loader on the lines the saver wrote. *)
Lemma load_entries_lines (hs : list HighScoreEntry) (n : nat) (i : Z)
    (hs0 : list HighScoreEntry) :
  0 <= i -> i + Z.of_nat n <= Z.of_nat (length hs0) ->
  (forall k, i <= k < i + Z.of_nat n ->
     name_ok (hs_name (arr_get entry_zero hs k)) = true) ->
  let r := load_entries n i hs0 (newline +:+ score_lines hs n i) in
  length r = length hs0 /\
  forall k, arr_get entry_zero r k =
            if (i <=? k) && (k <? i + Z.of_nat n) then arr_get entry_zero hs k
            else arr_get entry_zero hs0 k.
Proof.
  revert i hs0. induction n as [|n IH]; intros i hs0 Hi Hn Hok r.
  - split; [reflexivity|]. intros k. change (Z.of_nat 0) with 0. rewrite Z.add_0_r.
    replace ((i <=? k) && (k <? i)) with false by lia. reflexivity.
  - unfold r. cbn [load_entries score_lines].
    rewrite fscanf_score_line by (apply Hok; lia).
    cbn [int_arg str_arg lookup list_lookup].
    replace (6 >=? 6) with true by reflexivity.
    set (e := arr_get entry_zero hs i).
    set (hs1 := set_entry _ i (with_name _)).
    assert (H1 : length hs1 = length hs0 /\
                 forall k, arr_get entry_zero hs1 k =
                           if k =? i then e else arr_get entry_zero hs0 k).
    { unfold hs1. split; [rewrite !set_entry_length; reflexivity|]. intros k.
      rewrite !set_entry_get by (rewrite ?set_entry_length; lia).
      destruct (k =? i); [|reflexivity].
      replace ((i =? i)) with true by lia.
      unfold with_name, with_dims, with_highest_combo, with_score. simpl.
      unfold snprintf_s, MAX_PLAYER_NAME_LEN.
      destruct (name_ok_facts _ (Hok i ltac:(lia))) as (_ & Hlen & _). fold e in Hlen.
      rewrite substring_full by (simpl; lia). destruct e; reflexivity. }
    clearbody hs1. destruct H1 as (Hl1 & He1).
    destruct (IH (i + 1) hs1 ltac:(lia) ltac:(lia) ltac:(intros k Hk; apply Hok; lia))
      as (Hl & He).
    split; [rewrite Hl; exact Hl1|]. intros k. rewrite He, He1.
    rewrite Nat2Z.inj_succ.
    pose proof (Nat2Z.is_nonneg n) as Hn0.
    destruct (Z.leb_spec (i + 1) k), (Z.ltb_spec k (i + 1 + Z.of_nat n)),
      (Z.eqb_spec k i), (Z.leb_spec i k), (Z.ltb_spec k (i + Z.succ (Z.of_nat n)));
      simpl; try reflexivity; try lia; subst k; reflexivity.
Qed.

Lemma for_loop_score_lines (hs : list HighScoreEntry) (n : nat) (i : Z) (text : string) :
  for_loop n i (fun i text => text +:+ score_line (arr_get entry_zero hs i)) text =
  text +:+ score_lines hs n i.
Proof.
  revert i text. induction n as [|n IH]; intros i text; cbn [for_loop score_lines].
  - rewrite append_empty. reflexivity.
  - rewrite IH, append_assoc. reflexivity.
Qed.

Lemma save_high_scores_text (gm : GameContext) (fs : gmap string string) :
  blockblaster_save_high_scores true gm fs !! scores_path =
  Some (print_int (high_score_count gm) +:+ newline +:+
        score_lines (high_scores gm) (Z.to_nat (high_score_count gm)) 0).
Proof.
  unfold blockblaster_save_high_scores. rewrite write_file_lookup.
  unfold for_range. rewrite for_loop_score_lines, append_assoc, Z.sub_0_r. reflexivity.
Qed.

(** Loading what was saved, for entries whose names the file can hold:
    the entries come back clamped, the best score is the first score as it
    was written. *)
Lemma save_load_entries (gm gm0 : GameContext) (fs : gmap string string) :
  0 <= high_score_count gm <= MAX_HIGH_SCORES ->
  (forall i, 0 <= i < high_score_count gm -> name_ok (hs_name (entry_at gm i)) = true) ->
  let gm' := blockblaster_load_high_scores gm0 (blockblaster_save_high_scores true gm fs) in
  high_score_count gm' = high_score_count gm /\
  (forall i, 0 <= i < high_score_count gm ->
     entry_at gm' i = entry_clamped (entry_at gm i)) /\
  high_score gm' = (if high_score_count gm >? 0 then hs_score (entry_at gm 0) else 0).
Proof.
  intros Hc Hok gm'. unfold MAX_HIGH_SCORES in Hc.
  unfold gm', blockblaster_load_high_scores, fopen_r.
  change (SAVE_DIR +:+ SCORES_FILENAME) with scores_path.
  rewrite save_high_scores_text.
  assert (Hscan : fscanf [Cint] (print_int (high_score_count gm) +:+ newline +:+
                    score_lines (high_scores gm) (Z.to_nat (high_score_count gm)) 0) =
                  (1, [Vint (high_score_count gm)],
                   newline +:+
                   score_lines (high_scores gm) (Z.to_nat (high_score_count gm)) 0)).
  { unfold fscanf. cbn [scan_convs scan_conv].
    rewrite scan_int_print by apply ends_number_newline. reflexivity. }
  rewrite Hscan. cbn [int_arg lookup list_lookup].
  replace (negb (1 =? 1)) with false by reflexivity. cbv iota.
  replace (high_score_count gm <? 0) with false by lia.
  unfold MAX_HIGH_SCORES. replace (high_score_count gm >? 5) with false by lia.
  set (c := high_score_count gm) in *.
  destruct (load_entries_lines (high_scores gm) (Z.to_nat c) 0
              (arr_make 5 entry_zero) ltac:(lia)
              ltac:(pose proof (arr_make_length entry_zero 5 ltac:(lia)); lia)
              ltac:(intros k Hk; apply (Hok k); lia)) as (Hl & He).
  set (hs1 := load_entries _ 0 _ _) in *.
  pose proof (arr_make_length entry_zero 5 ltac:(lia)) as Hm.
  set (g1 := set_high_scores _ hs1).
  assert (Hg1 : high_score_count g1 = c /\ high_scores g1 = hs1 /\ high_score g1 = 0)
    by (repeat split; reflexivity).
  clearbody g1. destruct Hg1 as (Hgc & Hgh & Hgs).
  destruct (load_done_entries g1 ltac:(rewrite Hgc, Hgh, Hl; lia))
    as (Dc & _ & Ds & De).
  assert (Hsame : forall i, 0 <= i < c -> entry_at g1 i = entry_at gm i).
  { intros i Hi. unfold entry_at. rewrite Hgh, He.
    rewrite Z.add_0_l, Z2Nat.id by lia.
    replace ((0 <=? i) && (i <? c)) with true by lia.
    reflexivity. }
  split; [rewrite Dc; exact Hgc|]. split.
  - intros i Hi. rewrite De, Hgc. replace ((0 <=? i) && (i <? c)) with true by lia.
    rewrite (Hsame i Hi). reflexivity.
  - rewrite Ds, Hgc, Hgs. destruct (c >? 0) eqn:E; [|reflexivity].
    rewrite Hsame by lia. reflexivity.
Qed.

Lemma entry_clamped_ok (e : HighScoreEntry) : entry_ok e -> entry_clamped e = e.
Proof.
  intros (Hs & Hcb & Hn). destruct (name_ok_facts _ Hn) as (Hne & _ & _).
  apply String.eqb_neq in Hne. unfold entry_clamped. rewrite Hne, !Z.max_r by lia.
  destruct e. reflexivity.
Qed.

Lemma table_example_ok (i : Z) :
  0 <= i < high_score_count table_example -> entry_ok (entry_at table_example i).
Proof.
  intros Hi. assert (H : i = 0 \/ i = 1) by (simpl in Hi; lia).
  destruct H as [->| ->]; (split; [|split]); vm_compute; congruence.
Qed.

(** X18. A table of up to five entries whose scores and combos are not
    negative and whose names have one to five characters and no blank,
    written by [blockblaster_save_high_scores], is read back by
    [blockblaster_load_high_scores] entry for entry, whatever the context
    held before: the same count, the same entries, and the best score
    that of the first entry. *)
Theorem save_load_high_scores (gm gm0 : GameContext) (fs : gmap string string) :
  0 <= high_score_count gm <= MAX_HIGH_SCORES ->
  (forall i, 0 <= i < high_score_count gm -> entry_ok (entry_at gm i)) ->
  let gm' := blockblaster_load_high_scores gm0 (blockblaster_save_high_scores true gm fs) in
  high_score_count gm' = high_score_count gm /\
  (forall i, 0 <= i < high_score_count gm -> entry_at gm' i = entry_at gm i) /\
  high_score gm' = (if high_score_count gm >? 0 then hs_score (entry_at gm 0) else 0).
Proof.
  intros Hc Hok gm'.
  destruct (save_load_entries gm gm0 fs Hc) as (Lc & Le & Ls).
  { intros i Hi. apply (Hok i Hi). }
  split; [exact Lc|]. split; [|exact Ls].
  intros i Hi. unfold gm'. rewrite (Le i Hi). apply entry_clamped_ok, Hok, Hi.
Qed.

Lemma save_load_high_scores_witness :
  entry_at (blockblaster_load_high_scores context_start
              (blockblaster_save_high_scores true table_example ∅)) 1 =
  mkEntry 15 15 3 120 2 "BOB".
Proof.
  apply (proj1 (proj2 (save_load_high_scores table_example context_start ∅
                         ltac:(vm_compute; split; congruence) table_example_ok)) 1).
  simpl. lia.
Defined.

(** X19. The clamping comes after the best score is taken: when the first
    entry written has a negative score, as an edited file may, the loaded
    entry has the score 0 and the best score of the context is the
    negative number. *)
Theorem load_best_score_unclamped (gm gm0 : GameContext) (fs : gmap string string) :
  0 < high_score_count gm <= MAX_HIGH_SCORES ->
  (forall i, 0 <= i < high_score_count gm -> name_ok (hs_name (entry_at gm i)) = true) ->
  hs_score (entry_at gm 0) < 0 ->
  let gm' := blockblaster_load_high_scores gm0 (blockblaster_save_high_scores true gm fs) in
  hs_score (entry_at gm' 0) = 0 /\ high_score gm' = hs_score (entry_at gm 0).
Proof.
  intros Hc Hok Hneg gm'.
  destruct (save_load_entries gm gm0 fs ltac:(lia) Hok) as (_ & Le & Ls).
  fold gm' in Le, Ls. split.
  - rewrite (Le 0) by lia. simpl. lia.
  - rewrite Ls. replace (high_score_count gm >? 0) with true by lia. reflexivity.
Qed.

Lemma load_best_score_unclamped_witness :
  high_score (blockblaster_load_high_scores context_start
                (blockblaster_save_high_scores true table_negative ∅)) = -7.
Proof.
  apply (proj2 (load_best_score_unclamped table_negative context_start ∅
                  ltac:(vm_compute; split; congruence)
                  ltac:(intros i Hi; assert (i = 0) as -> by (simpl in Hi; lia);
                        reflexivity)
                  ltac:(reflexivity))).
Defined.

(** A property of every slot that the writes keep. *)
Lemma set_entry_all (Q : HighScoreEntry -> Prop) (hs : list HighScoreEntry) (i : Z)
    (f : HighScoreEntry -> HighScoreEntry) :
  (forall e, Q e -> Q (f e)) ->
  (forall k, Q (arr_get entry_zero hs k)) ->
  forall k, Q (arr_get entry_zero (set_entry hs i f) k).
Proof.
  intros Hf Hq k.
  destruct (Z.lt_ge_cases i 0) as [Hneg|Hpos].
  - unfold set_entry, arr_set. replace (i <? 0) with true by lia. apply Hq.
  - destruct (Z.lt_ge_cases i (Z.of_nat (length hs))) as [Hin|Hout].
    + rewrite set_entry_get by lia. destruct (k =? i); [apply Hf|]; apply Hq.
    + unfold set_entry, arr_set. replace (i <? 0) with false by lia.
      rewrite list_insert_ge by lia. apply Hq.
Qed.

Lemma scan_word_plain (width : nat) (s : string) :
  no_space (fst (scan_word width s)) = true.
Proof.
  revert s. induction width as [|width IH]; intros s; [destruct s; reflexivity|].
  destruct s as [|c s]; [reflexivity|]. cbn [scan_word].
  destruct (is_space c) eqn:Ec; [reflexivity|].
  specialize (IH s). destruct (scan_word width s) as [word rest]. simpl in *.
  rewrite Ec, IH. reflexivity.
Qed.

Lemma scan_convs_plain (fmt : list conv) (s : string) :
  Forall value_plain (fst (scan_convs fmt s)).
Proof.
  revert s. induction fmt as [|c fmt IH]; intros s; [constructor|].
  cbn [scan_convs]. destruct (scan_conv c s) as [[v rest]|] eqn:Ec; [|constructor].
  specialize (IH rest). destruct (scan_convs fmt rest) as [vs rest']. simpl in *.
  constructor; [|exact IH].
  destruct c as [|width]; simpl in Ec.
  - destruct (scan_int s) as [[z r]|]; [|discriminate]. injection Ec as <- _. exact I.
  - unfold scan_str in Ec. pose proof (scan_word_plain width (skip_space s)) as Hw.
    destruct (skip_space s) as [|c' s'] eqn:Es; [discriminate|].
    destruct (scan_word width (String c' s')) as [word r]. simpl in Ec.
    injection Ec as <- _. exact Hw.
Qed.

(** A name read by [fscanf] holds no blank. *)
Lemma fscanf_name_plain (fmt : list conv) (f : string) (k : nat) (old : string) :
  no_space old = true ->
  no_space (str_arg k (snd (fst (fscanf fmt f))) old) = true.
Proof.
  intros Hold. unfold fscanf. pose proof (scan_convs_plain fmt f) as Hp.
  destruct (scan_convs fmt f) as [vs rest]. simpl in *. unfold str_arg.
  destruct (vs !! k) as [[z|word]|] eqn:E; try exact Hold.
  rewrite Forall_lookup in Hp. exact (Hp _ _ E).
Qed.

Lemma substring_plain (n : nat) (s : string) :
  no_space s = true -> no_space (String.substring 0 n s) = true.
Proof.
  revert s. induction n as [|n IH]; intros s Hs; destruct s as [|c s]; try reflexivity.
  simpl in *. apply andb_prop in Hs. destruct Hs as [Hc Hs].
  rewrite Hc, (IH s Hs). reflexivity.
Qed.

Lemma with_name_plain (name : string) (e : HighScoreEntry) :
  no_space name = true ->
  plain_name (with_name (snprintf_s (MAX_PLAYER_NAME_LEN + 1) name) e).
Proof.
  intros Hn. unfold plain_name. simpl.
  split; [apply substring_length | apply substring_plain; exact Hn].
Qed.

(** Whatever the file holds, the loop keeps the size of the table and
    stores only names of at most five characters without blanks. *)
Lemma load_entries_plain (n : nat) (i : Z) (hs : list HighScoreEntry) (f : string) :
  (forall k, plain_name (arr_get entry_zero hs k)) ->
  length (load_entries n i hs f) = length hs /\
  forall k, plain_name (arr_get entry_zero (load_entries n i hs f) k).
Proof.
  revert i hs f. induction n as [|n IH]; intros i hs f Hq; [split; [reflexivity | exact Hq]|].
  cbn [load_entries].
  pose proof (fscanf_name_plain [Cint; Cint; Cint; Cint; Cint; Cstr 5] f 5 EmptyString
                eq_refl) as Hn6.
  destruct (fscanf [Cint; Cint; Cint; Cint; Cint; Cstr 5] f) as [[k vs] f1].
  simpl in Hn6.
  pose proof (fscanf_name_plain [Cint; Cint; Cstr 5] f 2 _ Hn6) as Hn3.
  destruct (k >=? 6).
  - match goal with
    | |- context [load_entries n (i + 1) ?h f1] =>
        assert (Hq1 : forall k, plain_name (arr_get entry_zero h k))
    end.
    { repeat (apply (set_entry_all plain_name);
        [intros e He; first [exact He | apply with_name_plain; exact Hn6]|]).
      exact Hq. }
    destruct (IH (i + 1) _ f1 Hq1) as (Hl & Hs).
    split; [|exact Hs]. rewrite Hl, !set_entry_length. reflexivity.
  - destruct (fscanf [Cint; Cint; Cstr 5] f) as [[k2 vs2] f2]. simpl in Hn3.
    destruct (k2 <? 2).
    + split; [rewrite !set_entry_length; reflexivity|].
      repeat (apply (set_entry_all plain_name); [intros e He; exact He|]).
      exact Hq.
    + match goal with
      | |- context [load_entries n (i + 1) ?h f2] =>
          assert (Hq2 : forall k, plain_name (arr_get entry_zero h k))
      end.
      { repeat (apply (set_entry_all plain_name);
          [intros e He; first [exact He | apply with_name_plain; exact Hn3]|]).
        exact Hq. }
      destruct (IH (i + 1) _ f2 Hq2) as (Hl & Hs).
      split; [|exact Hs]. rewrite Hl, !set_entry_length. reflexivity.
Qed.

Lemma entry_clamped_plain (e : HighScoreEntry) :
  plain_name e -> entry_ok (entry_clamped e).
Proof.
  unfold plain_name, entry_ok, entry_clamped. intros [Hlen Hns]. simpl.
  split; [lia|]. split; [lia|].
  destruct (String.eqb (hs_name e) EmptyString) eqn:E; [reflexivity|].
  unfold name_ok. rewrite E, Hns. simpl.
  apply andb_true_intro. split; [|reflexivity]. lia.
Qed.

Lemma load_done_plain (g : GameContext) :
  0 <= high_score_count g <= MAX_HIGH_SCORES ->
  Z.of_nat (length (high_scores g)) = MAX_HIGH_SCORES ->
  (forall k, plain_name (entry_at g k)) ->
  let gm' := load_done g in
  0 <= high_score_count gm' <= MAX_HIGH_SCORES /\
  Z.of_nat (length (high_scores gm')) = MAX_HIGH_SCORES /\
  forall i, 0 <= i < high_score_count gm' -> entry_ok (entry_at gm' i).
Proof.
  intros Hc Hl Hs gm'.
  destruct (load_done_entries g ltac:(lia)) as (Dc & Dl & _ & De). fold gm' in Dc, Dl, De.
  split; [lia|]. split; [lia|]. intros i Hi. rewrite De.
  replace ((0 <=? i) && (i <? high_score_count g)) with true by lia.
  apply entry_clamped_plain, Hs.
Qed.

Lemma table_zero_plain (k : Z) : plain_name (arr_get entry_zero (arr_make 5 entry_zero) k).
Proof.
  unfold plain_name, arr_get, arr_make. destruct (k <? 0); [simpl; split; [lia | reflexivity]|].
  destruct (replicate (Z.to_nat 5) entry_zero !! Z.to_nat k) as [e|] eqn:E;
    [|simpl; split; [lia | reflexivity]].
  apply lookup_replicate in E. destruct E as [-> _]. simpl. split; [lia | reflexivity].
Qed.

(** The loader on any save directory. *)
Lemma load_high_scores_sane_entries (gm0 : GameContext) (fs : gmap string string) :
  let gm' := blockblaster_load_high_scores gm0 fs in
  0 <= high_score_count gm' <= MAX_HIGH_SCORES /\
  Z.of_nat (length (high_scores gm')) = MAX_HIGH_SCORES /\
  forall i, 0 <= i < high_score_count gm' -> entry_ok (entry_at gm' i).
Proof.
  intros gm'. unfold gm', blockblaster_load_high_scores.
  set (g0 := set_high_score _ 0).
  assert (H0 : high_score_count g0 = 0 /\ high_scores g0 = arr_make 5 entry_zero)
    by (split; reflexivity).
  clearbody g0. destruct H0 as (Hc0 & Hh0).
  assert (Hbase : 0 <= high_score_count g0 <= MAX_HIGH_SCORES /\
                  Z.of_nat (length (high_scores g0)) = MAX_HIGH_SCORES /\
                  forall i, 0 <= i < high_score_count g0 -> entry_ok (entry_at g0 i)).
  { rewrite Hc0, Hh0. unfold MAX_HIGH_SCORES. split; [lia|]. split; [reflexivity|].
    intros i Hi. lia. }
  destruct (fopen_r fs (SAVE_DIR +:+ SCORES_FILENAME)) as [f|].
  - destruct (fscanf [Cint] f) as [[k vs] f1].
    destruct (negb (k =? 1)); [exact Hbase|].
    set (c := if (if int_arg 0 vs 0 <? 0 then 0 else int_arg 0 vs 0) >? MAX_HIGH_SCORES
              then MAX_HIGH_SCORES
              else if int_arg 0 vs 0 <? 0 then 0 else int_arg 0 vs 0).
    assert (Hc : 0 <= c <= MAX_HIGH_SCORES).
    { unfold c, MAX_HIGH_SCORES. destruct (int_arg 0 vs 0 <? 0) eqn:E1.
      - simpl. lia.
      - destruct (int_arg 0 vs 0 >? 5) eqn:E2; lia. }
    clearbody c. simpl. rewrite Hh0.
    destruct (load_entries_plain (Z.to_nat c) 0 (arr_make 5 entry_zero) f1
                table_zero_plain) as (Hl & Hs).
    apply load_done_plain; simpl.
    + exact Hc.
    + rewrite Hl. reflexivity.
    + intros j. apply Hs.
  - destruct (fopen_r fs (SAVE_DIR +:+ HIGHSCORE_FILENAME)) as [f|]; [|exact Hbase].
    destruct (fscanf [Cint; Cint] f) as [[k vs] f1].
    destruct (k >=? 1).
    + apply load_done_plain; simpl.
      * unfold MAX_HIGH_SCORES. lia.
      * rewrite !set_entry_length, Hh0. reflexivity.
      * intros j. unfold entry_at. simpl.
        repeat (apply (set_entry_all plain_name);
          [intros e He; first [exact He | apply with_name_plain; reflexivity]|]).
        rewrite Hh0. apply table_zero_plain.
    + apply load_done_plain.
      * rewrite Hc0. unfold MAX_HIGH_SCORES. lia.
      * rewrite Hh0. reflexivity.
      * intros j. unfold entry_at. rewrite Hh0. apply table_zero_plain.
Qed.

(** X20. Whatever the save directory holds, the table
    [blockblaster_load_high_scores] builds has from 0 to 5 valid entries
    in its five slots, and every valid entry has a score and a combo that
    are not negative and a name of one to five characters without a
    blank. *)
Theorem load_high_scores_sane (gm0 : GameContext) (fs : gmap string string) :
  let gm' := blockblaster_load_high_scores gm0 fs in
  0 <= high_score_count gm' <= MAX_HIGH_SCORES /\
  Z.of_nat (length (high_scores gm')) = MAX_HIGH_SCORES /\
  forall i, 0 <= i < high_score_count gm' -> entry_ok (entry_at gm' i).
Proof. apply load_high_scores_sane_entries. Qed.

(** X21. What [blockblaster_load_high_scores] has loaded, from any save
    directory, survives a save and a further load: the same count and the
    same entries. *)
Theorem load_save_load_high_scores (gm0 gm1 : GameContext) (fs fs' : gmap string string) :
  let gm := blockblaster_load_high_scores gm0 fs in
  let gm' := blockblaster_load_high_scores gm1 (blockblaster_save_high_scores true gm fs') in
  high_score_count gm' = high_score_count gm /\
  forall i, 0 <= i < high_score_count gm -> entry_at gm' i = entry_at gm i.
Proof.
  intros gm gm'.
  destruct (load_high_scores_sane_entries gm0 fs) as (Hc & _ & Hok). fold gm in Hc, Hok.
  destruct (save_load_entries gm gm1 fs' Hc) as (Lc & Le & _).
  { intros i Hi. apply (Hok i Hi). }
  fold gm' in Lc, Le. split; [exact Lc|].
  intros i Hi. rewrite (Le i Hi). apply entry_clamped_ok, Hok, Hi.
Qed.

(** ** The random start grid *)

Section RandomFill.
Variable RNG : Type.
Variable rand : RNG -> Z * RNG.
Variables GRID_W GRID_H : Z.
Hypothesis Hrand : rand_nonneg rand.
Hypothesis Hw : 1 <= GRID_W <= GRID_W_MAX.
Hypothesis Hh : 1 <= GRID_H <= GRID_H_MAX.

Lemma random_fill_loop_spec (left : nat) (gr : Grid) (count : Z) (rng : RNG) :
  grid_storage gr ->
  let gr' := fst (random_fill_loop RNG rand GRID_W GRID_H left gr count rng) in
  grid_storage gr' /\ cell_theme gr' = cell_theme gr /\ has_theme gr' = has_theme gr /\
  exists added : list (Z * Z),
    Z.of_nat (length added) <= Z.max 0 count /\ NoDup added /\
    (forall x y, In (x, y) added ->
       in_grid GRID_W GRID_H x y /\ occupied gr x y = false) /\
    (forall x y, occupied gr' x y = true <-> occupied gr x y = true \/ In (x, y) added).
Proof.
  revert gr count rng. induction left as [|left IH]; intros gr count rng Hst gr'.
  - split; [exact Hst|]. split; [reflexivity|]. split; [reflexivity|].
    exists []. simpl. split; [lia|]. split; [constructor|]. split; [tauto|].
    intros x y. unfold gr'. simpl. tauto.
  - unfold gr'. cbn [random_fill_loop]. destruct (count >? 0) eqn:Ec.
    2:{ split; [exact Hst|]. split; [reflexivity|]. split; [reflexivity|].
        exists []. simpl. split; [lia|]. split; [constructor|]. split; [tauto|].
        intros x y. tauto. }
    pose proof (irand_from_zero RNG rand Hrand (GRID_W - 1) rng ltac:(lia)) as Hx.
    destruct (blockblaster_irand RNG rand 0 (GRID_W - 1) rng) as [x rng1].
    pose proof (irand_from_zero RNG rand Hrand (GRID_H - 1) rng1 ltac:(lia)) as Hy.
    destruct (blockblaster_irand RNG rand 0 (GRID_H - 1) rng1) as [y rng2].
    simpl in Hx, Hy.
    destruct (arr2_get false (occ gr) y x) eqn:Eo; simpl.
    + destruct (IH gr count rng2 Hst) as (Hst' & Ht & Hh' & added & Hlen & Hnd & Hin & Hocc).
      split; [exact Hst'|]. split; [exact Ht|]. split; [exact Hh'|].
      exists added. split; [exact Hlen|]. split; [exact Hnd|]. split; [exact Hin | exact Hocc].
    + set (gr1 := mkGrid (arr2_set (occ gr) y x true) (cell_theme gr) (has_theme gr)).
      destruct Hst as (So & Sc & Sh).
      assert (Hst1 : grid_storage gr1).
      { split; [apply arr2_dims_set; exact So | split; assumption]. }
      assert (Hnew : occupied gr1 x y = true).
      { unfold occupied, gr1. simpl.
        apply (arr2_get_set_eq false GRID_H_MAX GRID_W_MAX); [exact So | lia | lia]. }
      assert (Hold : forall x' y', (x', y') <> (x, y) ->
                occupied gr1 x' y' = occupied gr x' y').
      { intros x' y' Hne. unfold occupied, gr1. simpl. apply arr2_get_set_ne.
        destruct (Z.eq_dec y y') as [<-|]; [|left; assumption].
        right. intros <-. apply Hne. reflexivity. }
      destruct (IH gr1 (count - 1) rng2 Hst1)
        as (Hst' & Ht & Hh' & added & Hlen & Hnd & Hin & Hocc).
      split; [exact Hst'|]. split; [exact Ht|]. split; [exact Hh'|].
      exists ((x, y) :: added). split; [simpl length; lia|]. split.
      * constructor; [|exact Hnd]. intros Hx'. apply list_elem_of_In, Hin in Hx'.
        destruct Hx' as [_ Hfree]. congruence.
      * split.
        -- intros x' y' [Heq|Hin'].
           ++ injection Heq as <- <-. split; [split; lia | exact Eo].
           ++ destruct (Hin x' y' Hin') as [Hg Hfree]. split; [exact Hg|].
              rewrite <- Hold; [exact Hfree|]. intros Heq. injection Heq as -> ->.
              congruence.
        -- intros x' y'. rewrite Hocc. simpl.
           destruct (decide ((x', y') = (x, y))) as [Heq|Hne].
           ++ injection Heq as -> ->. split; [intros _; right; left; reflexivity|].
              intros _. left. exact Hnew.
           ++ rewrite (Hold x' y' Hne). split.
              ** intros [H|H]; [left; exact H | right; right; exact H].
              ** intros [H|[H|H]]; [left; exact H | congruence | right; exact H].
Qed.

(** X22. [blockblaster_random_fill] on a grid of at least one cell only
    adds cells: there are at most [count] cells, in the grid, free before
    and all different, such that the occupied cells afterwards are those
    occupied before and these; the themes of the grid stay as they
    were. *)
Theorem random_fill_adds (gr : Grid) (count : Z) (rng : RNG) :
  grid_storage gr ->
  let gr' := fst (blockblaster_random_fill RNG rand GRID_W GRID_H gr count rng) in
  grid_storage gr' /\ cell_theme gr' = cell_theme gr /\ has_theme gr' = has_theme gr /\
  exists added : list (Z * Z),
    Z.of_nat (length added) <= Z.max 0 count /\ NoDup added /\
    (forall x y, In (x, y) added ->
       in_grid GRID_W GRID_H x y /\ occupied gr x y = false) /\
    (forall x y, occupied gr' x y = true <-> occupied gr x y = true \/ In (x, y) added).
Proof. intros Hst. apply random_fill_loop_spec. exact Hst. Qed.
End RandomFill.

Lemma random_fill_adds_witness :
  cell_theme (fst (blockblaster_random_fill Z lcg_rand 10 10 grid_empty 12 42)) =
  cell_theme grid_empty.
Proof.
  apply (random_fill_adds Z lcg_rand 10 10 lcg_rand_nonneg
           ltac:(unfold GRID_W_MAX; lia) ltac:(unfold GRID_H_MAX; lia)
           grid_empty 12 42 grid_empty_storage).
Defined.

(** ** The combo state over a move *)

(** The non-clearing branch and the combo counters. *)
Lemma score_missing_combo (gm gm' : GameContext) (gt gt' cg : Z) (mult : F32.float) :
  score_missing gm gt = Some (gm', gt', cg, mult) ->
  0 <= combo_miss gm <= 3 ->
  highest_combo gm' = highest_combo gm /\ 0 <= combo_miss gm' <= 3 /\
  (combo gm' = combo gm \/ combo gm' = 0) /\
  high_scores gm' = high_scores gm /\ high_score_count gm' = high_score_count gm /\
  bag gm' = bag gm /\ bag_len gm' = bag_len gm /\ bag_pos gm' = bag_pos gm.
Proof.
  unfold score_missing. intros H Hm.
  destruct (combo gm >? 0) eqn:Ec.
  - apply bind_Some in H. destruct H as (cm & Hcm & H).
    apply int_of_Some in Hcm. destruct Hcm as [-> _].
    cbv zeta in H. simpl in H. destruct (combo_miss gm + 1 >? 3) eqn:E3;
      injection H as <- <- <- <-; simpl; repeat split; auto; lia.
  - injection H as <- <- <- <-. simpl. repeat split; auto; lia.
Qed.

(** The clearing branch and the combo counters; it leaves the table and
    the bag alone. *)
Lemma score_clearing_frame (gm gm' : GameContext) (gt l c gt' cg : Z)
    (mult : F32.float) :
  score_clearing gm gt l c = Some (gm', gt', cg, mult) ->
  combo gm' = combo gm + l /\ combo_miss gm' = 0 /\
  highest_combo gm' = Z.max (highest_combo gm) (combo gm + l) /\
  high_scores gm' = high_scores gm /\ high_score_count gm' = high_score_count gm /\
  bag gm' = bag gm /\ bag_len gm' = bag_len gm /\ bag_pos gm' = bag_pos gm.
Proof.
  unfold score_clearing. intros H.
  apply bind_Some in H. destruct H as (c' & Hc' & H). cbv zeta in H.
  apply int_of_Some in Hc'. destruct Hc' as [-> _].
  apply bind_Some in H. destruct H as (base & _ & H).
  apply bind_Some in H. destruct H as (bonus & _ & H).
  apply bind_Some in H. destruct H as (multi & _ & H).
  apply bind_Some in H. destruct H as (t & _ & H).
  apply bind_Some in H. destruct H as (subtotal & _ & H).
  apply bind_Some in H. destruct H as (gain & _ & H).
  apply bind_Some in H. destruct H as (total & _ & H).
  injection H as <- _ _ _. simpl.
  destruct (combo gm + l >? highest_combo gm) eqn:E; simpl;
    repeat split; try reflexivity; lia.
Qed.

(** X23. A call of [blockblaster_score_move] that is defined keeps the
    combo state of a session in order: the combo stays between 0 and the
    highest combo, which is the larger of its old value and the new
    combo; the count of misses stays between 0 and 3; and the best score
    is at least the score.  The call touches neither the high-score table
    nor the bag. *)
Theorem score_move_combo_state (gm gm' : GameContext) (p l c : Z) (res : MoveResult) :
  0 <= combo gm <= highest_combo gm -> 0 <= combo_miss gm <= 3 ->
  blockblaster_score_move gm p l c = Some (gm', res) ->
  0 <= combo gm' <= highest_combo gm' /\
  highest_combo gm' = Z.max (highest_combo gm) (combo gm') /\
  0 <= combo_miss gm' <= 3 /\
  score gm' <= high_score gm' /\
  high_scores gm' = high_scores gm /\ high_score_count gm' = high_score_count gm /\
  bag gm' = bag gm /\ bag_len gm' = bag_len gm /\ bag_pos gm' = bag_pos gm.
Proof.
  intros Hc Hm H. unfold blockblaster_score_move in H.
  apply bind_Some in H. destruct H as (pg & _ & H).
  apply bind_Some in H. destruct H as (gt0 & _ & H).
  apply bind_Some in H. destruct H as ([[[gm1 gt1] cg] mult] & Hbr & H).
  cbv zeta in H.
  apply bind_Some in H. destruct H as (s & _ & H).
  injection H as <- <-.
  assert (Hfacts : 0 <= combo gm1 <= highest_combo gm1 /\
                   highest_combo gm1 = Z.max (highest_combo gm) (combo gm1) /\
                   0 <= combo_miss gm1 <= 3 /\
                   high_scores gm1 = high_scores gm /\
                   high_score_count gm1 = high_score_count gm /\
                   bag gm1 = bag gm /\ bag_len gm1 = bag_len gm /\
                   bag_pos gm1 = bag_pos gm).
  { destruct (l >? 0) eqn:El.
    - apply score_clearing_frame in Hbr.
      destruct Hbr as (Hcombo & Hmiss & Hhigh & Hframe).
      split; [lia|]. split; [lia|]. split; [lia|]. exact Hframe.
    - apply score_missing_combo in Hbr; [|exact Hm].
      destruct Hbr as (Hhigh & Hmiss & Hcombo & Hframe).
      split; [lia|]. split; [lia|]. split; [lia|]. exact Hframe. }
  destruct Hfacts as (F1 & F2 & F3 & F4).
  simpl. destruct (s >? high_score gm1) eqn:E; simpl;
    (split; [exact F1|]; split; [exact F2|]; split; [exact F3|];
     split; [lia | exact F4]).
Qed.

Lemma score_move_combo_state_witness :
  exists gm' res,
    blockblaster_score_move context_start 3 1 10 = Some (gm', res) /\
    0 <= combo gm' <= highest_combo gm'.
Proof.
  eexists _, _. split; [reflexivity|].
  apply (score_move_combo_state context_start _ 3 1 10 _
           ltac:(vm_compute; split; congruence)
           ltac:(vm_compute; split; congruence) eq_refl).
Defined.

(** ** Inserting into a table with room *)

(** X24. Inserting into a sorted table of fewer than five entries always
    stores the result: the count grows by one and the new entry, which
    records the grid size, the tray count, the score, the combo and the
    first five characters of the name, sits below every entry whose score
    is at least as high and above every entry whose score is lower, these
    being moved down by one; the best score of the context becomes the
    score of the first entry, the highest of the table. *)
Theorem insert_high_score_room (GRID_W GRID_H PIECES_PER_SET : Z) (gm : GameContext)
    (s c : Z) (n : string) :
  table_ok gm -> high_score_count gm < MAX_HIGH_SCORES ->
  let gm' := blockblaster_insert_high_score GRID_W GRID_H PIECES_PER_SET gm s c n in
  high_score_count gm' = high_score_count gm + 1 /\
  (exists pos,
     0 <= pos <= high_score_count gm /\
     entry_at gm' pos =
       mkEntry GRID_W GRID_H PIECES_PER_SET s c (String.substring 0 5 n) /\
     (forall k, 0 <= k < pos ->
        entry_at gm' k = entry_at gm k /\ s <= hs_score (entry_at gm k)) /\
     (forall k, pos < k <= high_score_count gm ->
        entry_at gm' k = entry_at gm (k - 1) /\ hs_score (entry_at gm (k - 1)) < s)) /\
  high_score gm' = hs_score (entry_at gm' 0) /\
  (forall k, 0 <= k < high_score_count gm' ->
     hs_score (entry_at gm' k) <= high_score gm').
Proof.
  intros Hok Hroom gm'.
  pose proof (insert_high_score_ok GRID_W GRID_H PIECES_PER_SET gm s c n Hok) as Hok'.
  fold gm' in Hok'. destruct Hok' as (_ & _ & Hsorted').
  destruct (insert_high_score_entries GRID_W GRID_H PIECES_PER_SET gm s c n Hok)
    as [(_ & Hfull & _)|(pos & Hp & Hp5 & Hbefore & Hat & Hcount' & _ & Hbest & _ & Hval)];
    [lia|].
  fold gm' in Hcount', Hbest, Hval.
  destruct Hok as (Hcount & _ & Hsorted). unfold MAX_HIGH_SCORES in *.
  assert (Hc' : high_score_count gm' = high_score_count gm + 1) by lia.
  split; [exact Hc'|]. split; [|split].
  - exists pos. split; [lia|]. split; [|split].
    + rewrite Hval. replace (pos =? pos) with true by lia. reflexivity.
    + intros k Hk. split; [|apply Hbefore; exact Hk].
      rewrite Hval. replace (k =? pos) with false by lia.
      replace ((pos <? k) && (k <=? high_score_count gm' - 1)) with false by lia.
      reflexivity.
    + intros k Hk. split.
      * rewrite Hval. replace (k =? pos) with false by lia.
        replace ((pos <? k) && (k <=? high_score_count gm' - 1)) with true by lia.
        reflexivity.
      * specialize (Hsorted pos (k - 1) ltac:(lia) ltac:(lia) ltac:(lia)).
        specialize (Hat ltac:(lia)). lia.
  - exact Hbest.
  - intros k Hk. rewrite Hbest. apply Hsorted'; lia.
Qed.

Lemma insert_high_score_room_witness :
  high_score_count
    (blockblaster_insert_high_score 10 10 4 context_start 50 2 "PLAYER ONE") = 1.
Proof.
  apply (proj1 (insert_high_score_room 10 10 4 context_start 50 2 "PLAYER ONE"
                  context_start_table_ok ltac:(vm_compute; reflexivity))).
Defined.

(** ** Clamping a float *)

Lemma SFcompare_antisym (x y : spec_float) :
  SFcompare y x = option_map CompOpp (SFcompare x y).
Proof.
  destruct x as [sx|sx| |sx mx ex], y as [sy|sy| |sy my ey]; simpl;
    try reflexivity; try (destruct sx; reflexivity); try (destruct sy; reflexivity);
    try (destruct sx, sy; reflexivity).
  f_equal. change (PosDef.Pos.compare_cont Eq my mx) with (Pos.compare my mx).
  change (PosDef.Pos.compare_cont Eq mx my) with (Pos.compare mx my).
  rewrite (Z.compare_antisym ex ey), (Pos.compare_antisym mx my).
  destruct sx, sy; try reflexivity;
    destruct (ex ?= ey); simpl; reflexivity.
Qed.

Lemma SFcompare_refl (x : spec_float) : float_nan x = false -> SFcompare x x = Some Eq.
Proof.
  destruct x as [s|s| |s m e]; simpl; intros H; try reflexivity; try discriminate.
  - destruct s; reflexivity.
  - change (PosDef.Pos.compare_cont Eq m m) with (Pos.compare m m).
    rewrite Z.compare_refl, Pos.compare_refl. destruct s; reflexivity.
Qed.

Lemma float_le_nan (a b : F32.float) :
  float_le a b = true -> float_nan a = false /\ float_nan b = false.
Proof.
  unfold float_le, SFleb.
  destruct a as [sa|sa| |sa ma ea], b as [sb|sb| |sb mb eb]; simpl;
    intros H; try discriminate; split; reflexivity.
Qed.

(** X25. [blockblaster_clampf] hands a NaN back as it is; any other value
    is brought into [lo, hi] when [lo <= hi], and a value already there
    is returned unchanged. *)
Theorem clampf_range (v lo hi : F32.float) :
  (float_nan v = true -> blockblaster_clampf v lo hi = v) /\
  (float_nan v = false -> float_le lo hi = true ->
   float_le lo (blockblaster_clampf v lo hi) = true /\
   float_le (blockblaster_clampf v lo hi) hi = true) /\
  (float_le lo v = true -> float_le v hi = true -> blockblaster_clampf v lo hi = v).
Proof.
  unfold blockblaster_clampf, F32.lt, F32.gt, float_le, SFleb, SFltb.
  split; [|split].
  - destruct v; try discriminate. intros _. destruct hi; reflexivity.
  - intros Hv Hle.
    destruct (float_le_nan lo hi Hle) as [Hlo Hhi].
    pose proof (SFcompare_refl lo Hlo) as Rlo.
    pose proof (SFcompare_refl hi Hhi) as Rhi.
    pose proof (SFcompare_antisym v lo) as Alo.
    pose proof (SFcompare_antisym hi v) as Ahi.
    unfold float_le, SFleb in Hle.
    destruct (SFcompare v lo) as [[| |]|] eqn:E1;
      destruct (SFcompare hi v) as [[| |]|] eqn:E2;
      simpl in Alo, Ahi; rewrite ?Alo, ?Ahi, ?Rlo, ?Rhi, ?Hle;
      try (split; reflexivity);
      destruct v, lo, hi; simpl in *; discriminate.
  - intros H1 H2.
    pose proof (SFcompare_antisym lo v) as Alo. pose proof (SFcompare_antisym v hi) as Ahi.
    destruct (SFcompare lo v) as [[| |]|]; try discriminate; simpl in Alo; rewrite Alo;
      destruct (SFcompare v hi) as [[| |]|]; try discriminate; simpl in Ahi; rewrite Ahi;
      reflexivity.
Qed.

Lemma clampf_range_witness :
  float_le F32.zero (blockblaster_clampf (F32.of_Z 7) F32.zero F32.one) = true /\
  float_le (blockblaster_clampf (F32.of_Z 7) F32.zero F32.one) F32.one = true.
Proof.
  apply (proj1 (proj2 (clampf_range (F32.of_Z 7) F32.zero F32.one)));
    reflexivity.
Defined.
